(** * Batch meme generation pipeline: a shallow embedding

    The development follows the Python sources of the pipeline:
    - [api/ai/rate_limiter.py]   (module [RateLimiter])
    - [api/ai/json_repairer.py]  (module [JsonRepairer])
    - [api/ai/text_overlay.py]   (module [TextOverlay])
    - [api/ai/meme_ai_flow.py]   (module [MemeFlow])

    Conventions of the embedding.
    - Python exceptions are values of [exn]; a computation that may raise
      returns an [outcome]; code that also mutates shared objects runs in the
      state-and-exception monad [PyM].
    - Python [float]s are idealised as exact rationals ([Q]): [0.2] is [1/5],
      [1.2] is [6/5], and a [timedelta] is an exact number of microseconds.
      The comparisons the concrete examples rest on are checked in binary64
      as well ([binary64_agrees]).
    - Python [dict]s with string keys are [gmap string _]; lists are lists.
    - Calls into external libraries (the completion API, PIL's text
      measurement, [json.loads], ...) are section variables. *)

From Stdlib Require Import ZArith QArith Lia Bool Ascii.
From Stdlib Require PrimFloat Uint63.
From stdpp Require Import gmap strings list pretty.

(** ** Python basics *)

Module Py.

(** The exception classes the modelled code raises or catches.
    [JSONDecodeError] is a subclass of [ValueError]; every class here is a
    subclass of [Exception]. *)
Inductive exn_class :=
  | ValueError | JSONDecodeError | RuntimeError | IndexError | KeyError
  | TypeError | OverflowError | ZeroDivisionError | OtherError.

(** An exception object: its class and [str(e)]. *)
Record exn := Exn { exn_cls : exn_class; exn_str : string }.

(** [isinstance(e, ValueError)] *)
Definition is_ValueError (e : exn) : bool :=
  match exn_cls e with
  | ValueError | JSONDecodeError => true
  | _ => false
  end.

(** [isinstance(e, json.JSONDecodeError)] *)
Definition is_JSONDecodeError (e : exn) : bool :=
  match exn_cls e with
  | JSONDecodeError => true
  | _ => false
  end.

(** What a call (or an awaited task) ends with. *)
Inductive outcome (A : Type) :=
  | Returned (a : A)
  | Raised (e : exn).
Arguments Returned {A} a.
Arguments Raised {A} e.

(** Code that reads and writes a shared state [S] and may raise. *)
Definition PyM (S A : Type) : Type := S -> outcome A * S.

Definition ret {S A} (a : A) : PyM S A := fun s => (Returned a, s).

Definition raise {S A} (e : exn) : PyM S A := fun s => (Raised e, s).

Definition bind {S A B} (m : PyM S A) (k : A -> PyM S B) : PyM S B :=
  fun s => match m s with
           | (Returned a, s') => k a s'
           | (Raised e, s') => (Raised e, s')
           end.

(** [try: m  except Exception as e: h e] *)
Definition try_except {S A} (m : PyM S A) (h : exn -> PyM S A) : PyM S A :=
  fun s => match m s with
           | (Returned a, s') => (Returned a, s')
           | (Raised e, s') => h e s'
           end.

(** Sequencing of calls that only return or raise. *)
Definition obind {A B} (o : outcome A) (k : A -> outcome B) : outcome B :=
  match o with
  | Returned a => k a
  | Raised e => Raised e
  end.

(** Lifting a call that does not touch the state. *)
Definition lift {S A} (o : outcome A) : PyM S A := fun s => (o, s).

Definition gets {S A} (f : S -> A) : PyM S A := fun s => (Returned (f s), s).

Definition modify {S} (f : S -> S) : PyM S unit := fun s => (Returned tt, f s).

Declare Scope py_scope.
Delimit Scope py_scope with py.
Notation "x <- m ;; k" := (bind m (fun x => k))
  (at level 100, m at next level, right associativity) : py_scope.
Notation "m ;;; k" := (bind m (fun _ => k))
  (at level 100, right associativity) : py_scope.
Notation "x <~ o ;; k" := (obind o (fun x => k))
  (at level 100, o at next level, right associativity) : py_scope.

(** Truth value of a string: [bool(s)]. *)
Definition truthy (s : string) : bool :=
  match s with
  | EmptyString => false
  | String _ _ => true
  end.

(** Truth value of an optional string ([None] is false). *)
Definition truthy_opt (o : option string) : bool :=
  match o with
  | Some s => truthy s
  | None => false
  end.

(** [bool(l)] for a list. *)
Definition nonempty {A} (l : list A) : bool :=
  match l with
  | [] => false
  | _ :: _ => true
  end.

(** [l[i]]: [IndexError] out of range. *)
Definition index {A} (l : list A) (i : nat) : outcome A :=
  match l !! i with
  | Some a => Returned a
  | None => Raised (Exn IndexError "list index out of range")
  end.

(** ASCII whitespace, as [str.isspace] sees it: tab, line feed, vertical
    tab, form feed, carriage return, the separators 28 to 31, and space. *)
Definition isspace (c : ascii) : bool :=
  let n := nat_of_ascii c in
  ((9 <=? n) && (n <=? 13)) || ((28 <=? n) && (n <=? 32)).

(** [text.split()]: the maximal runs of characters that are not whitespace.
    [cur] is the word being read, reversed. *)
Fixpoint split_go (cur : string) (s : string) : list string :=
  match s with
  | EmptyString =>
      if truthy cur then [String.rev cur] else []
  | String c s' =>
      if isspace c then
        if truthy cur then String.rev cur :: split_go EmptyString s'
        else split_go EmptyString s'
      else split_go (String c cur) s'
  end.

Definition split (s : string) : list string := split_go EmptyString s.

(** [s.lstrip()] *)
Fixpoint lstrip (s : string) : string :=
  match s with
  | EmptyString => EmptyString
  | String c s' => if isspace c then lstrip s' else s
  end.

(** [s.strip()] *)
Definition strip (s : string) : string :=
  String.rev (lstrip (String.rev (lstrip s))).

(** [sep.join(words)] *)
Fixpoint join (sep : string) (words : list string) : string :=
  match words with
  | [] => EmptyString
  | [w] => w
  | w :: ws => w +:+ sep +:+ join sep ws
  end.

(** [range(start, stop, -1)]: [start, start-1, ..., stop+1]. *)
Definition range_down (start stop : Z) : list Z :=
  map (fun k => (start - Z.of_nat k)%Z) (seq 0 (Z.to_nat (start - stop))).

(** [a < b] on floats. *)
Definition Qlt_bool (a b : Q) : bool := negb (Qle_bool b a).

(** [max(a, b)]: the first argument unless the second is strictly larger. *)
Definition max2 (a b : Q) : Q := if Qlt_bool a b then b else a.

(** [max(l)] for a list whose first element is [x]. *)
Definition max_list (x : Q) (l : list Q) : Q := fold_left max2 l x.

(** The line feed character, and [str(n)] for a natural number. *)
Definition nl : string := String (ascii_of_nat 10) EmptyString.

Definition str_nat (n : nat) : string := pretty n.

(** [key in d] for a [dict] with string keys. *)
Definition contains {V} (d : gmap string V) (key : string) : bool :=
  match d !! key with
  | Some _ => true
  | None => false
  end.

(** [d[key]]: [KeyError] when the key is absent. *)
Definition getitem {V} (d : gmap string V) (key : string) : outcome V :=
  match d !! key with
  | Some v => Returned v
  | None => Raised (Exn KeyError key)
  end.

(** [for x in l: body x], in order, stopping at the first exception. *)
Fixpoint for_each {S A} (body : A -> PyM S unit) (l : list A) : PyM S unit :=
  match l with
  | [] => ret tt
  | x :: l' => bind (body x) (fun _ => for_each body l')
  end.

(** [int(x)] for a float: truncation towards zero. *)
Definition int_of_float (x : Q) : Z := Z.quot (Qnum x) (Zpos (Qden x)).

End Py.

Import Py.

(** ** [api/ai/rate_limiter.py] *)

Module RateLimiter.

(** A timezone-aware [datetime]: microseconds since the epoch (UTC). *)
Definition datetime : Type := Z.

(** A [timedelta]: a number of microseconds. *)
Definition timedelta : Type := Z.

(** [timedelta(seconds=n)] *)
Definition seconds (n : Z) : timedelta := (n * 1000000)%Z.

(** [d.total_seconds()] *)
Definition total_seconds (d : timedelta) : Q := Qmake d 1000000.

Record RateLimitInfo := {
  requests_remaining : Z;
  requests_reset : datetime;
  tokens_remaining : Z;
  tokens_reset : datetime;
  input_tokens_remaining : Z;
  input_tokens_reset : datetime;
  output_tokens_remaining : Z;
  output_tokens_reset : datetime;
  retry_after : Z;
  timestamp : datetime
}.

(** [RateLimitInfo.should_wait]; [current_time] is the reading of
    [datetime.now(timezone.utc)] the method starts with. *)
Definition should_wait (self : RateLimitInfo) (current_time : datetime)
  : bool * Q :=
  let wait_times : list Q := [] in
  let wait_times :=
    if (requests_remaining self <=? 0)%Z
    then wait_times ++ [total_seconds (requests_reset self - current_time)%Z]
    else wait_times in
  let wait_times :=
    if (tokens_remaining self <=? 0)%Z
    then wait_times ++ [total_seconds (tokens_reset self - current_time)%Z]
    else wait_times in
  let wait_times :=
    if (input_tokens_remaining self <=? 0)%Z
    then wait_times ++ [total_seconds (input_tokens_reset self - current_time)%Z]
    else wait_times in
  let wait_times :=
    if (output_tokens_remaining self <=? 0)%Z
    then wait_times ++ [total_seconds (output_tokens_reset self - current_time)%Z]
    else wait_times in
  match wait_times with
  | w :: ws =>
      let max_wait_time := max2 0 (max_list w ws) in
      (true, max_wait_time)
  | [] => (false, 0%Q)
  end.

(** The response headers: a [dict] of strings. *)
Abbreviation headers := (gmap string string).

Section FromHeaders.

(** [int(s)] and [datetime.fromisoformat(s)] on strings. *)
Variable py_int : string -> outcome Z.
Variable fromisoformat : string -> outcome datetime.

(** The local [parse_date] of [from_headers]. *)
Definition parse_date (future : datetime) (date_str : option string)
  : outcome datetime :=
  match date_str with
  | None => Returned future
  | Some s =>
      if negb (truthy s) then Returned future
      else match fromisoformat s with
           | Returned d => Returned d
           | Raised e => if is_ValueError e then Returned future else Raised e
           end
  end.

(** [int(headers.get(key, 0))] *)
Definition int_header (h : headers) (key : string) : outcome Z :=
  match h !! key with
  | Some s => py_int s
  | None => Returned 0%Z
  end.

(** [RateLimitInfo.from_headers]; [now] is its reading of the clock. *)
Definition from_headers (h : headers) (now : datetime) : outcome RateLimitInfo :=
  let future := (now + seconds 60)%Z in
  (rr <~ int_header h "anthropic-ratelimit-requests-remaining" ;;
   rt <~ parse_date future (h !! "anthropic-ratelimit-requests-reset") ;;
   tr <~ int_header h "anthropic-ratelimit-tokens-remaining" ;;
   tt' <~ parse_date future (h !! "anthropic-ratelimit-tokens-reset") ;;
   ir <~ int_header h "anthropic-ratelimit-input-tokens-remaining" ;;
   it <~ parse_date future (h !! "anthropic-ratelimit-input-tokens-reset") ;;
   or <~ int_header h "anthropic-ratelimit-output-tokens-remaining" ;;
   ot <~ parse_date future (h !! "anthropic-ratelimit-output-tokens-reset") ;;
   ra <~ int_header h "retry-after" ;;
   Returned {| requests_remaining := rr; requests_reset := rt;
               tokens_remaining := tr; tokens_reset := tt';
               input_tokens_remaining := ir; input_tokens_reset := it;
               output_tokens_remaining := or; output_tokens_reset := ot;
               retry_after := ra; timestamp := now |})%py.

End FromHeaders.

(** One request to the completion API. *)
Record api_request := {
  req_model : string;
  req_max_tokens : Z;
  req_temperature : Q;
  req_system : string;
  req_messages : list (string * string)
}.

(** The parsed response: the text of each content block. *)
Record response := { content : list string }.

(** What [with_raw_response.create] returns. *)
Record raw_response := { raw_headers : headers; parsed : response }.

(** The process-wide state the module reads and writes: the two class
    attributes of [RateLimiter], the clock, the environment, and a log of
    the requests sent and of the [asyncio.sleep] calls made. *)
Record world := {
  most_recent_rate_limit_info : option RateLimitInfo;
  timestamp_rate_limit_info : option datetime;
  clock : datetime;
  environ : gmap string string;
  api_calls : list api_request;
  sleeps : list Q
}.

Definition set_rate_limit_info (i : RateLimitInfo) (t : datetime) (w : world)
  : world :=
  {| most_recent_rate_limit_info := Some i;
     timestamp_rate_limit_info := Some t;
     clock := clock w; environ := environ w;
     api_calls := api_calls w; sleeps := sleeps w |}.

Definition log_api_call (r : api_request) (w : world) : world :=
  {| most_recent_rate_limit_info := most_recent_rate_limit_info w;
     timestamp_rate_limit_info := timestamp_rate_limit_info w;
     clock := clock w; environ := environ w;
     api_calls := api_calls w ++ [r]; sleeps := sleeps w |}.

(** [await asyncio.sleep(d)], for a caller that is the only task running:
    it resumes [d] seconds later, and nothing else has touched the world
    in between. Under [asyncio.gather] other tasks run during the sleep
    and may record a new snapshot; what is proved with this definition is
    about the caller taken alone. The sleep is logged. *)
Definition asyncio_sleep (d : Q) : PyM world unit :=
  modify (fun w =>
    {| most_recent_rate_limit_info := most_recent_rate_limit_info w;
       timestamp_rate_limit_info := timestamp_rate_limit_info w;
       clock := (clock w + int_of_float (d * 1000000))%Z;
       environ := environ w;
       api_calls := api_calls w; sleeps := sleeps w ++ [d] |}).

(** [os.getenv(key)] *)
Definition getenv (key : string) : PyM world (option string) :=
  gets (fun w => environ w !! key).

(** [RateLimiter.should_wait_global] *)
Definition should_wait_global (w : world) : bool * Q :=
  match most_recent_rate_limit_info w with
  | None => (false, 0%Q)
  | Some info => should_wait info (clock w)
  end.

Section Requests.

Variable py_int : string -> outcome Z.
Variable fromisoformat : string -> outcome datetime.

(** The completion API behind [client.messages.with_raw_response.create]:
    what it answers to a request in a given state of the world. *)
Variable client : api_request -> world -> outcome raw_response.

(** [RateLimiter.update_anthropic_response] *)
Definition update_anthropic_response (h : headers) : PyM world unit :=
  (now <- gets clock ;;
   info <- lift (from_headers py_int fromisoformat h now) ;;
   now' <- gets clock ;;
   modify (set_rate_limit_info info now'))%py.

(** [client.messages.with_raw_response.create(...)]: one request. *)
Definition messages_create (r : api_request) : PyM world raw_response :=
  fun w => (client r w, log_api_call r w).

(** [RateLimiter.make_anthropic_request] *)
Definition make_anthropic_request (system_prompt user_prompt : string)
    (max_tokens : Z) (temperature : Q)
    (messages : option (list (string * string))) : PyM world response :=
  (fun w =>
     let '(must_wait, wait_time) := should_wait_global w in
     ((if must_wait then asyncio_sleep wait_time else ret tt) ;;;
      let messages :=
        match messages with
        | None => [("user", user_prompt)]
        | Some ms => ms
        end in
      model <- getenv "CLAUDE_MODEL" ;;
      let model := default "claude-3-5-haiku-20241022" model in
      (* try: ... except Exception: (log) raise *)
      raw <- messages_create
               {| req_model := model; req_max_tokens := max_tokens;
                  req_temperature := temperature;
                  req_system := system_prompt;
                  req_messages := messages |} ;;
      update_anthropic_response (raw_headers raw) ;;;
      ret (parsed raw)) w)%py.

End Requests.

End RateLimiter.

(** ** [api/ai/json_repairer.py] *)

Module JsonRepairer.
Import RateLimiter.

Section Repair.

(** Parsed JSON values and [json.loads]. *)
Variable json : Type.
Variable json_loads : string -> outcome json.

Variable py_int : string -> outcome Z.
Variable fromisoformat : string -> outcome datetime.

(** [anthropic.AsyncAnthropic(api_key=key, base_url=None)]: the completion
    API as reached through a client built with [key]. *)
Variable anthropic : string -> api_request -> world -> outcome raw_response.

(** [JsonRepairer._is_valid_json] *)
Definition _is_valid_json (json_str : string) : outcome bool :=
  match json_loads json_str with
  | Returned _ => Returned true
  | Raised e => if is_JSONDecodeError e then Returned false else Raised e
  end.

(** The user prompt of the repair request. *)
Definition repair_user_prompt (broken_json : string) : string :=
  "Fix this JSON to match the required schema exactly:"
    +:+ nl +:+ nl +:+ broken_json.

(** [JsonRepairer.repair_json]; [system_prompt] is [self.system_prompt]. *)
Definition repair_json (system_prompt : string) (broken_json : string)
  : PyM world string :=
  (key <- getenv "ANTHROPIC_API_KEY" ;;
   if negb (truthy_opt key) then
     raise (Exn ValueError "ANTHROPIC_API_KEY environment variable is not set")
   else
     let client := anthropic (default EmptyString key) in
     try_except
       (response <- make_anthropic_request py_int fromisoformat client
                      system_prompt (repair_user_prompt broken_json)
                      1000 (1 # 10) None ;;
        first <- lift (index (content response) 0) ;;
        let fixed_json := strip first in
        valid <- lift (_is_valid_json fixed_json) ;;
        if valid : bool then ret fixed_json
        else raise (Exn ValueError "Claude API returned invalid JSON"))
       (fun e =>
          raise (Exn ValueError ("Failed to repair JSON: " +:+ exn_str e))))%py.

End Repair.

End JsonRepairer.

(** ** [api/ai/text_overlay.py] *)

Module TextOverlay.

Definition MIN_FALLBACK_FONT_SIZE : Z := 40.
Definition MAX_FONT_SIZE : Z := 200.
Definition MIN_FONT_SIZE : Z := 10.

(** A PIL font: [ImageFont.truetype(path, size)] or
    [ImageFont.load_default()]. *)
Inductive font :=
  | truetype (path : string) (size : Z)
  | load_default.

(** What [ImageDraw] was asked to draw, oldest first. *)
Inductive draw_op :=
  | draw_rectangle (x0 y0 x1 y1 : Z) (outline : string) (width : Z)
  | draw_text (x y : Q) (s : string) (f : font) (fill : string).

Abbreviation canvas := (list draw_op).

(** The fields of a [TextOverlay] object that the methods read. *)
Record overlay := {
  width : Z;
  height : Z;
  debug_boxes : bool;
  font_path : option string
}.

Section Methods.

(** [self.draw.textbbox((0, 0), text, font=font)]:
    [(left, top, right, bottom)]. *)
Variable textbbox : font -> string -> Z * Z * Z * Z.

Variable self : overlay.

(** One turn of the loop of [wrap_text]; the state is
    [(lines, current_line)]. *)
Definition wrap_step (max_width : Z) (f : font)
    (st : list string * list string) (word : string)
  : list string * list string :=
  let '(lines, current_line) := st in
  let test_line :=
    if nonempty current_line then join " " (current_line ++ [word])
    else word in
  let '(bb_left, bb_top, bb_right, bb_bottom) := textbbox f test_line in
  let line_width := (bb_right - bb_left)%Z in
  if (line_width <=? max_width)%Z then (lines, current_line ++ [word])
  else
    ((if nonempty current_line then lines ++ [join " " current_line]
      else lines),
     [word]).

(** [TextOverlay.wrap_text] *)
Definition wrap_text (text : string) (max_width : Z) (f : font)
  : list string :=
  let words := split text in
  let '(lines, current_line) :=
    fold_left (wrap_step max_width f) words ([], []) in
  if nonempty current_line then lines ++ [join " " current_line] else lines.

(** The inner loop of [calculate_optimal_font] over the wrapped lines; the
    state is [(total_height, max_width, line_height)]. [line_height] has
    no value before the first line; it is read only when there are at least
    two lines. *)
Definition measure_step (f : font) (st : Z * Z * Z) (line : string)
  : Z * Z * Z :=
  let '(total_height, max_width, _) := st in
  let '(bb_left, bb_top, bb_right, bb_bottom) := textbbox f line in
  let line_width := (bb_right - bb_left)%Z in
  let line_height := (bb_bottom - bb_top)%Z in
  ((total_height + line_height)%Z, Z.max max_width line_width, line_height).

(** The body of the loop of [calculate_optimal_font] at one [font_size]:
    [Some] of what the loop returns with when the text fits. *)
Definition try_font_size (path : string) (text : string)
    (box_width box_height : Z) (font_size : Z)
  : option (font * list string * Q) :=
  let f := truetype path font_size in
  let text_lines := wrap_text text box_width f in
  let '(total_height, max_width, line_height) :=
    fold_left (measure_step f) text_lines (0%Z, 0%Z, 0%Z) in
  let total_height : Q :=
    if (1 <? length text_lines)%nat then
      (inject_Z total_height
       + inject_Z (Z.of_nat (length text_lines) - 1)
         * (inject_Z line_height * (2 # 10)))%Q
    else inject_Z total_height in
  let adjusted_height := (total_height * (12 # 10))%Q in
  if Qle_bool adjusted_height (inject_Z box_height)
  then Some (f, text_lines, total_height)
  else None.

(** [for font_size in sizes: ...] with its early [return]. *)
Fixpoint search_font_size (path : string) (text : string)
    (box_width box_height : Z) (sizes : list Z)
  : option (font * list string * Q) :=
  match sizes with
  | [] => None
  | font_size :: rest =>
      match try_font_size path text box_width box_height font_size with
      | Some r => Some r
      | None => search_font_size path text box_width box_height rest
      end
  end.

(** [TextOverlay.calculate_optimal_font] *)
Definition calculate_optimal_font (text : string) (box_width box_height : Z)
    (max_font : Z) : font * list string * Q :=
  let found :=
    match font_path self with
    | Some path =>
        if truthy path then
          search_font_size path text box_width box_height
            (range_down max_font (MIN_FONT_SIZE - 1)%Z)
        else None
    | None => None
    end in
  match found with
  | Some r => r
  | None =>
      let f :=
        match font_path self with
        | Some path =>
            if truthy path then truetype path MIN_FALLBACK_FONT_SIZE
            else load_default
        | None => load_default
        end in
      let text_lines := wrap_text text box_width f in
      (f, text_lines, 0%Q)
  end.

(** The offsets of the outline:
    [[(dx, dy) for dx in (-3..3) for dy in (-3..3)]]. *)
Definition outline_offsets : list (Z * Z) :=
  let r := [-3; -2; -1; 0; 1; 2; 3]%Z in
  flat_map (fun dx => map (fun dy => (dx, dy)) r) r.

(** The drawing of one line at height [current_y]. *)
Definition draw_line (x : Z) (current_y : Q) (line : string) (f : font)
  : list draw_op :=
  map (fun '(dx, dy) =>
         draw_text (inject_Z (x + dx)%Z) (current_y + inject_Z dy)%Q line f
           "black")
      outline_offsets
  ++ [draw_text (inject_Z x) current_y line f "white"].

(** The loop over [text_lines] of [render_outlined_text]. *)
Fixpoint draw_lines (x : Z) (current_y : Q) (line_height : Z)
    (line_spacing : Q) (f : font) (text_lines : list string)
  : list draw_op :=
  match text_lines with
  | [] => []
  | line :: rest =>
      draw_line x current_y line f
      ++ draw_lines x (current_y + (inject_Z line_height + line_spacing))%Q
           line_height line_spacing f rest
  end.

(** [TextOverlay.render_outlined_text] *)
Definition render_outlined_text (text : string) (position : Z * Z)
    (box_size : Z * Z) (box_id : option nat) : PyM canvas unit :=
  (let '(x, y) := position in
   let '(box_w, box_h) := box_size in
   let '(f, text_lines, total_height) :=
     calculate_optimal_font text box_w box_h MAX_FONT_SIZE in
   test_line <- lift (index text_lines 0) ;;
   let '(bb_left, bb_top, bb_right, bb_bottom) := textbbox f test_line in
   let line_height := (bb_bottom - bb_top)%Z in
   let line_spacing := (inject_Z line_height * (2 # 10))%Q in
   let y_start := y in
   (if debug_boxes self then
      modify (fun c =>
        c ++ [draw_rectangle x y (x + box_w)%Z (y + box_h)%Z "red" 3%Z]
          ++ match box_id with
             | Some n =>
                 let id_font :=
                   match font_path self with
                   | Some path =>
                       if truthy path then truetype path 30%Z
                       else load_default
                   | None => load_default
                   end in
                 [draw_text (inject_Z (x + 5)%Z) (inject_Z (y + 5)%Z)
                    ("Box " +:+ str_nat n) id_font "red"]
             | None => []
             end)
    else ret tt) ;;;
   modify (fun c =>
     c ++ draw_lines x (inject_Z y_start) line_height line_spacing f
            text_lines))%py.

(** [repr] of a list of strings that hold no quote. *)
Definition repr_list (l : list string) : string :=
  "[" +:+ join ", " (map (fun k => "'" +:+ k +:+ "'") l) +:+ "]".

Definition coord_keys : list string := ["x"; "y"; "width"; "height"].

(** The body of the loop of [add_text_at_coordinates] for box [i]
    (counted from 0). *)
Definition process_box (i : nat) (text : string) (coord : gmap string Q)
  : PyM canvas unit :=
  if negb (truthy text) then ret tt
  else
    try_except
      ((if forallb (contains coord) coord_keys then ret tt
        else
          let missing_keys :=
            filter (fun key => contains coord key = false) coord_keys in
          raise (Exn ValueError
                   ("Missing required coordinate properties for box "
                      +:+ str_nat (i + 1) +:+ ": "
                      +:+ repr_list missing_keys))) ;;;
       x_percent <- lift (getitem coord "x") ;;
       y_percent <- lift (getitem coord "y") ;;
       width_percent <- lift (getitem coord "width") ;;
       height_percent <- lift (getitem coord "height") ;;
       let x :=
         int_of_float ((x_percent / 100) * inject_Z (width self))%Q in
       let y :=
         int_of_float ((y_percent / 100) * inject_Z (height self))%Q in
       let w :=
         int_of_float ((width_percent / 100) * inject_Z (width self))%Q in
       let h :=
         int_of_float ((height_percent / 100) * inject_Z (height self))%Q in
       render_outlined_text text (x, y) (w, h) (Some (i + 1)))%py
      (fun e =>
         if is_ValueError e then
           raise (Exn ValueError
                    ("Invalid coordinate values for box " +:+ str_nat (i + 1)
                       +:+ ": " +:+ exn_str e))
         else
           raise (Exn RuntimeError
                    ("Error rendering text at coordinates for box "
                       +:+ str_nat (i + 1) +:+ ": " +:+ exn_str e))).

(** [for i, (text, coord) in enumerate(zip(texts, coordinates))], from
    index [i] on. *)
Fixpoint process_boxes (i : nat) (pairs : list (string * gmap string Q))
  : PyM canvas unit :=
  match pairs with
  | [] => ret tt
  | (text, coord) :: rest =>
      bind (process_box i text coord) (fun _ => process_boxes (S i) rest)
  end.

(** [TextOverlay.add_text_at_coordinates] *)
Definition add_text_at_coordinates (texts : list string)
    (coordinates : list (gmap string Q)) : PyM canvas unit :=
  if negb (nonempty coordinates) then
    raise (Exn ValueError "No text box coordinates provided")
  else if negb (nonempty texts) then
    raise (Exn ValueError "No text provided for text boxes")
  else if negb (length texts =? length coordinates)%nat then
    raise (Exn ValueError
             ("Mismatch between number of texts ("
                +:+ str_nat (length texts) +:+ ") and coordinates ("
                +:+ str_nat (length coordinates) +:+ ")"))
  else process_boxes 0 (zip texts coordinates).

End Methods.

End TextOverlay.

(** ** [api/ai/meme_ai_flow.py] *)

Module MemeFlow.

(** A row of [meme_templates] as the flow reads it: the ["id"] key may be
    absent from the [dict]. *)
Record template := {
  template_id : option Z;
  template_name : string
}.

(** What [generate_meme_texts] returns: the parsed JSON object, of which
    only the ["text_choices"] key ([None] when absent) is read. Each choice
    is a [dict] from caption key to caption. *)
Record text_variations := {
  text_choices : option (list (gmap string string))
}.

(** An entry of [processed_results] in [batch_generate_texts]. *)
Record processed_result := {
  pr_template : template;
  pr_text_variations : text_variations
}.

(** [asyncio.gather] with [return_exceptions=True]: every task is awaited
    to its end, and the results come in the order of the tasks, an exception
    standing where its task raised. *)
Definition gather {A} (tasks : list (outcome A)) : list (outcome A) := tasks.

Section Texts.

Variables goal context : Type.

(** The coroutine [generate_meme_texts(template, goal, context, timing)], as
    what awaiting it ends with; the last argument counts the coroutines
    created before it. *)
Variable generate_meme_texts :
  template -> goal -> context -> nat -> outcome text_variations.

(** A call of [generate_meme_texts]. The state is the log of the templates
    it has been called with. *)
Definition call_generate_meme_texts (t : template) (g : goal) (c : context)
  : PyM (list template) (outcome text_variations) :=
  fun calls =>
    (Returned (generate_meme_texts t g c (length calls)), calls ++ [t]).

(** The first loop of [batch_generate_texts]: one task per template. *)
Fixpoint create_text_tasks (templates : list template) (g : goal)
    (c : context)
  : PyM (list template) (list (template * outcome text_variations)) :=
  match templates with
  | [] => ret []
  | t :: rest =>
      (task <- call_generate_meme_texts t g c ;;
       tasks <- create_text_tasks rest g c ;;
       ret ((t, task) :: tasks))%py
  end.

(** The second loop of [batch_generate_texts], over
    [zip(text_generation_tasks, results)]. *)
Fixpoint process_text_results
    (pairs : list ((template * outcome text_variations)
                   * outcome text_variations))
  : list processed_result :=
  match pairs with
  | [] => []
  | ((t, _), result) :: rest =>
      match result with
      | Raised _ => process_text_results rest
      | Returned v =>
          {| pr_template := t; pr_text_variations := v |}
            :: process_text_results rest
      end
  end.

(** [batch_generate_texts] *)
Definition batch_generate_texts (templates : list template) (g : goal)
    (c : context) : PyM (list template) (list processed_result) :=
  (text_generation_tasks <- create_text_tasks templates g c ;;
   let results := gather (map snd text_generation_tasks) in
   ret (process_text_results (zip text_generation_tasks results)))%py.

End Texts.

(** An entry of [generated_memes]. *)
Record generated_meme := {
  gm_template_id : Z;
  gm_text_boxes : list (option string)
}.

(** One turn of [for i in range(1, 8)] in the conversion of a text choice
    to the array of boxes: both spellings of the key of box [i] are
    looked up. *)
Definition set_text_box (choice : gmap string string)
    (text_boxes : list (option string)) (i : nat) : list (option string) :=
  if contains choice ("text" +:+ str_nat i) then
    <[(i - 1)%nat := choice !! ("text" +:+ str_nat i)]> text_boxes
  else if contains choice ("text_" +:+ str_nat i) then
    <[(i - 1)%nat := choice !! ("text_" +:+ str_nat i)]> text_boxes
  else text_boxes.

(** The conversion of one text choice to the array of seven boxes, in
    [generate_memes_for_uuids]. *)
Definition text_choice_to_boxes (choice : gmap string string)
  : list (option string) :=
  fold_left (set_text_box choice) (seq 1 7) (replicate 7 None).

(** The body of [for result in template_results] in
    [generate_memes_for_uuids]: what it appends to [generated_memes]. *)
Definition memes_of_result (result : processed_result) : list generated_meme :=
  let t := pr_template result in
  match text_choices (pr_text_variations result) with
  | None => []
  | Some choices =>
      flat_map
        (fun choice =>
           let text_boxes := text_choice_to_boxes choice in
           match template_id t with
           | None => []
           | Some id =>
               [{| gm_template_id := id; gm_text_boxes := text_boxes |}]
           end)
        choices
  end.

(** An entry of [uuid_memes]. The ["cdn_url"] key is read only with
    [.get], so an absent key and [None] are one case. *)
Record uuid_meme := {
  uuid : string;
  um_template_id : Z;
  um_text_boxes : list (option string);
  cdn_url : option string
}.

(** [a % b] on non-negative integers. *)
Definition py_mod (a b : nat) : outcome nat :=
  if (b =? 0)%nat
  then Raised (Exn ZeroDivisionError "integer modulo by zero")
  else Returned (a mod b)%nat.

(** [for i, uuid in enumerate(uuids)], from index [i] on: the matching of
    identifiers with generated memes. *)
Fixpoint match_uuids (i : nat) (uuids : list string)
    (generated_memes : list generated_meme) : outcome (list uuid_meme) :=
  match uuids with
  | [] => Returned []
  | u :: rest =>
      (k <~ py_mod i (length generated_memes) ;;
       meme <~ index generated_memes k ;;
       rest' <~ match_uuids (S i) rest generated_memes ;;
       Returned ({| uuid := u; um_template_id := gm_template_id meme;
                    um_text_boxes := gm_text_boxes meme;
                    cdn_url := None |} :: rest'))%py
  end.

(** [meme["cdn_url"] = v] *)
Definition set_cdn_url (v : option string) (m : uuid_meme) : uuid_meme :=
  {| uuid := uuid m; um_template_id := um_template_id m;
     um_text_boxes := um_text_boxes m; cdn_url := v |}.

(** A row of the [memes] table. *)
Record meme_row := {
  row_template_id : option Z;
  text_box_1 : option string;
  text_box_2 : option string;
  text_box_3 : option string;
  text_box_4 : option string;
  text_box_5 : option string;
  text_box_6 : option string;
  text_box_7 : option string;
  meme_cdn_url : option string;
  row_context : option string;
  thumbs_up : Z;
  thumbs_down : Z
}.

(** The [memes] table, keyed by [id]. *)
Abbreviation memes_table := (gmap string meme_row).

(** [UPDATE memes SET template_id, text_box_1..7, meme_cdn_url WHERE id] *)
Definition update_with_url (id : Z) (t1 t2 t3 t4 t5 t6 t7 : option string)
    (url : option string) (r : meme_row) : meme_row :=
  {| row_template_id := Some id;
     text_box_1 := t1; text_box_2 := t2; text_box_3 := t3;
     text_box_4 := t4; text_box_5 := t5; text_box_6 := t6;
     text_box_7 := t7;
     meme_cdn_url := url;
     row_context := row_context r;
     thumbs_up := thumbs_up r; thumbs_down := thumbs_down r |}.

(** [UPDATE memes SET template_id, text_box_1..7 WHERE id] *)
Definition update_without_url (id : Z) (t1 t2 t3 t4 t5 t6 t7 : option string)
    (r : meme_row) : meme_row :=
  {| row_template_id := Some id;
     text_box_1 := t1; text_box_2 := t2; text_box_3 := t3;
     text_box_4 := t4; text_box_5 := t5; text_box_6 := t6;
     text_box_7 := t7;
     meme_cdn_url := meme_cdn_url r;
     row_context := row_context r;
     thumbs_up := thumbs_up r; thumbs_down := thumbs_down r |}.

(** The body of [for meme in uuid_memes] in the update of the database.
    The row is looked up under the text of the identifier: the table is
    keyed by the spelling of its [id]s, and [CAST(%s AS UUID)] is taken on
    identifiers in that spelling, which it leaves as they are. *)
Definition update_meme (meme : uuid_meme) : PyM memes_table unit :=
  (t1 <- lift (index (um_text_boxes meme) 0) ;;
   t2 <- lift (index (um_text_boxes meme) 1) ;;
   t3 <- lift (index (um_text_boxes meme) 2) ;;
   t4 <- lift (index (um_text_boxes meme) 3) ;;
   t5 <- lift (index (um_text_boxes meme) 4) ;;
   t6 <- lift (index (um_text_boxes meme) 5) ;;
   t7 <- lift (index (um_text_boxes meme) 6) ;;
   if truthy_opt (cdn_url meme) then
     modify (alter (update_with_url (um_template_id meme)
                      t1 t2 t3 t4 t5 t6 t7 (cdn_url meme))
               (uuid meme))
   else
     modify (alter (update_without_url (um_template_id meme)
                      t1 t2 t3 t4 t5 t6 t7)
               (uuid meme)))%py.

(** An entry of the list [generate_memes_for_uuids] returns. *)
Record result_entry := {
  res_uuid : string;
  res_text_boxes : list (option string);
  res_cdn_url : option string
}.

(** The entry of the returned list for one meme. *)
Definition result_of (meme : uuid_meme) : result_entry :=
  {| res_uuid := uuid meme;
     res_text_boxes := um_text_boxes meme;
     res_cdn_url := cdn_url meme |}.

Section Images.

(** The [try] block of [process_meme_image]: the overlay of the captions on
    the template image and the upload, ending with what
    [s3_uploader.upload_image] returns. *)
Variable render_and_upload : string -> uuid_meme -> outcome (option string).

(** [process_meme_image] *)
Definition process_meme_image (template_image_url : string)
    (meme : uuid_meme) : outcome (option string) :=
  match render_and_upload template_image_url meme with
  | Returned url => if truthy_opt url then Returned url else Returned None
  | Raised _ => Returned None
  end.

(** The first loop of [batch_process_images]: the tasks, each with the
    position in [uuid_memes] of the meme it holds a reference to. *)
Definition create_image_tasks (uuid_memes : list uuid_meme)
    (template_urls : gmap Z string)
  : list (nat * outcome (option string)) :=
  flat_map
    (fun '(i, meme) =>
       match template_urls !! um_template_id meme with
       | Some template_image_url =>
           if truthy template_image_url
           then [(i, process_meme_image template_image_url meme)]
           else []
       | None => []
       end)
    (imap pair uuid_memes).

(** The second loop of [batch_process_images]: the result of each task is
    written into the meme the task was created for. *)
Definition store_image_results
    (pairs : list ((nat * outcome (option string)) * outcome (option string)))
    (uuid_memes : list uuid_meme) : list uuid_meme :=
  fold_left
    (fun memes '((i, _), result) =>
       match result with
       | Raised _ => alter (set_cdn_url None) i memes
       | Returned v => alter (set_cdn_url v) i memes
       end)
    pairs uuid_memes.

(** [batch_process_images] *)
Definition batch_process_images (uuid_memes : list uuid_meme)
    (template_urls : gmap Z string) : list uuid_meme :=
  let image_tasks := create_image_tasks uuid_memes template_urls in
  let results := gather (map snd image_tasks) in
  store_image_results (zip image_tasks results) uuid_memes.

(** [SELECT id, image_url FROM meme_templates WHERE id IN (...)]: the rows
    the query returns for a list of identifiers, or the database error. *)
Variable select_template_urls : list Z -> outcome (list (Z * string)).

(** [generate_memes_for_uuids] from the check of [generated_memes] to its
    [return]: identifiers are matched with memes, the images are made, the
    rows are updated, and the results are listed. The state is the [memes]
    table. *)
Definition finish_generation (generated_memes : list generated_meme)
    (uuids : list string) : PyM memes_table (list result_entry) :=
  (if negb (nonempty generated_memes) then
     raise (Exn ValueError "No memes were generated")
   else
     uuid_memes <- lift (match_uuids 0 uuids generated_memes) ;;
     let template_ids : list Z :=
       elements (list_to_set (map um_template_id uuid_memes) : gset Z) in
     rows <- lift (select_template_urls template_ids) ;;
     let template_urls : gmap Z string :=
       fold_left (fun m '(id, url) => <[id := url]> m) rows empty in
     let uuid_memes := batch_process_images uuid_memes template_urls in
     for_each update_meme uuid_memes ;;;
     ret (map result_of uuid_memes))%py.

End Images.

End MemeFlow.

(** ** [TimingStats] of [api/ai/meme_ai_flow.py] *)

Module TimingStats.

(** The two attributes of a [TimingStats] object: the durations recorded
    for each operation, oldest first, and the time each operation was last
    started at. Times are readings of [time.time()], in seconds. *)
Record t := {
  timings : gmap string (list Q);
  start_times : gmap string Q
}.

(** [TimingStats.__init__] *)
Definition __init__ : t := {| timings := empty; start_times := empty |}.

(** [TimingStats.start]; [now] is its reading of the clock. *)
Definition start (operation_name : string) (now : Q) (self : t) : t :=
  {| timings := timings self;
     start_times := <[operation_name := now]> (start_times self) |}.

(** [TimingStats.end]: what it returns, and the object after the call. *)
Definition end_ (operation_name : string) (now : Q) (self : t)
  : option Q * t :=
  match start_times self !! operation_name with
  | Some started =>
      let duration := (now - started)%Q in
      let timings1 :=
        if negb (contains (timings self) operation_name)
        then <[operation_name := []]> (timings self)
        else timings self in
      let timings2 :=
        alter (fun times => times ++ [duration]) operation_name timings1 in
      (Some duration,
       {| timings := timings2; start_times := start_times self |})
  | None => (None, self)
  end.

(** [sum(times)] *)
Definition sum (times : list Q) : Q := fold_left Qplus times 0%Q.

(** [min(a, b)]: the first argument unless the second is strictly
    smaller. *)
Definition min2 (a b : Q) : Q := if Qlt_bool b a then b else a.

(** [min(l)] for a list whose first element is [x]. *)
Definition min_list (x : Q) (l : list Q) : Q := fold_left min2 l x.

(** An entry of the summary. *)
Record stats := {
  count : nat;
  total : Q;
  average : Q;
  minimum : Q;
  maximum : Q
}.

(** The entry that the loop of [get_summary] builds for one operation;
    the division raises when no duration was recorded. *)
Definition summarize (times : list Q) : outcome stats :=
  if (length times =? 0)%nat
  then Raised (Exn ZeroDivisionError "division by zero")
  else
    Returned
      {| count := length times;
         total := sum times;
         average := (sum times / inject_Z (Z.of_nat (length times)))%Q;
         minimum := match times with
                    | x :: xs => min_list x xs
                    | [] => 0%Q
                    end;
         maximum := match times with
                    | x :: xs => max_list x xs
                    | [] => 0%Q
                    end |}.

(** The loop of [get_summary] over the items of [self.timings]. *)
Fixpoint summarize_items (items : list (string * list Q))
    (summary : gmap string stats) : outcome (gmap string stats) :=
  match items with
  | [] => Returned summary
  | (op, times) :: rest =>
      (entry <~ summarize times ;;
       summarize_items rest (<[op := entry]> summary))%py
  end.

(** [TimingStats.get_summary] *)
Definition get_summary (self : t) : outcome (gmap string stats) :=
  summarize_items (map_to_list (timings self)) empty.

End TimingStats.

(** ** [api/ai/s3_uploader.py] *)

Module S3Uploader.

(** The content of a [BytesIO] buffer. *)
Definition bytes := list Byte.byte.

(** What the uploader does on the outside, oldest first: the two ways of
    putting an object, each with whether the call returned, and the
    sleeps, in seconds. *)
Inductive event :=
  | resource_put_object (bucket key : string) (body : bytes)
      (returned : bool)
  | client_put_object (bucket key : string) (body : bytes) (returned : bool)
  | time_sleep (seconds : Z).

(** The attributes of an [S3Uploader] that its methods read. *)
Record uploader := {
  endpoint_url : string;
  access_key : option string;
  secret_key : option string;
  bucket_name : string;
  cdn_base_url : string;
  max_retries : Z;
  retry_delay : Z
}.

(** [range(n)] *)
Definition range (n : Z) : list Z := map Z.of_nat (seq 0 (Z.to_nat n)).

(** The longest sleep, in seconds: [time.sleep] keeps the length in a
    signed 64-bit number of nanoseconds. *)
Definition sleep_max_seconds : Z := ((2 ^ 63 - 1) / 10 ^ 9)%Z.

(** [time.sleep(seconds)] for an [int]: a length that does not fit is
    refused with [OverflowError], and a negative length with
    [ValueError]. *)
Definition sleep (seconds : Z) : PyM (list event) unit :=
  if ((seconds <? - sleep_max_seconds) || (sleep_max_seconds <? seconds))%Z
  then
    raise (Exn OverflowError "timestamp too large to convert to C _PyTime_t")
  else if (seconds <? 0)%Z
  then raise (Exn ValueError "sleep length must be non-negative")
  else modify (fun w => w ++ [time_sleep seconds]).

Section Methods.

(** [boto3.resource] and [boto3.client], given the endpoint and the two
    keys: they return, or they raise. *)
Variable boto3_resource : string -> string -> string -> outcome unit.
Variable boto3_client : string -> string -> string -> outcome unit.

(** [S3Uploader.__init__], [environ] being what [os.getenv] reads. *)
Definition __init__ (environ : gmap string string) : outcome uploader :=
  let endpoint_url :=
    default "https://nyc3.digitaloceanspaces.com"
      (environ !! "DO_SPACES_ENDPOINT") in
  let access_key := environ !! "DO_SPACES_KEY" in
  let secret_key := environ !! "DO_SPACES_SECRET" in
  let bucket_name := default "memulacra" (environ !! "DO_SPACES_BUCKET") in
  let cdn_base_url :=
    "https://" +:+ bucket_name +:+ ".nyc3.digitaloceanspaces.com" in
  let max_retries := 3%Z in
  let retry_delay := 1%Z in
  match access_key, secret_key with
  | Some access, Some secret =>
      if truthy access && truthy secret then
        (_ <~ boto3_resource endpoint_url access secret ;;
         _ <~ boto3_client endpoint_url access secret ;;
         Returned
           {| endpoint_url := endpoint_url;
              access_key := access_key;
              secret_key := secret_key;
              bucket_name := bucket_name;
              cdn_base_url := cdn_base_url;
              max_retries := max_retries;
              retry_delay := retry_delay |})%py
      else
        Raised
          (Exn ValueError "Digital Ocean Spaces credentials not configured")
  | _, _ =>
      Raised
        (Exn ValueError "Digital Ocean Spaces credentials not configured")
  end.

(** The image, and the calls on the outside: [image.save(buffer,
    format='JPEG')] followed by [buffer.getvalue()], the [put_object] of
    the bucket of the resource, and the [put_object] of the client, given
    the bucket, the key and the body. Each may answer differently from one
    call to the next: it is given what happened so far. *)
Variable image : Type.
Variable image_save : image -> list event -> outcome bytes.
Variable resource_put :
  string -> string -> bytes -> list event -> outcome unit.
Variable client_put :
  string -> string -> bytes -> list event -> outcome unit.

(** The inner [try] of [upload_image]: the resource first, the client when
    the resource raised; when both raise, the exception of the resource is
    raised. *)
Definition put_object (self : uploader) (object_name : string)
    (img_bytes : bytes) : PyM (list event) unit :=
  try_except
    (fun w =>
       match resource_put (bucket_name self) object_name img_bytes w with
       | Returned _ =>
           (Returned tt,
            w ++ [resource_put_object (bucket_name self) object_name
                    img_bytes true])
       | Raised e =>
           (Raised e,
            w ++ [resource_put_object (bucket_name self) object_name
                    img_bytes false])
       end)
    (fun e =>
       try_except
         (fun w =>
            match client_put (bucket_name self) object_name img_bytes w with
            | Returned _ =>
                (Returned tt,
                 w ++ [client_put_object (bucket_name self) object_name
                         img_bytes true])
            | Raised e2 =>
                (Raised e2,
                 w ++ [client_put_object (bucket_name self) object_name
                         img_bytes false])
            end)
         (fun e2 => raise e)).

(** One turn of [for attempt in range(self.max_retries)]: [Some r] when the
    turn returns [r] from the method, [None] when the loop goes on. The two
    [except] clauses, for [ClientError] and for [Exception], do the
    same. *)
Definition upload_attempt (self : uploader) (img : image)
    (object_name : string) (attempt : Z)
  : PyM (list event) (option (option string)) :=
  try_except
    (img_bytes <- (fun w => (image_save img w, w)) ;;
     put_object self object_name img_bytes ;;;
     ret (Some (Some (cdn_base_url self +:+ "/" +:+ object_name))))%py
    (fun e =>
       if (attempt <? max_retries self - 1)%Z
       then (sleep (retry_delay self * 2 ^ attempt) ;;; ret None)%py
       else ret (Some None)).

(** The loop over the attempts; the method returns [None] when the loop
    ends without a [return]. *)
Fixpoint upload_attempts (self : uploader) (img : image)
    (object_name : string) (attempts : list Z)
  : PyM (list event) (option string) :=
  match attempts with
  | [] => ret None
  | attempt :: attempts' =>
      (r <- upload_attempt self img object_name attempt ;;
       match r with
       | Some v => ret v
       | None => upload_attempts self img object_name attempts'
       end)%py
  end.

(** [S3Uploader.upload_image] *)
Definition upload_image (self : uploader) (img : image) (uuid_str : string)
  : PyM (list event) (option string) :=
  let object_name := "meme_instances/" +:+ uuid_str +:+ ".jpg" in
  upload_attempts self img object_name (range (max_retries self)).

End Methods.

End S3Uploader.

(** ** [generate_meme_goals] of [api/ai/meme_ai_flow.py] *)

Module GoalGeneration.
Import RateLimiter JsonRepairer.

(** What [generate_meme_goals] reads and writes: the world of the requests,
    and the [TimingStats] object it is given ([None] when it is given
    none). *)
Record state := {
  the_world : world;
  timing : option TimingStats.t
}.

(** [time.time()], in seconds. *)
Definition time_time (w : world) : Q := total_seconds (clock w).

(** A call that works on the world only. *)
Definition in_world {A} (m : PyM world A) : PyM state A :=
  fun s =>
    let '(r, w) := m (the_world s) in
    (r, {| the_world := w; timing := timing s |}).

(** [if timing: timing.start(operation_name)] *)
Definition timing_start (operation_name : string) : PyM state unit :=
  modify (fun s =>
    {| the_world := the_world s;
       timing :=
         TimingStats.start operation_name (time_time (the_world s))
           <$> timing s |}).

(** [if timing: timing.end(operation_name)] *)
Definition timing_end (operation_name : string) : PyM state unit :=
  modify (fun s =>
    {| the_world := the_world s;
       timing :=
         (fun t =>
            snd (TimingStats.end_ operation_name (time_time (the_world s))
                   t))
           <$> timing s |}).

Section Goals.

(** Parsed JSON values and [json.loads]. *)
Variable json : Type.
Variable json_loads : string -> outcome json.

Variable py_int : string -> outcome Z.
Variable fromisoformat : string -> outcome datetime.
Variable anthropic : string -> api_request -> world -> outcome raw_response.

(** The prompts, of [api/ai/prompts.py], and the system prompt of
    [JsonRepairer({"meme_goals": []})]. *)
Variable GOAL_GEN_SYSTEM_PROMPT : string.
Variable format_goal_gen_user_prompt : string -> Z -> string.
Variable repairer_system_prompt : string.

(** [len(goals.get('meme_goals', []))], evaluated for the log: it raises
    on a value that is no object, or whose goals have no length. *)
Variable len_meme_goals : json -> outcome Z.

(** [generate_meme_goals(context, timing)]. The outer [except Exception]
    logs and raises the exception again. *)
Definition generate_meme_goals (context : string) : PyM state json :=
  (key <- in_world (getenv "ANTHROPIC_API_KEY") ;;
   if negb (truthy_opt key) then
     raise (Exn ValueError "ANTHROPIC_API_KEY environment variable is not set")
   else
     let client := anthropic (default EmptyString key) in
     timing_start "llm_goal_generation" ;;;
     let user_prompt := format_goal_gen_user_prompt context 2 in
     response <- in_world
                   (make_anthropic_request py_int fromisoformat client
                      GOAL_GEN_SYSTEM_PROMPT user_prompt 700 (7 # 10) None) ;;
     if negb (nonempty (content response)) then
       raise (Exn ValueError "Invalid response structure from Anthropic API")
     else
       content0 <- lift (index (content response) 0) ;;
       try_except
         (goals <- lift (json_loads content0) ;;
          _ <- lift (len_meme_goals goals) ;;
          timing_end "llm_goal_generation" ;;;
          ret goals)
         (fun json_err =>
            if is_JSONDecodeError json_err then
              fixed_json <- in_world
                              (repair_json json json_loads py_int
                                 fromisoformat anthropic
                                 repairer_system_prompt content0) ;;
              timing_end "llm_goal_generation" ;;;
              parsed_goals <- lift (json_loads fixed_json) ;;
              _ <- lift (len_meme_goals parsed_goals) ;;
              ret parsed_goals
            else raise json_err))%py.

End Goals.

End GoalGeneration.

(** ** The verification of the identifiers, in [generate_memes_for_uuids] *)

Module Verification.
Import MemeFlow.

Section Verify.

(** [CAST(text AS UUID)]: the identifier that a text denotes, as [str]
    prints it; the database refuses a text that denotes none. *)
Variable cast_uuid : string -> outcome string.

(** [f"{missing}"] for a set of strings. *)
Variable format_set : gset string -> string.

(** [CAST(UNNEST(%s::text[]) AS UUID)] on the list of identifiers. *)
Fixpoint cast_uuids (uuids : list string) : outcome (list string) :=
  match uuids with
  | [] => Returned []
  | u :: rest =>
      (id <~ cast_uuid u ;;
       ids <~ cast_uuids rest ;;
       Returned (id :: ids))%py
  end.

(** [SELECT id FROM memes WHERE id = ANY(...)] followed by
    [str(r[0]) for r in cur.fetchall()]: the rows come in the order of the
    table. *)
Definition select_found_uuids (table : memes_table) (uuids : list string)
  : outcome (list string) :=
  (ids <~ cast_uuids uuids ;;
   Returned
     (List.filter (fun id => bool_decide (id ∈ ids))
        (map fst (map_to_list table))))%py.

(** The block timed as [db_verify_uuids]. *)
Definition verify_uuids (table : memes_table) (uuids : list string)
  : outcome unit :=
  (found_uuids <~ select_found_uuids table uuids ;;
   if negb (length found_uuids =? length uuids)%nat then
     let missing : gset string :=
       list_to_set uuids ∖ list_to_set found_uuids in
     Raised
       (Exn ValueError
          ("UUIDs not found in database: " +:+ format_set missing))
   else Returned tt)%py.

End Verify.

End Verification.

(** ** [TextOverlay.__init__] of [api/ai/text_overlay.py] *)

Module TextOverlayInit.
Import TextOverlay.

(** What the [try] block of the fetch loop ends with: the image was
    fetched and opened, with its size; a
    [requests.exceptions.RequestException], with [str(e)]; or another
    exception. *)
Inductive fetch_result :=
  | fetched (width height : Z)
  | request_exception (message : string)
  | other_exception (e : exn).

(** [CDN_BASE_URL], [environ] being what [os.getenv] reads. *)
Definition CDN_BASE_URL (environ : gmap string string) : string :=
  let bucket_name := default "memulacra" (environ !! "DO_SPACES_BUCKET") in
  "https://" +:+ bucket_name +:+ ".nyc3.digitaloceanspaces.com".

(** [s.startswith('/')] *)
Definition startswith_slash (s : string) : bool :=
  match s with
  | String c _ => Ascii.eqb c "/"
  | EmptyString => false
  end.

Definition timeouts : list (Z * Z) := [(5, 10); (15, 30); (30, 60)]%Z.

Definition system_font_path : string :=
  "/System/Library/Fonts/Supplemental/Impact.ttf".

(** [alt_paths]; the second is the Windows path, with its backslashes. *)
Definition alt_paths : list string :=
  [ "/usr/share/fonts/truetype/msttcorefonts/Impact.ttf";
    "C:\Windows\Fonts\Impact.ttf" ].

Section Init.

Variable environ : gmap string string.

(** [requests.get(full_url, timeout=timeout)], [raise_for_status()] and
    [Image.open], for a URL and a timeout. *)
Variable fetch : string -> Z * Z -> fetch_result.

(** [ImageDraw.Draw(self.base_image)] on the image fetched from a URL with
    a timeout: [Image.open] has read the header only, and the image is
    loaded here, which raises on a body that is cut short. *)
Variable image_draw : string -> Z * Z -> outcome unit.

(** [os.path.exists], and the path of the font that comes with the
    project. *)
Variable path_exists : string -> bool.
Variable bundled_font_path : string.

Definition full_url (image_url : string) : string :=
  if startswith_slash image_url
  then CDN_BASE_URL environ +:+ image_url
  else CDN_BASE_URL environ +:+ "/" +:+ image_url.

(** [for timeout in timeouts: ... else: ...], from a timeout on;
    [last_exception] holds [str(last_exception)]. The loop ends with the
    timeout the image was fetched with, and the size of the image. *)
Fixpoint fetch_image (url : string) (timeouts : list (Z * Z))
    (last_exception : option string) : outcome ((Z * Z) * (Z * Z)) :=
  match timeouts with
  | [] =>
      match last_exception with
      | Some message =>
          Raised
            (Exn ValueError
               ("Failed to fetch image from " +:+ url +:+ ": " +:+ message))
      | None =>
          Raised
            (Exn ValueError
               ("Failed to fetch image from " +:+ url +:+ ": Unknown error"))
      end
  | timeout :: timeouts' =>
      match fetch url timeout with
      | fetched w h => Returned (timeout, (w, h))
      | request_exception message =>
          fetch_image url timeouts' (Some message)
      | other_exception e => Raised e
      end
  end.

(** The choice of [self.font_path]. *)
Definition find_font_path : option string :=
  if path_exists bundled_font_path then Some bundled_font_path
  else if path_exists system_font_path then Some system_font_path
  else List.find path_exists alt_paths.

(** [TextOverlay.__init__] *)
Definition __init__ (image_url : string) (debug_boxes : bool)
  : outcome overlay :=
  (base_image <~ fetch_image (full_url image_url) timeouts None ;;
   let '(timeout, size) := base_image in
   _ <~ image_draw (full_url image_url) timeout ;;
   Returned
     {| width := fst size;
        height := snd size;
        debug_boxes := debug_boxes;
        font_path := find_font_path |})%py.

End Init.

End TextOverlayInit.

(** ** The text boxes of a template, in [process_meme_image] *)

Module TextBoxes.

(** A parsed JSON value. An object keeps its keys in the order of the
    text, as a [dict] does. *)
#[warnings="-register-all"] Inductive json :=
  | JNone
  | JBool (b : bool)
  | JInt (n : Z)
  | JFloat (x : Q)
  | JStr (s : string)
  | JList (l : list json)
  | JDict (d : list (string * json)).

(** [v is not None] *)
Definition is_not_None (v : json) : bool :=
  match v with
  | JNone => false
  | _ => true
  end.

(** [d.get(key)], as an option, and [d.keys()]. *)
Definition get (d : list (string * json)) (key : string) : option json :=
  snd <$> List.find (fun kv => String.eqb (fst kv) key) d.

Definition keys (d : list (string * json)) : list string := map fst d.

(** [s.lower()] on ASCII letters. *)
Definition lower_ascii (c : ascii) : ascii :=
  let n := nat_of_ascii c in
  if (65 <=? n)%nat && (n <=? 90)%nat then ascii_of_nat (n + 32) else c.

Fixpoint lower (s : string) : string :=
  match s with
  | EmptyString => EmptyString
  | String c s' => String (lower_ascii c) (lower s')
  end.

(** [s.startswith(p)] and [p in s]. *)
Fixpoint startswith (p s : string) : bool :=
  match p, s with
  | EmptyString, _ => true
  | String a p', String b s' => Ascii.eqb a b && startswith p' s'
  | String _ _, EmptyString => false
  end.

Fixpoint str_in (p s : string) : bool :=
  startswith p s
  || match s with
     | EmptyString => false
     | String _ s' => str_in p s'
     end.

(** The caption appended for an entry of the captions of the meme: the
    empty string for [None] and for a missing entry. *)
Definition caption_or_empty (text : option (option string)) : string :=
  match text with
  | Some (Some t) => t
  | _ => EmptyString
  end.

(** The [dict] of the coordinates of a box. *)
Definition box_coords_of (x y width height : Q) : gmap string Q :=
  {[ "x" := x; "y" := y; "width" := width; "height" := height ]}.

Section Boxes.

(** [float(s)] and [int(s)] on strings, and [json.loads]. *)
Variable float_of_str : string -> outcome Q.
Variable int_of_str : string -> outcome Z.
Variable json_loads : string -> outcome json.

(** [float(v)] *)
Definition py_float (v : json) : outcome Q :=
  match v with
  | JNone =>
      Raised (Exn TypeError
                "float() argument must be a string or a real number, not 'NoneType'")
  | JBool b => Returned (if b then 1%Q else 0%Q)
  | JInt n => Returned (inject_Z n)
  | JFloat x => Returned x
  | JStr s => float_of_str s
  | JList _ =>
      Raised (Exn TypeError
                "float() argument must be a string or a real number, not 'list'")
  | JDict _ =>
      Raised (Exn TypeError
                "float() argument must be a string or a real number, not 'dict'")
  end.

(** [int(v)] *)
Definition py_int (v : json) : outcome Z :=
  match v with
  | JNone =>
      Raised (Exn TypeError
                "int() argument must be a string, a bytes-like object or a real number, not 'NoneType'")
  | JBool b => Returned (if b then 1%Z else 0%Z)
  | JInt n => Returned n
  | JFloat x => Returned (int_of_float x)
  | JStr s => int_of_str s
  | JList _ =>
      Raised (Exn TypeError
                "int() argument must be a string, a bytes-like object or a real number, not 'list'")
  | JDict _ =>
      Raised (Exn TypeError
                "int() argument must be a string, a bytes-like object or a real number, not 'dict'")
  end.

(** The parsing of [text_box_coordinates], as the database gives it. Every
    exception of the block is raised again as a [ValueError]. *)
Definition parse_text_box_coordinates (text_box_coordinates : json)
  : outcome json :=
  match
    match text_box_coordinates with
    | JDict [(first_key, JStr text_box_coordinates_str)] =>
        json_loads text_box_coordinates_str
    | JDict [(first_key, _)] => Returned text_box_coordinates
    | JDict _ => Returned text_box_coordinates
    | JStr s => json_loads s
    | JList [JStr s] => json_loads s
    | JList [JList l] => Returned (JList l)
    | _ => Returned text_box_coordinates
    end
  with
  | Returned v => Returned v
  | Raised e =>
      if is_JSONDecodeError e then
        Raised (Exn ValueError
                  ("Failed to parse text_box_coordinates JSON: "
                   +:+ exn_str e))
      else
        Raised (Exn ValueError
                  ("Error processing text_box_coordinates: " +:+ exn_str e))
  end.

(** What [enumerate(text_box_coordinates)] goes through. *)
Definition boxes_of (text_box_coordinates : json) : outcome (list json) :=
  match text_box_coordinates with
  | JList l => Returned l
  | JDict d => Returned (map JStr (keys d))
  | JStr s =>
      Returned
        (map (fun c => JStr (String c EmptyString)) (Stdlib.Strings.String.list_ascii_of_string s))
  | JNone =>
      Raised (Exn TypeError "object of type 'NoneType' has no len()")
  | JBool _ => Raised (Exn TypeError "object of type 'bool' has no len()")
  | JInt _ => Raised (Exn TypeError "object of type 'int' has no len()")
  | JFloat _ => Raised (Exn TypeError "object of type 'float' has no len()")
  end.

Variable text_boxes : list (option string).

(** The caption and the coordinates that the two fallbacks to the
    position [i] of the box append, if any. *)
Definition by_position (i : nat) (box_coords : gmap string Q)
  : option (string * gmap string Q) :=
  if (i <? length text_boxes)%nat
  then Some (caption_or_empty (text_boxes !! i), box_coords)
  else None.

(** The first [if]/[elif] of the body of the loop: [box_id] and
    [box_coords] after it. *)
Definition standard_box (box : json) : outcome (json * gmap string Q) :=
  match box with
  | JDict d =>
      let box_id := default JNone (get d "id") in
      if is_not_None box_id then
        (x <~ py_float (default (JInt 0) (get d "x")) ;;
         y <~ py_float (default (JInt 0) (get d "y")) ;;
         width <~ py_float (default (JInt 20) (get d "width")) ;;
         height <~ py_float (default (JInt 10) (get d "height")) ;;
         Returned (box_id, box_coords_of x y width height))%py
      else Returned (box_id, ∅)
  | JList l =>
      if (5 <=? length l)%nat then
        let box_id := default JNone (l !! 0%nat) in
        if is_not_None box_id then
          (x <~ py_float (default JNone (l !! 2%nat)) ;;
           y <~ py_float (default JNone (l !! 3%nat)) ;;
           width <~ py_float (default JNone (l !! 4%nat)) ;;
           height <~ (if (5 <? length l)%nat
                      then py_float (default JNone (l !! 5%nat))
                      else Returned 10%Q) ;;
           Returned (box_id, box_coords_of x y width height))%py
        else Returned (box_id, ∅)
      else Returned (JNone, ∅)
  | _ => Returned (JNone, ∅)
  end.

(** The more flexible approach, for a [dict] without an identifier. *)
Definition flexible_box (d : list (string * json))
  : outcome (json * gmap string Q) :=
  let box_id :=
    match List.find (fun key => str_in "id" (lower key)) (keys d) with
    | Some key => default JNone (get d key)
    | None => JNone
    end in
  if is_not_None box_id then
    let x_key := List.find (fun k => String.eqb "x" (lower k)) (keys d) in
    let y_key := List.find (fun k => String.eqb "y" (lower k)) (keys d) in
    let width_key := List.find (fun k => str_in "width" (lower k)) (keys d) in
    let height_key :=
      List.find (fun k => str_in "height" (lower k)) (keys d) in
    if truthy_opt x_key && truthy_opt y_key then
      (x <~ py_float
              (default (JInt 0) (get d (default EmptyString x_key))) ;;
       y <~ py_float
              (default (JInt 0) (get d (default EmptyString y_key))) ;;
       width <~ (if truthy_opt width_key
                 then py_float
                        (default (JInt 20)
                           (get d (default EmptyString width_key)))
                 else Returned 20%Q) ;;
       height <~ (if truthy_opt height_key
                  then py_float
                         (default (JInt 10)
                            (get d (default EmptyString height_key)))
                  else Returned 10%Q) ;;
       Returned (box_id, box_coords_of x y width height))%py
    else Returned (box_id, ∅)
  else Returned (box_id, ∅).

(** The body of [for i, box in enumerate(text_box_coordinates)]: the
    caption and the coordinates it appends to [texts] and to
    [coordinates], if any. An exception it raises is caught by the loop,
    which goes on with the next box. *)
Definition match_box (i : nat) (box : json)
  : outcome (option (string * gmap string Q)) :=
  (standard <~ standard_box box ;;
   flexible <~ match box with
               | JDict d =>
                   if is_not_None (fst standard) then Returned standard
                   else flexible_box d
               | _ => Returned standard
               end ;;
   let '(box_id, box_coords) := flexible in
   if is_not_None box_id then
     match py_int box_id with
     | Returned n =>
         let box_index := (n - 1)%Z in
         if (0 <=? box_index)%Z
            && (box_index <? Z.of_nat (length text_boxes))%Z
         then
           Returned
             (Some (caption_or_empty (text_boxes !! Z.to_nat box_index),
                    box_coords))
         else Returned None
     | Raised ve =>
         if is_ValueError ve then Returned (by_position i box_coords)
         else Raised ve
     end
   else Returned (by_position i box_coords))%py.

(** The loop, from the box of position [i] on: [texts] and
    [coordinates] after it. *)
Fixpoint match_boxes (i : nat) (boxes : list json)
    (texts : list string) (coordinates : list (gmap string Q))
  : list string * list (gmap string Q) :=
  match boxes with
  | [] => (texts, coordinates)
  | box :: boxes' =>
      match match_box i box with
      | Returned (Some (text, box_coords)) =>
          match_boxes (S i) boxes' (texts ++ [text])
            (coordinates ++ [box_coords])
      | Returned None | Raised _ => match_boxes (S i) boxes' texts coordinates
      end
  end.

(** From the value of the database to the arguments of
    [add_text_at_coordinates]. *)
Definition texts_and_coordinates (text_box_coordinates : json)
  : outcome (list string * list (gmap string Q)) :=
  (parsed <~ parse_text_box_coordinates text_box_coordinates ;;
   boxes <~ boxes_of parsed ;;
   let '(texts, coordinates) := match_boxes 0 boxes [] [] in
   if negb (nonempty coordinates) then
     Raised (Exn ValueError "No valid text box coordinates found for template")
   else Returned (texts, coordinates))%py.

End Boxes.

End TextBoxes.

(** * Vocabulary of the properties, and concrete inputs *)

Section RateLimiterVocabulary.
Import RateLimiter.

(** The four quota dimensions of a snapshot: what remains, and when the
    quota is reset. *)
Definition dimensions (info : RateLimitInfo) : list (Z * datetime) :=
  [ (requests_remaining info, requests_reset info);
    (tokens_remaining info, tokens_reset info);
    (input_tokens_remaining info, input_tokens_reset info);
    (output_tokens_remaining info, output_tokens_reset info) ].

(** The waits of the exhausted dimensions, in the order of [dimensions]. *)
Definition exhausted_waits (info : RateLimitInfo) (now : datetime) : list Q :=
  map (fun d => total_seconds (snd d - now)%Z)
      (List.filter (fun d => (fst d <=? 0)%Z) (dimensions info)).

(** A snapshot taken at [example_now]: no request is left until five
    seconds from now, and the three token quotas have 100 left. *)
Definition example_now : datetime := 1700000000000000%Z.

Definition example_info : RateLimitInfo :=
  {| requests_remaining := 0;
     requests_reset := (example_now + seconds 5)%Z;
     tokens_remaining := 100;
     tokens_reset := (example_now + seconds 60)%Z;
     input_tokens_remaining := 100;
     input_tokens_reset := (example_now + seconds 60)%Z;
     output_tokens_remaining := 100;
     output_tokens_reset := (example_now + seconds 60)%Z;
     retry_after := 0;
     timestamp := example_now |}.

(** The same snapshot read five seconds after the request quota was
    reset. *)
Definition example_info_past : RateLimitInfo :=
  {| requests_remaining := 0;
     requests_reset := (example_now - seconds 5)%Z;
     tokens_remaining := 100;
     tokens_reset := (example_now + seconds 60)%Z;
     input_tokens_remaining := 100;
     input_tokens_reset := (example_now + seconds 60)%Z;
     output_tokens_remaining := 100;
     output_tokens_reset := (example_now + seconds 60)%Z;
     retry_after := 0;
     timestamp := (example_now - seconds 65)%Z |}.

Definition example_world (info : option RateLimitInfo) : world :=
  {| most_recent_rate_limit_info := info;
     timestamp_rate_limit_info := None;
     clock := example_now;
     environ := empty;
     api_calls := [];
     sleeps := [] |}.

End RateLimiterVocabulary.

Section JsonRepairerVocabulary.
Import RateLimiter.

(** A parser that accepts the empty object only. *)
Definition example_json_loads (s : string) : outcome unit :=
  if String.eqb s "{}" then Returned tt
  else Raised (Exn JSONDecodeError "Expecting value").

Definition example_py_int (s : string) : outcome Z := Returned 0%Z.

Definition example_fromisoformat (s : string) : outcome datetime :=
  Raised (Exn ValueError "Invalid isoformat string").

(** A completion API that answers every request with one block of
    [text], and no rate-limit header. *)
Definition example_anthropic (text : string) (key : string)
    (r : api_request) (w : world) : outcome raw_response :=
  Returned {| raw_headers := empty; parsed := {| content := [text] |} |}.

(** A world where the API key is set and no snapshot is recorded. *)
Definition example_repair_world : world :=
  {| most_recent_rate_limit_info := None;
     timestamp_rate_limit_info := None;
     clock := example_now;
     environ := {[ "ANTHROPIC_API_KEY" := "sk-test" ]};
     api_calls := [];
     sleeps := [] |}.

End JsonRepairerVocabulary.

Section MemeFlowVocabulary.
Import MemeFlow.

(** The caption of box [i] in a text choice: the value under ["text<i>"]
    if that key is present, otherwise the value under ["text_<i>"] if that
    key is present, otherwise none. *)
Definition caption_for (choice : gmap string string) (i : nat)
  : option string :=
  match choice !! ("text" +:+ str_nat i) with
  | Some v => Some v
  | None => choice !! ("text_" +:+ str_nat i)
  end.

(** A text choice that uses both spellings. *)
Definition example_choice : gmap string string :=
  {[ "text1" := "TOP"; "text_2" := "BOTTOM";
     "text3" := "FIRST"; "text_3" := "SECOND" ]}.

(** The results kept by the second loop, for tasks paired with their own
    outcomes. *)
Definition kept_results (tasks : list (template * outcome text_variations))
  : list processed_result :=
  process_text_results (zip tasks (gather (map snd tasks))).

(** The seven caption columns of a row. *)
Definition row_text_boxes (r : meme_row) : list (option string) :=
  [ text_box_1 r; text_box_2 r; text_box_3 r; text_box_4 r;
    text_box_5 r; text_box_6 r; text_box_7 r ].

(** Row [new] is row [old] after the slot [m] was written to it: its
    template and seven captions are those of the slot, its image
    reference is that of the slot when the slot has one and is left as it
    was otherwise, and its other columns are left as they were. *)
Definition persisted (m : uuid_meme) (old new : meme_row) : Prop :=
  row_template_id new = Some (um_template_id m)
  /\ row_text_boxes new = um_text_boxes m
  /\ meme_cdn_url new
     = match cdn_url m with
       | Some url => Some url
       | None => meme_cdn_url old
       end
  /\ row_context new = row_context old
  /\ thumbs_up new = thumbs_up old
  /\ thumbs_down new = thumbs_down old.

(** An image reference a slot may hold after [batch_process_images]:
    none, or a string that is not empty. *)
Definition image_ref_ok (v : option string) : Prop :=
  v = None \/ truthy_opt v = true.

(** The slot that [match_uuids] builds for identifier [u] from the pool
    entry [m]. *)
Definition slot_of (u : string) (m : generated_meme) : uuid_meme :=
  {| uuid := u; um_template_id := gm_template_id m;
     um_text_boxes := gm_text_boxes m; cdn_url := None |}.

(** A slot that the update of the database can be run on: seven captions,
    and an image reference that is none or not empty. *)
Definition slot_ok (m : uuid_meme) : Prop :=
  length (um_text_boxes m) = 7%nat /\ image_ref_ok (cdn_url m).

(** A pool entry with seven captions. *)
Definition seven_boxes (m : generated_meme) : Prop :=
  length (gm_text_boxes m) = 7%nat.

(** A pool of three generated memes, seven identifiers, and their rows. *)
Definition example_pool : list generated_meme :=
  [ {| gm_template_id := 1;
       gm_text_boxes := [Some "A"; Some "B"; None; None; None; None; None] |};
    {| gm_template_id := 2;
       gm_text_boxes := [Some "C"; None; None; None; None; None; None] |};
    {| gm_template_id := 3;
       gm_text_boxes := [Some "D"; Some "E"; Some "F"; None; None; None;
                         None] |} ].

Definition example_uuids : list string :=
  ["u0"; "u1"; "u2"; "u3"; "u4"; "u5"; "u6"].

Definition example_row : meme_row :=
  {| row_template_id := None;
     text_box_1 := None; text_box_2 := None; text_box_3 := None;
     text_box_4 := None; text_box_5 := None; text_box_6 := None;
     text_box_7 := None;
     meme_cdn_url := Some "placeholder";
     row_context := Some "test";
     thumbs_up := 0; thumbs_down := 0 |}.

Definition example_table : gmap string meme_row :=
  list_to_map (map (fun u => (u, example_row)) example_uuids).

(** The images of the first template cannot be made; the others are
    uploaded under the identifier of their slot. *)
Definition example_render_and_upload (url : string) (m : uuid_meme)
  : outcome (option string) :=
  if String.eqb url "one.jpg"
  then Raised (Exn ValueError "No valid text box coordinates found")
  else Returned (Some ("https://cdn/" +:+ uuid m)).

Definition example_select_template_urls (ids : list Z)
  : outcome (list (Z * string)) :=
  Returned [(1%Z, "one.jpg"); (2%Z, "two.jpg"); (3%Z, "three.jpg")].

(** Three templates, and a text generation that fails for the second. *)
Definition example_templates : list template :=
  [ {| template_id := Some 1%Z; template_name := "drake" |};
    {| template_id := Some 2%Z; template_name := "bad" |};
    {| template_id := Some 3%Z; template_name := "doge" |} ].

Definition example_variations (t : template) : text_variations :=
  {| text_choices := Some [ {[ "text1" := template_name t ]} ] |}.

Definition example_generate_meme_texts (t : template) (g c : unit) (n : nat)
  : outcome text_variations :=
  if String.eqb (template_name t) "bad"
  then Raised (Exn ValueError "Empty response from Anthropic API")
  else Returned (example_variations t).

End MemeFlowVocabulary.

Section TextOverlayVocabulary.
Import TextOverlay.

(** The height of a bounding box. *)
Definition bbox_height (b : Z * Z * Z * Z) : Z :=
  let '(_, bb_top, _, bb_bottom) := b in (bb_bottom - bb_top)%Z.

(** The lines a state of the loop of [wrap_text] stands for: the lines
    closed so far, and the current line when it has a word. *)
Definition line_count (st : list string * list string) : nat :=
  (length (fst st) + (if nonempty (snd st) then 1 else 0))%nat.

(** A box with its four coordinates. *)
Definition well_formed (coord : gmap string Q) : Prop :=
  forallb (contains coord) coord_keys = true.

(** A caption that is empty (and skipped) or holds at least one word. *)
Definition renderable (text : string) : Prop :=
  truthy text = false \/ split text <> [].

(** An error of [add_text_at_coordinates] that names the box it was raised
    for. *)
Definition box_error (e : exn) : Prop :=
  exists i msg,
    e = Exn ValueError
          ("Invalid coordinate values for box " +:+ str_nat i +:+ ": "
             +:+ msg)
    \/ e = Exn RuntimeError
             ("Error rendering text at coordinates for box " +:+ str_nat i
                +:+ ": " +:+ msg).

(** The three errors of the validation of the arguments. *)
Definition validation_error (e : exn) : Prop :=
  e = Exn ValueError "No text box coordinates provided"
  \/ e = Exn ValueError "No text provided for text boxes"
  \/ exists n m,
       e = Exn ValueError
             ("Mismatch between number of texts (" +:+ str_nat n
                +:+ ") and coordinates (" +:+ str_nat m +:+ ")").

(** The size a font is rendered at; the built-in font of
    [ImageFont.load_default()] is taken at 10. *)
Definition font_size (f : font) : Z :=
  match f with
  | truetype _ size => size
  | load_default => 10%Z
  end.

(** A monospace metric: every character is as wide and every line as high
    as the size of the font. *)
Definition mono_textbbox (f : font) (s : string) : Z * Z * Z * Z :=
  (0, 0, font_size f * Z.of_nat (String.length s), font_size f)%Z.

(** An overlay on a 500 by 500 image, with and without the Impact font. *)
Definition example_overlay (path : option string) : overlay :=
  {| width := 500; height := 500; debug_boxes := false; font_path := path |}.

Definition example_coord : gmap string Q :=
  {[ "x" := 10%Q; "y" := 10%Q; "width" := 50%Q; "height" := 20%Q ]}.

(** The font [calculate_optimal_font] chooses for a caption in a box, the
    search starting at [MAX_FONT_SIZE]. *)
Definition chosen_font (textbbox : font -> string -> Z * Z * Z * Z)
    (self : overlay) (text : string) (box_width box_height : Z) : font :=
  fst (fst (calculate_optimal_font textbbox self text box_width box_height
              MAX_FONT_SIZE)).

(** The heights of wrapped lines, added up, and the height of the last
    line (0 when there is no line). *)
Definition lines_height (textbbox : font -> string -> Z * Z * Z * Z)
    (f : font) (lines : list string) : Z :=
  fold_right (fun line total => (bbox_height (textbbox f line) + total)%Z)
    0%Z lines.

Definition last_line_height (textbbox : font -> string -> Z * Z * Z * Z)
    (f : font) (lines : list string) : Z :=
  match last lines with
  | Some line => bbox_height (textbbox f line)
  | None => 0%Z
  end.

(** The height of wrapped lines with their spacing: the heights of the
    lines, and for each gap between two lines 20% of the height of the
    last line. *)
Definition spaced_height (textbbox : font -> string -> Z * Z * Z * Z)
    (f : font) (lines : list string) : Q :=
  if (1 <? length lines)%nat then
    (inject_Z (lines_height textbbox f lines)
     + inject_Z (Z.of_nat (length lines) - 1)
       * (inject_Z (last_line_height textbbox f lines) * (2 # 10)))%Q
  else inject_Z (lines_height textbbox f lines).

(** The fit criterion, in the words of the specification: a caption fits a
    box at a size when the height of its lines, wrapped to the width of
    the box at that size, with their spacing and a safety margin of 20%,
    is at most the height of the box. *)
Definition fits_box (textbbox : font -> string -> Z * Z * Z * Z)
    (path text : string) (box_width box_height size : Z) : Prop :=
  (spaced_height textbbox (truetype path size)
     (wrap_text textbbox text box_width (truetype path size))
   * (12 # 10)
   <= inject_Z box_height)%Q.

(** The sizes that the search tries. *)
Definition tried (size : Z) : Prop :=
  (MIN_FONT_SIZE <= size <= MAX_FONT_SIZE)%Z.

(** A metric at a font gives no line a negative height: the bottom of a
    bounding box is not above its top. *)
Definition no_negative_height (textbbox : font -> string -> Z * Z * Z * Z)
    (f : font) : Prop :=
  forall line, (0 <= bbox_height (textbbox f line))%Z.

(** A metric that is out of order: every line but ["x"] has its bottom
    ten pixels above its top. *)
Definition sunk_textbbox (f : font) (s : string) : Z * Z * Z * Z :=
  (0, 0, font_size f * Z.of_nat (String.length s),
   if String.eqb s "x" then font_size f else -10)%Z.

(** The longer caption does not end on a lower line than the shorter one,
    when both are wrapped to the width of the box at a size. *)
Definition ends_no_lower (textbbox : font -> string -> Z * Z * Z * Z)
    (path short long : string) (box_width size : Z) : Prop :=
  (last_line_height textbbox (truetype path size)
     (wrap_text textbbox short box_width (truetype path size))
   <= last_line_height textbbox (truetype path size)
        (wrap_text textbbox long box_width (truetype path size)))%Z.

(** The height [calculate_optimal_font] compares with the height of the
    box, for [n] lines of height [h]: the heights of the lines, the
    spacing between them, and the safety margin. *)
Definition adjusted_height (n : nat) (h : Z) : Q :=
  ((if (1 <? n)%nat then
      (inject_Z (Z.of_nat n * h)
       + inject_Z (Z.of_nat n - 1) * (inject_Z h * (2 # 10)))%Q
    else inject_Z (Z.of_nat n * h)) * (12 # 10))%Q.

(** A metric that measures the ink, in the way of a line that holds a
    full stop only: such a line is one pixel high, every other line is as
    high as the size of the font. *)
Definition ink_textbbox (f : font) (s : string) : Z * Z * Z * Z :=
  (0, 0, font_size f * Z.of_nat (String.length s),
   if String.eqb s "." then 1 else font_size f)%Z.

End TextOverlayVocabulary.

Section Binary64Vocabulary.
Import PrimFloat.

(** [float(n)] for a small non-negative integer. *)
Definition float_of_int (n : Z) : float := of_uint63 (Uint63.of_Z n).

(** [adjusted_height] as Python computes it, in binary64. *)
Definition adjusted_height_binary64 (n : nat) (h : Z) : float :=
  ((if (1 <? n)%nat then
      float_of_int (Z.of_nat n * h)
      + float_of_int (Z.of_nat n - 1)
        * (float_of_int h * 0x1.999999999999ap-3)
    else float_of_int (Z.of_nat n * h)) * 0x1.3333333333333p+0)%float.

(** The test of [calculate_optimal_font] on [n] lines of height [h] gives
    the same answer with rationals and in binary64. *)
Definition same_answer (n : nat) (h box_height : Z) : bool :=
  Bool.eqb (Qle_bool (adjusted_height n h) (inject_Z box_height))
           (leb (adjusted_height_binary64 n h) (float_of_int box_height)).

End Binary64Vocabulary.

Section WrapVocabulary.
Import TextOverlay.

(** The width [wrap_text] measures a line at. *)
Definition line_width (textbbox : font -> string -> Z * Z * Z * Z)
    (f : font) (line : string) : Z :=
  let '(bb_left, _, bb_right, _) := textbbox f line in (bb_right - bb_left)%Z.

(** A string without a whitespace character. *)
Fixpoint no_space (s : string) : bool :=
  match s with
  | EmptyString => true
  | String c s' => negb (isspace c) && no_space s'
  end.

(** A word as [str.split] produces them: not empty, and without
    whitespace. *)
Definition is_word (s : string) : bool := truthy s && no_space s.

(** The words of the lines of a wrapped caption. *)
Definition words_of_lines (lines : list string) : list string :=
  flat_map split lines.

(** What the loop of [wrap_text] keeps true, [done] being the words read:
    the closed lines are the joins of groups of words, the groups and the
    current line hold the words read in order, a line that holds more than
    one word fits, and the word after a line did not fit on it. *)
Definition wrap_inv (textbbox : font -> string -> Z * Z * Z * Z)
    (max_width : Z) (f : font) (done : list string)
    (st : list string * list string) : Prop :=
  exists groups,
    fst st = map (join " ") groups
    /\ concat groups ++ snd st = done
    /\ Forall (fun g => g <> []) groups
    /\ (snd st = [] -> groups = [])
    /\ Forall (fun g =>
                 (line_width textbbox f (join " " g) <= max_width)%Z
                 \/ length g = 1%nat)
         (groups ++ (if nonempty (snd st) then [snd st] else []))
    /\ (forall i g g' w,
          (groups ++ [snd st]) !! i = Some g ->
          (groups ++ [snd st]) !! S i = Some g' ->
          head g' = Some w ->
          (max_width < line_width textbbox f (join " " (g ++ [w])))%Z).

End WrapVocabulary.

Section RequestVocabulary.
Import RateLimiter.

(** The headers [from_headers] reads the remaining quotas from. *)
Definition remaining_headers : list string :=
  [ "anthropic-ratelimit-requests-remaining";
    "anthropic-ratelimit-tokens-remaining";
    "anthropic-ratelimit-input-tokens-remaining";
    "anthropic-ratelimit-output-tokens-remaining" ].

(** All the headers [from_headers] reads. *)
Definition rate_limit_headers : list string :=
  remaining_headers
  ++ [ "anthropic-ratelimit-requests-reset";
       "anthropic-ratelimit-tokens-reset";
       "anthropic-ratelimit-input-tokens-reset";
       "anthropic-ratelimit-output-tokens-reset";
       "retry-after" ].

(** A completion API that fails with [e] on every request. *)
Definition failing_client (e : exn) (r : api_request) (w : world)
  : outcome raw_response := Raised e.

(** An [int] that reads 100 from every string. *)
Definition example_py_int_100 (s : string) : outcome Z := Returned 100%Z.

(** Headers with the four remaining quotas and no reset time. *)
Definition example_headers : headers :=
  {[ "anthropic-ratelimit-requests-remaining" := "100";
     "anthropic-ratelimit-tokens-remaining" := "100";
     "anthropic-ratelimit-input-tokens-remaining" := "100";
     "anthropic-ratelimit-output-tokens-remaining" := "100" ]}.

End RequestVocabulary.

Section ImagesVocabulary.
Import MemeFlow.

(** What [batch_process_images] makes of one slot: the slot of a template
    with an image gets the result of [process_meme_image] as its image
    reference ([None] when the task raised); the slot of a template without
    an image is left as it is. *)
Definition processed_slot
    (render_and_upload : string -> uuid_meme -> outcome (option string))
    (template_urls : gmap Z string) (meme : uuid_meme) : uuid_meme :=
  match template_urls !! um_template_id meme with
  | Some template_image_url =>
      if truthy template_image_url then
        match process_meme_image render_and_upload template_image_url meme
        with
        | Returned v => set_cdn_url v meme
        | Raised _ => set_cdn_url None meme
        end
      else meme
  | None => meme
  end.

(** The columns of a row that the flow never writes. *)
Definition kept_columns (old new : meme_row) : Prop :=
  row_context new = row_context old
  /\ thumbs_up new = thumbs_up old
  /\ thumbs_down new = thumbs_down old.

(** What a run of the update of the database may do to the table, for
    identifiers [ids] spelled as the table spells them: rows are neither
    added nor removed, a row of an identifier outside [ids] is left as it
    was, and no row loses its context or its votes. *)
Definition rows_kept (ids : list string) (table table' : memes_table)
  : Prop :=
  (forall u, is_Some (table' !! u) <-> is_Some (table !! u))
  /\ (forall u, ~ In u ids -> table' !! u = table !! u)
  /\ (forall u old new,
        table !! u = Some old -> table' !! u = Some new ->
        kept_columns old new).

End ImagesVocabulary.

Section RenderVocabulary.
Import TextOverlay.

(** The texts drawn with the fill colour [fill], oldest first, each with
    its position and its font. *)
Definition texts_drawn (fill : string) (c : list draw_op)
  : list (Q * Q * string * font) :=
  flat_map
    (fun op =>
       match op with
       | draw_text x y s f fill' =>
           if String.eqb fill' fill then [(x, y, s, f)] else []
       | draw_rectangle _ _ _ _ _ _ => []
       end)
    c.

(** The fill colours of the texts drawn, oldest first. *)
Definition fills (c : list draw_op) : list string :=
  flat_map
    (fun op =>
       match op with
       | draw_text _ _ _ _ fill => [fill]
       | draw_rectangle _ _ _ _ _ _ => []
       end)
    c.

(** Line [k] of a caption is drawn at [(x, y + k * pitch)] with font [f]. *)
Definition placed_at (x y pitch : Q) (f : font)
    (drawn : Q * Q * string * font) (line : nat * string) : Prop :=
  let '(dx, dy, s, f') := drawn in
  (dx == x)%Q
  /\ (dy == y + inject_Z (Z.of_nat (fst line)) * pitch)%Q
  /\ s = snd line
  /\ f' = f.

End RenderVocabulary.

Section TimingVocabulary.
Import TimingStats.

(** A call of [start] or of [end] on a [TimingStats] object, with the
    reading of the clock it makes. *)
Inductive timing_call :=
  | call_start (operation_name : string) (now : Q)
  | call_end (operation_name : string) (now : Q).

Definition run_call (self : t) (c : timing_call) : t :=
  match c with
  | call_start op now => start op now self
  | call_end op now => snd (end_ op now self)
  end.

(** The object after a sequence of calls on a new object. *)
Definition run_calls (calls : list timing_call) : t :=
  fold_left run_call calls __init__.

(** The clock reading of the last [start] of an operation among the
    calls. *)
Definition last_start (operation_name : string) (calls : list timing_call)
  : option Q :=
  fold_left
    (fun acc c =>
       match c with
       | call_start op now =>
           if String.eqb op operation_name then Some now else acc
       | call_end _ _ => acc
       end)
    calls None.

(** What an entry of the summary says of the durations it is made of. *)
Definition summarizes (times : list Q) (entry : stats) : Prop :=
  count entry = length times
  /\ (1 <= count entry)%nat
  /\ total entry = sum times
  /\ average entry = (sum times / inject_Z (Z.of_nat (length times)))%Q
  /\ In (minimum entry) times
  /\ In (maximum entry) times
  /\ Forall (fun d => (minimum entry <= d <= maximum entry)%Q) times.

(** The durations that the calls record for an operation, oldest first:
    one for each [end] that comes after a [start] of the operation, counted
    from the last such [start]. *)
Fixpoint durations_from (started : option Q) (operation_name : string)
    (calls : list timing_call) : list Q :=
  match calls with
  | [] => []
  | call_start op now :: calls =>
      durations_from
        (if String.eqb op operation_name then Some now else started)
        operation_name calls
  | call_end op now :: calls =>
      match (if String.eqb op operation_name then started else None) with
      | Some t => (now - t)%Q :: durations_from started operation_name calls
      | None => durations_from started operation_name calls
      end
  end.

Definition durations (operation_name : string) (calls : list timing_call)
  : list Q :=
  durations_from None operation_name calls.

End TimingVocabulary.

Section UploadVocabulary.
Import S3Uploader.

(** The lengths of the sleeps among the events, oldest first. *)
Definition slept_seconds (evs : list event) : list Z :=
  flat_map
    (fun ev => match ev with time_sleep s => [s] | _ => [] end) evs.

(** A put that returned. *)
Definition put_returned (ev : event) : bool :=
  match ev with
  | resource_put_object _ _ _ returned
  | client_put_object _ _ _ returned => returned
  | time_sleep _ => false
  end.

(** The puts that returned, among the events. *)
Definition puts_returned (evs : list event) : list event :=
  List.filter put_returned evs.

(** The puts among the events: the bucket and the key of each. *)
Definition puts (evs : list event) : list (string * string) :=
  flat_map
    (fun ev =>
       match ev with
       | resource_put_object bucket key _ _
       | client_put_object bucket key _ _ => [(bucket, key)]
       | time_sleep _ => []
       end)
    evs.

(** The key [upload_image] stores the image of an identifier under, and
    the address it returns for it. *)
Definition object_key (uuid_str : string) : string :=
  "meme_instances/" +:+ uuid_str +:+ ".jpg".

Definition object_url (base uuid_str : string) : string :=
  base +:+ "/" +:+ object_key uuid_str.

(** The sleeps of a run whose first attempt has the number [first] and
    that sleeps [count] times: the delay, doubled each time. *)
Definition backoff (delay : Z) (first count : nat) : list Z :=
  map (fun attempt => (delay * 2 ^ Z.of_nat attempt)%Z) (seq first count).

(** The environment of a deployment with its two keys. *)
Definition example_environ : gmap string string :=
  {[ "DO_SPACES_KEY" := "key"; "DO_SPACES_SECRET" := "secret";
     "CDN_BASE_URL" := "https://memes.supertech.ai" ]}.

(** The uploader of that deployment. *)
Definition example_uploader : uploader :=
  {| endpoint_url := "https://nyc3.digitaloceanspaces.com";
     access_key := Some "key";
     secret_key := Some "secret";
     bucket_name := "memulacra";
     cdn_base_url := "https://memulacra.nyc3.digitaloceanspaces.com";
     max_retries := 3;
     retry_delay := 1 |}.

(** An outside where [boto3] and [image.save] work, the resource refuses
    every put, and the client refuses the puts made before the first
    sleep. *)
Definition example_boto3 (endpoint access secret : string) : outcome unit :=
  Returned tt.

Definition example_image_save (img : unit) (w : list event)
  : outcome bytes :=
  Returned [].

Definition example_resource_put (bucket key : string) (body : bytes)
    (w : list event) : outcome unit :=
  Raised (Exn OtherError "An error occurred (403)").

Definition example_client_put (bucket key : string) (body : bytes)
    (w : list event) : outcome unit :=
  if nonempty (slept_seconds w) then Returned tt
  else Raised (Exn OtherError "An error occurred (503)").

End UploadVocabulary.

Section GoalVocabulary.
Import RateLimiter GoalGeneration.

(** The number of requests sent to the completion API so far. *)
Definition requests_sent (s : state) : nat := length (api_calls (the_world s)).

(** The durations recorded for an operation, if a [TimingStats] object was
    given. *)
Definition recorded (operation_name : string) (s : state) : list Q :=
  match timing s with
  | Some t => default [] (TimingStats.timings t !! operation_name)
  | None => []
  end.

(** A state with the API key set, no snapshot recorded, and a new
    [TimingStats] object. *)
Definition example_goal_state : state :=
  {| the_world := example_repair_world;
     timing := Some TimingStats.__init__ |}.

Definition example_len_meme_goals (goals : unit) : outcome Z := Returned 0%Z.

Definition example_format_prompt (context : string) (num_goals : Z)
  : string :=
  context.

End GoalVocabulary.

Section VerificationVocabulary.
Import MemeFlow Verification.

(** A database that takes every text as the identifier it denotes. *)
Definition example_cast_uuid (s : string) : outcome string := Returned s.

Definition example_format_set (missing : gset string) : string :=
  if bool_decide (missing = ∅) then "set()" else "{...}".

End VerificationVocabulary.

Section InitVocabulary.
Import TextOverlay TextOverlayInit.

(** The paths [__init__] looks for the font at, in order. *)
Definition font_candidates (bundled_font_path : string) : list string :=
  bundled_font_path :: system_font_path :: alt_paths.

(** A fetch that ended with a [RequestException]. *)
Definition request_failed (r : fetch_result) : Prop :=
  exists message, r = request_exception message.

(** A server that answers in time only to the most patient request, and a
    machine with the font of the project. *)
Definition example_fetch (url : string) (timeout : Z * Z) : fetch_result :=
  if (fst timeout <? 30)%Z then request_exception "Read timed out."
  else fetched 500 400.

(** A server that is down. *)
Definition example_fetch_down (url : string) (timeout : Z * Z)
  : fetch_result :=
  request_exception "Connection refused".

(** Images that load, and images that are cut short. *)
Definition example_image_draw (url : string) (timeout : Z * Z)
  : outcome unit :=
  Returned tt.

Definition example_image_draw_truncated (url : string) (timeout : Z * Z)
  : outcome unit :=
  Raised (Exn OtherError "image file is truncated").

Definition example_path_exists (path : string) : bool :=
  String.eqb path "/app/fonts/impact.ttf".

End InitVocabulary.

Section TextBoxesVocabulary.
Import TextBoxes.

(** A JSON number, and its value. *)
Definition number (v : json) (q : Q) : Prop :=
  match v with
  | JInt n => q = inject_Z n
  | JFloat x => q = x
  | _ => False
  end.

(** The value of a numeric field of an object, [dflt] when the object has
    no such field. *)
Definition field_or (d : list (string * json)) (key : string) (dflt q : Q)
  : Prop :=
  match get d key with
  | Some v => number v q
  | None => q = dflt
  end.

(** A JSON value that is neither a list nor an object. *)
Definition is_scalar (v : json) : bool :=
  match v with
  | JList _ | JDict _ => false
  | _ => true
  end.

(** The caption that the identifier [k] of a box selects, with the
    coordinates of the box: none when [k] is not the number of a
    caption. *)
Definition caption_of_id (text_boxes : list (option string)) (k : Z)
    (box_coords : gmap string Q) : option (string * gmap string Q) :=
  if (1 <=? k)%Z && (k <=? Z.of_nat (length text_boxes))%Z
  then Some (caption_or_empty (text_boxes !! Z.to_nat (k - 1)), box_coords)
  else None.

(** The captions of the first [n] positions. *)
Definition first_captions (text_boxes : list (option string)) (n : nat)
  : list string :=
  map (fun k => caption_or_empty (text_boxes !! k)) (seq 0 n).

(** Parsers of decimal digits only, and one that accepts nothing. *)
Definition example_float_of_str (s : string) : outcome Q :=
  Raised (Exn ValueError ("could not convert string to float: " +:+ s)).

Definition example_int_of_str (s : string) : outcome Z :=
  Raised (Exn ValueError
            ("invalid literal for int() with base 10: " +:+ s)).

Definition example_loads (s : string) : outcome json :=
  Raised (Exn JSONDecodeError "Expecting value").

Definition example_text_boxes : list (option string) :=
  [Some "top"; Some "bottom"; None; None; None; None; None].

Definition example_box : list (string * json) :=
  [("id", JInt 2); ("x", JInt 10); ("y", JFloat (11 # 2));
   ("width", JInt 80)].

End TextBoxesVocabulary.

(** * Properties *)

(** ** The model on small inputs *)

Section Examples.
Import RateLimiter TextOverlay MemeFlow.

Example split_example : split "  TOP   text " = ["TOP"; "text"].
Proof. reflexivity. Qed.

Example split_blank_example : split "   " = [].
Proof. reflexivity. Qed.

Example strip_example : strip (" {} " +:+ nl) = "{}".
Proof. reflexivity. Qed.

Example join_example : join " " ["a"; "b"; "c"] = "a b c".
Proof. reflexivity. Qed.

Example range_down_example : range_down 12 9 = [12; 11; 10]%Z.
Proof. reflexivity. Qed.

Example max_list_example : max_list (-5) [3; 3; -7]%Q = 3%Q.
Proof. reflexivity. Qed.

Example int_of_float_example : int_of_float (-(7 # 2)) = (-3)%Z.
Proof. reflexivity. Qed.

Example should_wait_example :
  should_wait example_info example_now = (true, Qmake 5000000 1000000).
Proof. reflexivity. Qed.

Example wrap_text_example :
  wrap_text mono_textbbox "a b c d e f" 100 (truetype "fonts/impact.ttf" 10)
  = ["a b c d e"; "f"].
Proof. vm_compute. reflexivity. Qed.

Example try_font_size_12 :
  try_font_size mono_textbbox "fonts/impact.ttf" "a" 100 15 12
  = Some (truetype "fonts/impact.ttf" 12, ["a"], inject_Z 12).
Proof. vm_compute. reflexivity. Qed.

Example try_font_size_13 :
  try_font_size mono_textbbox "fonts/impact.ttf" "a" 100 15 13 = None.
Proof. vm_compute. reflexivity. Qed.

Example outline_offsets_length : length outline_offsets = 49%nat.
Proof. reflexivity. Qed.

Example text_choice_to_boxes_example :
  text_choice_to_boxes example_choice
  = [Some "TOP"; Some "BOTTOM"; Some "FIRST"; None; None; None; None].
Proof. vm_compute. reflexivity. Qed.

Example match_uuids_example :
  match_uuids 0 ["u0"; "u1"; "u2"; "u3"] example_pool
  = Returned (zip_with slot_of ["u0"; "u1"; "u2"; "u3"]
                (example_pool ++ take 1 example_pool)).
Proof. reflexivity. Qed.

Example match_uuids_empty_pool :
  match_uuids 0 ["u0"] []
  = Raised (Exn ZeroDivisionError "integer modulo by zero").
Proof. reflexivity. Qed.

(** At every size tried, for the captions of the examples in a box 100 wide
    and 15 high (monospace metric), and for two lines of the height of the
    size in a box 50 high, the test of the height has the same answer in
    binary64 as with rationals. *)
Lemma binary64_agrees :
  forallb
    (fun size =>
       forallb
         (fun text =>
            same_answer
              (length (wrap_text mono_textbbox text 100
                         (truetype "fonts/impact.ttf" size)))
              size 15)
         ["a"; "a b"; "a b c d e f"]
       && same_answer 2 size 50)
    (range_down MAX_FONT_SIZE (MIN_FONT_SIZE - 1))
  = true.
Proof. vm_compute. reflexivity. Qed.

End Examples.

(** ** Python basics *)

Lemma Qlt_bool_true (a b : Q) : Qlt_bool a b = true <-> (a < b)%Q.
Proof.
  unfold Qlt_bool. rewrite negb_true_iff. split.
  - intros H. apply Qnot_le_lt. intros Hle.
    apply Qle_bool_iff in Hle. congruence.
  - intros H. destruct (Qle_bool b a) eqn:E; [|reflexivity].
    apply Qle_bool_iff in E. exfalso. exact (Qlt_not_le _ _ H E).
Qed.

Lemma Qlt_bool_false (a b : Q) : Qlt_bool a b = false <-> (b <= a)%Q.
Proof.
  unfold Qlt_bool. rewrite negb_false_iff. apply Qle_bool_iff.
Qed.

Lemma max2_cases (a b : Q) :
  (max2 a b = b /\ (a < b)%Q) \/ (max2 a b = a /\ (b <= a)%Q).
Proof.
  unfold max2. destruct (Qlt_bool a b) eqn:E.
  - left. split; [reflexivity|]. by apply Qlt_bool_true.
  - right. split; [reflexivity|]. by apply Qlt_bool_false.
Qed.

Lemma max2_ge_l (a b : Q) : (a <= max2 a b)%Q.
Proof.
  destruct (max2_cases a b) as [[-> H]|[-> H]].
  - by apply Qlt_le_weak.
  - apply Qle_refl.
Qed.

Lemma max2_ge_r (a b : Q) : (b <= max2 a b)%Q.
Proof.
  destruct (max2_cases a b) as [[-> H]|[-> H]].
  - apply Qle_refl.
  - exact H.
Qed.

Lemma max_list_ge_init (l : list Q) (x : Q) : (x <= max_list x l)%Q.
Proof.
  unfold max_list. revert x.
  induction l as [|y l IH]; intros x; simpl.
  - apply Qle_refl.
  - eapply Qle_trans; [apply (max2_ge_l x y)|apply IH].
Qed.

Lemma max_list_ge_elem (l : list Q) (x y : Q) :
  In y l -> (y <= max_list x l)%Q.
Proof.
  unfold max_list. revert x.
  induction l as [|z l IH]; intros x Hin; simpl in *; [contradiction|].
  destruct Hin as [->|Hin].
  - eapply Qle_trans; [apply (max2_ge_r x y)|].
    apply (max_list_ge_init l (max2 x y)).
  - by apply IH.
Qed.

Lemma max_list_in (l : list Q) (x : Q) : In (max_list x l) (x :: l).
Proof.
  unfold max_list. revert x.
  induction l as [|z l IH]; intros x; simpl.
  - by left.
  - destruct (IH (max2 x z)) as [H|H].
    + rewrite <- H.
      destruct (max2_cases x z) as [[-> _]|[-> _]]; [right; by left|by left].
    + right. by right.
Qed.

(** ** The rate limiter *)

Section RateLimiterProperties.
Import RateLimiter.

Lemma should_wait_unfold (info : RateLimitInfo) (now : datetime) :
  should_wait info now =
  match exhausted_waits info now with
  | x :: xs => (true, max2 0 (max_list x xs))
  | [] => (false, 0%Q)
  end.
Proof.
  unfold should_wait, exhausted_waits, dimensions. simpl.
  destruct (requests_remaining info <=? 0)%Z,
           (tokens_remaining info <=? 0)%Z,
           (input_tokens_remaining info <=? 0)%Z,
           (output_tokens_remaining info <=? 0)%Z; reflexivity.
Qed.

Lemma exhausted_waits_in (info : RateLimitInfo) (now : datetime) (x : Q) :
  In x (exhausted_waits info now) <->
  exists d, In d (dimensions info) /\ (fst d <= 0)%Z
            /\ x = total_seconds (snd d - now)%Z.
Proof.
  unfold exhausted_waits. rewrite in_map_iff. split.
  - intros (d & <- & Hd). apply filter_In in Hd as [Hd Hle].
    exists d. split; [exact Hd|]. split; [by apply Z.leb_le|reflexivity].
  - intros (d & Hd & Hle & ->). exists d. split; [reflexivity|].
    apply filter_In. split; [exact Hd|by apply Z.leb_le].
Qed.

Lemma total_seconds_le (a b : timedelta) :
  (a <= b)%Z -> (total_seconds a <= total_seconds b)%Q.
Proof. intros H. unfold total_seconds, Qle. simpl. lia. Qed.

(** The wait [should_wait] reports when some dimension is exhausted. *)
Lemma should_wait_exhausted (info : RateLimitInfo) (now : datetime) :
  (exists d, In d (dimensions info) /\ (fst d <= 0)%Z) ->
  exists t,
    should_wait info now = (true, t)
    /\ (0 <= t)%Q
    /\ (forall d, In d (dimensions info) -> (fst d <= 0)%Z ->
                  (total_seconds (snd d - now)%Z <= t)%Q)
    /\ (t = 0%Q
        \/ exists d, In d (dimensions info) /\ (fst d <= 0)%Z
                     /\ t = total_seconds (snd d - now)%Z).
Proof.
  intros (d0 & Hd0 & Hle0). rewrite should_wait_unfold.
  assert (Hin0 : In (total_seconds (snd d0 - now)%Z) (exhausted_waits info now))
    by (apply exhausted_waits_in; eauto).
  destruct (exhausted_waits info now) as [|x xs] eqn:E; [contradiction|].
  exists (max2 0 (max_list x xs)). split; [reflexivity|].
  split; [apply max2_ge_l|]. split.
  - intros d Hd Hle.
    assert (Hin : In (total_seconds (snd d - now)%Z) (x :: xs)).
    { rewrite <- E. apply exhausted_waits_in. eauto. }
    eapply Qle_trans; [|apply max2_ge_r].
    destruct Hin as [<-|Hin];
      [apply max_list_ge_init|by apply max_list_ge_elem].
  - destruct (max2_cases 0 (max_list x xs)) as [[-> _]|[-> _]]; [|by left].
    right. apply exhausted_waits_in. rewrite E. apply max_list_in.
Qed.

Lemma should_wait_not_exhausted (info : RateLimitInfo) (now : datetime) :
  (forall d, In d (dimensions info) -> (0 < fst d)%Z) ->
  should_wait info now = (false, 0%Q).
Proof.
  intros H. rewrite should_wait_unfold.
  destruct (exhausted_waits info now) as [|x xs] eqn:E; [reflexivity|].
  assert (Hin : In x (exhausted_waits info now)) by (rewrite E; by left).
  apply exhausted_waits_in in Hin as (d & Hd & Hle & _).
  specialize (H d Hd). lia.
Qed.

Lemma should_wait_nonneg (info : RateLimitInfo) (now : datetime) :
  (0 <= snd (should_wait info now))%Q.
Proof.
  rewrite should_wait_unfold.
  destruct (exhausted_waits info now); simpl;
    [apply Qle_refl|apply max2_ge_l].
Qed.

Lemma should_wait_past (info : RateLimitInfo) (now : datetime) :
  (forall d, In d (dimensions info) -> (fst d <= 0)%Z -> (snd d <= now)%Z) ->
  snd (should_wait info now) = 0%Q.
Proof.
  intros H. rewrite should_wait_unfold.
  destruct (exhausted_waits info now) as [|x xs] eqn:E; [reflexivity|].
  simpl. destruct (max2_cases 0 (max_list x xs)) as [[_ Hlt]|[-> _]];
    [|reflexivity].
  exfalso.
  assert (Hin : In (max_list x xs) (exhausted_waits info now))
    by (rewrite E; apply max_list_in).
  apply exhausted_waits_in in Hin as (d & Hd & Hle & Heq).
  specialize (H d Hd Hle). rewrite Heq in Hlt.
  unfold total_seconds, Qlt in Hlt. simpl in Hlt. lia.
Qed.

End RateLimiterProperties.

Section RateLimiterClaims.
Import RateLimiter.

(** C5 (amended). For every recorded snapshot in which at least one of the
    four quota dimensions is at or below zero, the pre-call check reports
    that the caller must wait, and the wait is the larger of zero and the
    maximum over the exhausted dimensions of (reset time minus now): it is
    not negative, it is at least the wait of every exhausted dimension, and
    it is zero or the wait of one of them. When no dimension is at or below
    zero, no wait is reported. For a snapshot with no request left and the
    request reset five seconds from now, the wait is at least five
    seconds. *)
Theorem should_wait_global_max_exhausted (w : world) (info : RateLimitInfo) :
  most_recent_rate_limit_info w = Some info ->
  ((exists d, In d (dimensions info) /\ (fst d <= 0)%Z) ->
   exists t,
     should_wait_global w = (true, t)
     /\ (0 <= t)%Q
     /\ (forall d, In d (dimensions info) -> (fst d <= 0)%Z ->
                   (total_seconds (snd d - clock w)%Z <= t)%Q)
     /\ (t = 0%Q
         \/ exists d, In d (dimensions info) /\ (fst d <= 0)%Z
                      /\ t = total_seconds (snd d - clock w)%Z))
  /\ ((forall d, In d (dimensions info) -> (0 < fst d)%Z) ->
      should_wait_global w = (false, 0%Q))
  /\ ((requests_remaining info <= 0)%Z ->
      requests_reset info = (clock w + seconds 5)%Z ->
      exists t, should_wait_global w = (true, t) /\ (5 <= t)%Q).
Proof.
  intros Hinfo. unfold should_wait_global. rewrite Hinfo.
  split; [apply should_wait_exhausted|].
  split; [apply should_wait_not_exhausted|].
  intros Hle Hreset.
  destruct (should_wait_exhausted info (clock w)) as (t & Heq & _ & Hub & _).
  { exists (requests_remaining info, requests_reset info).
    split; [by left|exact Hle]. }
  exists t. split; [exact Heq|].
  eapply Qle_trans;
    [|apply (Hub (requests_remaining info, requests_reset info));
      [by left|exact Hle]].
  simpl. rewrite Hreset. unfold total_seconds, seconds, Qle. simpl. lia.
Qed.

Lemma should_wait_global_max_exhausted_witness :
  exists t,
    should_wait_global (example_world (Some example_info)) = (true, t)
    /\ (5 <= t)%Q.
Proof.
  destruct (should_wait_global_max_exhausted
              (example_world (Some example_info)) example_info eq_refl)
    as (_ & _ & H).
  apply H.
  - simpl. lia.
  - reflexivity.
Defined.

(** C5 as stated fails: with no request left and the request reset five
    seconds in the past, the check reports a wait of zero, while the
    maximum over the exhausted dimensions of (reset time minus now) is
    minus five seconds. *)
Lemma should_wait_global_clamps :
  should_wait_global (example_world (Some example_info_past)) = (true, 0%Q)
  /\ exhausted_waits example_info_past example_now
     = [total_seconds (seconds (-5))]
  /\ (total_seconds (seconds (-5)) < 0)%Q.
Proof.
  split; [reflexivity|]. split; [reflexivity|].
  unfold total_seconds, seconds, Qlt. simpl. lia.
Qed.

(** C10. The wait the pre-call check reports is never negative; when the
    reset time of every exhausted dimension lies in the past (or is now),
    the wait is zero; and when no snapshot has been recorded, the check
    reports no wait. *)
Theorem should_wait_global_nonnegative (w : world) :
  (0 <= snd (should_wait_global w))%Q
  /\ (forall info,
        most_recent_rate_limit_info w = Some info ->
        (forall d, In d (dimensions info) -> (fst d <= 0)%Z ->
                   (snd d <= clock w)%Z) ->
        snd (should_wait_global w) = 0%Q)
  /\ (most_recent_rate_limit_info w = None ->
      should_wait_global w = (false, 0%Q)).
Proof.
  unfold should_wait_global. split; [|split].
  - destruct (most_recent_rate_limit_info w);
      [apply should_wait_nonneg|apply Qle_refl].
  - intros info -> H. by apply should_wait_past.
  - by intros ->.
Qed.

Lemma should_wait_global_nonnegative_witness :
  snd (should_wait_global (example_world (Some example_info_past))) = 0%Q
  /\ should_wait_global (example_world None) = (false, 0%Q).
Proof.
  split.
  - apply (proj1 (proj2 (should_wait_global_nonnegative
                           (example_world (Some example_info_past))))
             example_info_past eq_refl).
    intros d Hd Hle. simpl in Hd.
    destruct Hd as [<-|[<-|[<-|[<-|[]]]]];
      cbn [fst snd clock example_world] in *;
      unfold example_now, seconds in *; lia.
  - apply (proj2 (proj2 (should_wait_global_nonnegative (example_world None)))).
    reflexivity.
Defined.

End RateLimiterClaims.

(** ** The JSON repairer *)

(** Unfolding of the monadic operations and of the effects of the world. *)
Ltac py_unfold :=
  cbv beta iota zeta delta
    [bind ret raise lift gets modify try_except obind
     RateLimiter.getenv RateLimiter.messages_create
     RateLimiter.update_anthropic_response RateLimiter.asyncio_sleep].

Section JsonRepairerProperties.
Import RateLimiter JsonRepairer.

Variable json : Type.
Variable json_loads : string -> outcome json.
Variable py_int : string -> outcome Z.
Variable fromisoformat : string -> outcome datetime.
Variable anthropic : string -> api_request -> world -> outcome raw_response.

(** A call of [make_anthropic_request] sends one request, whatever it ends
    with, and leaves the environment as it was. *)
Lemma make_anthropic_request_one_call
    (client : api_request -> world -> outcome raw_response)
    (system_prompt user_prompt : string) (max_tokens : Z) (temperature : Q)
    (messages : option (list (string * string))) (w : world) :
  let w' := snd (make_anthropic_request py_int fromisoformat client
                   system_prompt user_prompt max_tokens temperature
                   messages w) in
  length (api_calls w') = S (length (api_calls w))
  /\ environ w' = environ w.
Proof.
  unfold make_anthropic_request.
  destruct (should_wait_global w) as [must_wait t].
  destruct must_wait; py_unfold;
    (match goal with
     | |- context [client ?r ?w0] => destruct (client r w0)
     end; py_unfold;
     try match goal with
         | |- context [from_headers ?a ?b ?c ?d] =>
             destruct (from_headers a b c d)
         end; py_unfold);
    simpl; rewrite ?length_app; simpl; split; (lia || reflexivity).
Qed.

(** C8. The repair operation sends at most one request to the completion
    client; a text it returns parses; every failure is a [ValueError] (the
    repair error); and when the request is answered, the stripped text of
    the first content block is returned if it parses, and the operation
    fails with the repair error if it does not. *)
Theorem repair_json_one_attempt (system_prompt broken_json : string)
    (w : world) :
  let run :=
    repair_json json json_loads py_int fromisoformat anthropic
      system_prompt broken_json w in
  (length (api_calls (snd run)) <= S (length (api_calls w)))%nat
  /\ (forall s, fst run = Returned s -> exists v, json_loads s = Returned v)
  /\ (forall e, fst run = Raised e -> exn_cls e = ValueError)
  /\ (forall key response w1 first rest,
        environ w !! "ANTHROPIC_API_KEY" = Some key ->
        truthy key = true ->
        make_anthropic_request py_int fromisoformat (anthropic key)
          system_prompt (repair_user_prompt broken_json) 1000 (1 # 10) None w
        = (Returned response, w1) ->
        content response = first :: rest ->
        match json_loads (strip first) with
        | Returned _ => fst run = Returned (strip first)
        | Raised e =>
            fst run
            = Raised (Exn ValueError
                        ("Failed to repair JSON: "
                           +:+ (if is_JSONDecodeError e
                                then "Claude API returned invalid JSON"
                                else exn_str e)))
        end).
Proof.
  cbv zeta. unfold repair_json. py_unfold.
  destruct (environ w !! "ANTHROPIC_API_KEY") as [key|] eqn:Hkey;
    cbn [truthy_opt negb default from_option id];
    [destruct (truthy key) eqn:Htruthy; cbn [negb]|].
  2,3: cbn [fst snd]; repeat split; intros; simplify_eq;
       try lia; try congruence; reflexivity.
  pose proof (make_anthropic_request_one_call (anthropic key) system_prompt
                (repair_user_prompt broken_json) 1000 (1 # 10) None w)
    as [Hlen _].
  cbv zeta in Hlen.
  destruct (make_anthropic_request py_int fromisoformat (anthropic key)
              system_prompt (repair_user_prompt broken_json) 1000 (1 # 10)
              None w) as [[response|e] w1] eqn:Hreq;
    cbn [fst snd] in *.
  2: { repeat split; intros; simplify_eq; try lia; try congruence;
       reflexivity. }
  unfold index.
  destruct (content response) as [|first rest] eqn:Hcontent;
    cbn [lookup list_lookup fst snd].
  { repeat split; intros; simplify_eq; try lia; try congruence;
    reflexivity. }
  unfold _is_valid_json.
  destruct (json_loads (strip first)) as [v|e] eqn:Hloads; cbn [fst snd].
  - repeat split; intros; simplify_eq; try lia; eauto.
    assert (first0 = first) as -> by congruence.
    by rewrite Hloads.
  - destruct (is_JSONDecodeError e) eqn:Hcls; cbn [fst snd];
      (repeat split; intros; simplify_eq; try lia; try reflexivity;
       assert (first0 = first) as -> by congruence;
       rewrite Hloads, Hcls; reflexivity).
Qed.

End JsonRepairerProperties.

Section JsonRepairerWitness.
Import RateLimiter JsonRepairer.

Lemma repair_json_one_attempt_witness :
  fst (repair_json unit example_json_loads example_py_int
         example_fromisoformat (example_anthropic " {} ")
         "system" "{," example_repair_world)
  = Returned "{}"
  /\ fst (repair_json unit example_json_loads example_py_int
            example_fromisoformat (example_anthropic "{,")
            "system" "{," example_repair_world)
     = Raised (Exn ValueError
                 "Failed to repair JSON: Claude API returned invalid JSON").
Proof.
  split.
  - pose proof
      (proj2 (proj2 (proj2
         (repair_json_one_attempt unit example_json_loads example_py_int
            example_fromisoformat (example_anthropic " {} ")
            "system" "{," example_repair_world)))
         "sk-test" {| content := [" {} "] |}
         (snd (make_anthropic_request example_py_int example_fromisoformat
                 (example_anthropic " {} " "sk-test") "system"
                 (repair_user_prompt "{,") 1000 (1 # 10) None
                 example_repair_world))
         " {} " []) as H.
    exact (H eq_refl eq_refl eq_refl eq_refl).
  - pose proof
      (proj2 (proj2 (proj2
         (repair_json_one_attempt unit example_json_loads example_py_int
            example_fromisoformat (example_anthropic "{,")
            "system" "{," example_repair_world)))
         "sk-test" {| content := ["{,"] |}
         (snd (make_anthropic_request example_py_int example_fromisoformat
                 (example_anthropic "{," "sk-test") "system"
                 (repair_user_prompt "{,") 1000 (1 # 10) None
                 example_repair_world))
         "{," []) as H.
    exact (H eq_refl eq_refl eq_refl eq_refl).
Defined.

End JsonRepairerWitness.

(** ** The meme flow *)

Section TextChoiceProperties.
Import MemeFlow.

Lemma set_text_box_insert (choice : gmap string string)
    (text_boxes : list (option string)) (i : nat) :
  text_boxes !! (i - 1)%nat = Some None ->
  set_text_box choice text_boxes i
  = <[(i - 1)%nat := caption_for choice i]> text_boxes.
Proof.
  intros Hnone. unfold set_text_box, caption_for, contains.
  destruct (choice !! ("text" +:+ str_nat i)); [reflexivity|].
  destruct (choice !! ("text_" +:+ str_nat i)); [reflexivity|].
  symmetry. by apply list_insert_id.
Qed.

(** The loop, started at box [n + 1] with the first [n] boxes filled, fills
    the next [m] boxes. *)
Lemma fold_set_text_box (choice : gmap string string) (m : nat) :
  forall n,
    fold_left (set_text_box choice) (seq (S n) m)
      (map (caption_for choice) (seq 1 n) ++ replicate m None)
    = map (caption_for choice) (seq 1 (n + m)).
Proof.
  induction m as [|m IH]; intros n.
  - simpl. by rewrite app_nil_r, Nat.add_0_r.
  - cbn [seq fold_left replicate].
    assert (Hlen : length (map (caption_for choice) (seq 1 n)) = n)
      by (by rewrite length_map, length_seq).
    rewrite (set_text_box_insert choice _ (S n)).
    2: { replace (S n - 1)%nat with n by lia.
         apply list_lookup_middle. by rewrite Hlen. }
    replace (S n - 1)%nat
      with (length (map (caption_for choice) (seq 1 n)) + 0)%nat
      by (rewrite Hlen; lia).
    rewrite insert_app_r. cbn [insert list_insert].
    rewrite (cons_middle (caption_for choice (S n))), app_assoc.
    replace (map (caption_for choice) (seq 1 n) ++ [caption_for choice (S n)])
      with (map (caption_for choice) (seq 1 (S n)))
      by (by rewrite seq_S, map_app).
    rewrite IH. f_equal. f_equal. lia.
Qed.

Lemma text_choice_to_boxes_length (choice : gmap string string) :
  length (text_choice_to_boxes choice) = 7%nat.
Proof.
  assert (H : text_choice_to_boxes choice
              = map (caption_for choice) (seq 1 7))
    by apply (fold_set_text_box choice 7 0).
  by rewrite H.
Qed.

(** Every meme the flow adds to the pool has seven captions. *)
Lemma memes_of_result_seven_boxes (result : processed_result) :
  Forall seven_boxes (memes_of_result result).
Proof.
  unfold memes_of_result.
  destruct (text_choices (pr_text_variations result)) as [choices|];
    [|constructor].
  induction choices as [|choice choices IH]; cbn; [constructor|].
  destruct (template_id (pr_template result)); [|exact IH].
  cbn. constructor; [|exact IH].
  apply text_choice_to_boxes_length.
Qed.

(** C7. The conversion of a text choice yields exactly seven slots, and
    slot [i - 1] is the caption of box [i]: the value under ["text<i>"] if
    present, otherwise the value under ["text_<i>"] if present, otherwise
    none. *)
Theorem text_choice_to_boxes_captions (choice : gmap string string) :
  text_choice_to_boxes choice = map (caption_for choice) (seq 1 7)
  /\ length (text_choice_to_boxes choice) = 7%nat
  /\ (forall i, (1 <= i <= 7)%nat ->
                text_choice_to_boxes choice !! (i - 1)%nat
                = Some (caption_for choice i)).
Proof.
  assert (H : text_choice_to_boxes choice
              = map (caption_for choice) (seq 1 7))
    by apply (fold_set_text_box choice 7 0).
  split; [exact H|]. rewrite H. split; [reflexivity|].
  intros i Hi. rewrite list_lookup_fmap.
  rewrite (lookup_seq_lt 1 7 (i - 1)) by lia. simpl.
  do 2 f_equal. lia.
Qed.

Lemma text_choice_to_boxes_captions_witness :
  text_choice_to_boxes example_choice
  = [Some "TOP"; Some "BOTTOM"; Some "FIRST"; None; None; None; None]
  /\ text_choice_to_boxes example_choice !! 2%nat = Some (Some "FIRST").
Proof.
  split.
  - rewrite (proj1 (text_choice_to_boxes_captions example_choice)).
    vm_compute. reflexivity.
  - apply (proj2 (proj2 (text_choice_to_boxes_captions example_choice)) 3%nat).
    lia.
Defined.

End TextChoiceProperties.

Section BatchTextsProperties.
Import MemeFlow.

Variables goal context : Type.
Variable generate_meme_texts :
  template -> goal -> context -> nat -> outcome text_variations.

(** The first loop creates one task per template, in order, and calls
    [generate_meme_texts] once for each. *)
Lemma create_text_tasks_run (templates : list template) (g : goal)
    (c : context) :
  forall calls,
    create_text_tasks goal context generate_meme_texts templates g c calls
    = (Returned
         (imap (fun i t =>
                  (t, generate_meme_texts t g c (length calls + i)))
               templates),
       calls ++ templates).
Proof.
  induction templates as [|t rest IH]; intros calls.
  - cbn. by rewrite app_nil_r.
  - cbn [create_text_tasks]. unfold bind at 1.
    unfold call_generate_meme_texts at 1. unfold bind at 1.
    rewrite IH. unfold ret. rewrite imap_cons, Nat.add_0_r.
    rewrite <- app_assoc. cbn [app]. do 3 f_equal.
    apply imap_ext. intros i t' _. cbn.
    rewrite length_app. cbn. do 2 f_equal. lia.
Qed.

Lemma kept_results_app (l1 l2 : list (template * outcome text_variations)) :
  kept_results (l1 ++ l2) = kept_results l1 ++ kept_results l2.
Proof.
  unfold kept_results, gather.
  induction l1 as [|[t o] l1 IH]; [reflexivity|].
  cbn. cbn in IH. rewrite IH. by destruct o.
Qed.

Lemma kept_results_returned (l : list template) :
  forall (f : nat -> template -> outcome text_variations)
         (v : nat -> text_variations),
    (forall i t, l !! i = Some t -> f i t = Returned (v i)) ->
    kept_results (imap (fun i t => (t, f i t)) l)
    = imap (fun i t => {| pr_template := t; pr_text_variations := v i |}) l.
Proof.
  induction l as [|t l IH]; intros f v H; [reflexivity|].
  rewrite !imap_cons. change (?x :: ?l') with ([x] ++ l') at 1.
  rewrite kept_results_app. unfold kept_results at 1, gather. cbn.
  rewrite (H 0%nat t eq_refl). cbn. f_equal.
  apply (IH (fun i => f (S i)) (fun i => v (S i))).
  intros i t' Hi. apply (H (S i) t' Hi).
Qed.

(** C1. When exactly one of the text-generation tasks fanned out for a
    list of templates fails with an exception and the others succeed, the
    result pool holds exactly the results of the others, in the order of
    submission; the failing task's result is absent; and
    [generate_meme_texts] is called once per template, in order, so the
    failing task is not retried. *)
Theorem batch_generate_texts_isolates_failure
    (ts1 ts2 : list template) (t : template) (g : goal) (c : context)
    (calls : list template) (v : nat -> text_variations) (e : exn) :
  (forall i t',
      (ts1 ++ t :: ts2) !! i = Some t' -> i <> length ts1 ->
      generate_meme_texts t' g c (length calls + i) = Returned (v i)) ->
  generate_meme_texts t g c (length calls + length ts1) = Raised e ->
  batch_generate_texts goal context generate_meme_texts
    (ts1 ++ t :: ts2) g c calls
  = (Returned
       (imap (fun i t' =>
                {| pr_template := t'; pr_text_variations := v i |}) ts1
        ++ imap (fun i t' =>
                   {| pr_template := t';
                      pr_text_variations := v (length ts1 + 1 + i)%nat |})
             ts2),
     calls ++ ts1 ++ t :: ts2).
Proof.
  intros Hok Hfail. unfold batch_generate_texts, bind.
  rewrite create_text_tasks_run. unfold ret. f_equal. f_equal.
  change (process_text_results (zip ?l (gather (map snd ?l))))
    with (kept_results l).
  rewrite imap_app, imap_cons, kept_results_app.
  change (?x :: ?l') with ([x] ++ l') at 1. rewrite kept_results_app.
  f_equal.
  - apply (kept_results_returned ts1
             (fun i t' => generate_meme_texts t' g c (length calls + i)) v).
    intros i t' Hi. apply Hok.
    + by apply lookup_app_l_Some.
    + apply lookup_lt_Some in Hi. lia.
  - unfold kept_results at 1, gather. cbn. rewrite Nat.add_0_r, Hfail. cbn.
    apply (kept_results_returned ts2
             (fun i t' =>
                generate_meme_texts t' g c
                  (length calls + (length ts1 + S i)))
             (fun i => v (length ts1 + 1 + i)%nat)).
    intros i t' Hi.
    replace (length ts1 + 1 + i)%nat with (length ts1 + S i)%nat by lia.
    apply Hok; [|lia].
    rewrite lookup_app_r by lia.
    replace (length ts1 + S i - length ts1)%nat with (S i) by lia.
    exact Hi.
Qed.

End BatchTextsProperties.

Section BatchTextsWitness.
Import MemeFlow.

Lemma batch_generate_texts_isolates_failure_witness :
  batch_generate_texts unit unit example_generate_meme_texts
    example_templates tt tt []
  = (Returned
       [ {| pr_template :=
              {| template_id := Some 1%Z; template_name := "drake" |};
            pr_text_variations :=
              example_variations
                {| template_id := Some 1%Z; template_name := "drake" |} |};
         {| pr_template :=
              {| template_id := Some 3%Z; template_name := "doge" |};
            pr_text_variations :=
              example_variations
                {| template_id := Some 3%Z; template_name := "doge" |} |} ],
     example_templates).
Proof.
  apply (batch_generate_texts_isolates_failure unit unit
           example_generate_meme_texts
           [ {| template_id := Some 1%Z; template_name := "drake" |} ]
           [ {| template_id := Some 3%Z; template_name := "doge" |} ]
           {| template_id := Some 2%Z; template_name := "bad" |}
           tt tt []
           (fun i =>
              example_variations
                (match i with
                 | O => {| template_id := Some 1%Z; template_name := "drake" |}
                 | _ => {| template_id := Some 3%Z; template_name := "doge" |}
                 end))
           (Exn ValueError "Empty response from Anthropic API")).
  - intros [|[|[|i]]] t' Hi Hne; cbn in Hi; simplify_eq; reflexivity.
  - reflexivity.
Defined.

End BatchTextsWitness.

Section FinishGenerationProperties.
Import MemeFlow.

Lemma match_uuids_run (pool : list generated_meme) (uuids : list string) :
  pool <> [] ->
  forall i,
  exists slots,
    match_uuids i uuids pool = Returned slots
    /\ length slots = length uuids
    /\ (forall k u, uuids !! k = Some u ->
         exists m, pool !! ((i + k) mod length pool)%nat = Some m
                   /\ slots !! k = Some (slot_of u m)).
Proof.
  intros Hpool.
  assert (Hlen : length pool <> 0%nat) by (by destruct pool).
  induction uuids as [|u rest IH]; intros i.
  - exists []. cbn. repeat split. intros k u' Hk. discriminate.
  - destruct (IH (S i)) as (slots & Hrun & Hlen' & Hslots).
    assert (Hlt : (i mod length pool < length pool)%nat)
      by (by apply Nat.mod_upper_bound).
    destruct (lookup_lt_is_Some_2 pool _ Hlt) as [m Hm].
    exists (slot_of u m :: slots).
    cbn [match_uuids]. unfold py_mod.
    destruct (Nat.eqb_spec (length pool) 0); [contradiction|].
    unfold obind at 1. unfold index. rewrite Hm. unfold obind at 1.
    rewrite Hrun. unfold obind.
    split; [reflexivity|]. split; [cbn; by rewrite Hlen'|].
    intros [|k] u' Hk; cbn in Hk.
    + simplify_eq. exists m. rewrite Nat.add_0_r. by split.
    + destruct (Hslots k u' Hk) as (m' & Hm' & Hk').
      exists m'. replace (i + S k)%nat with (S i + k)%nat by lia.
      by split.
Qed.

Section Images.

Variable render_and_upload : string -> uuid_meme -> outcome (option string).

Lemma process_meme_image_result (url : string) (m : uuid_meme) :
  exists v,
    process_meme_image render_and_upload url m = Returned v
    /\ image_ref_ok v.
Proof.
  unfold process_meme_image, image_ref_ok.
  destruct (render_and_upload url m) as [v|e]; [|by eexists; split; [|left]].
  destruct (truthy_opt v) eqn:Hv; eexists; split; try reflexivity;
    [by right|by left].
Qed.

Lemma set_cdn_url_twice (v v' : option string) (m : uuid_meme) :
  set_cdn_url v (set_cdn_url v' m) = set_cdn_url v m.
Proof. reflexivity. Qed.

Lemma set_cdn_url_same (m : uuid_meme) : set_cdn_url (cdn_url m) m = m.
Proof. by destruct m. Qed.

(** The second loop of [batch_process_images] changes nothing of a slot but
    its image reference, which is then one of the results (or none). *)
Lemma store_image_results_slots
    (pairs : list ((nat * outcome (option string)) * outcome (option string))) :
  (forall t r v, In (t, r) pairs -> r = Returned v -> image_ref_ok v) ->
  forall memes,
    length (store_image_results pairs memes) = length memes
    /\ (forall i m,
          memes !! i = Some m -> image_ref_ok (cdn_url m) ->
          exists v,
            store_image_results pairs memes !! i = Some (set_cdn_url v m)
            /\ image_ref_ok v).
Proof.
  unfold store_image_results.
  induction pairs as [|[[i0 t0] r0] pairs IH]; intros Hres memes.
  - cbn. split; [reflexivity|]. intros i m Hi Hok.
    exists (cdn_url m). by rewrite set_cdn_url_same.
  - cbn [fold_left].
    assert (Hres' : forall t r v,
               In (t, r) pairs -> r = Returned v -> image_ref_ok v)
      by (intros t r v Hin; apply (Hres t r v); by right).
    set (v0 := match r0 with Returned v => v | Raised _ => None end).
    assert (Hv0 : image_ref_ok v0).
    { unfold v0. destruct r0 as [v|e]; [|by left].
      apply (Hres (i0, t0) (Returned v) v); [by left|reflexivity]. }
    assert (Hstep :
              match r0 with
              | Raised _ => alter (set_cdn_url None) i0 memes
              | Returned v => alter (set_cdn_url v) i0 memes
              end = alter (set_cdn_url v0) i0 memes)
      by (unfold v0; by destruct r0).
    rewrite Hstep.
    destruct (IH Hres' (alter (set_cdn_url v0) i0 memes)) as [Hlen Hslots].
    split; [by rewrite Hlen, length_alter|].
    intros i m Hi Hok.
    destruct (decide (i0 = i)) as [->|Hne].
    + destruct (Hslots i (set_cdn_url v0 m)) as (v & Hv & Hvok).
      * by rewrite list_lookup_alter_eq, Hi.
      * exact Hv0.
      * exists v. by rewrite Hv, set_cdn_url_twice.
    + apply Hslots; [|exact Hok].
      by rewrite list_lookup_alter_ne.
Qed.

Lemma in_zip_own_map {A B} (f : A -> B) (l : list A) (a : A) (b : B) :
  In (a, b) (zip l (map f l)) -> In a l /\ b = f a.
Proof.
  induction l as [|x l IH]; cbn; [contradiction|].
  intros [[= <- <-]|Hin]; [by split; [left|]|].
  destruct (IH Hin). by split; [right|].
Qed.

Lemma batch_process_images_slots (memes : list uuid_meme)
    (template_urls : gmap Z string) :
  length (batch_process_images render_and_upload memes template_urls)
  = length memes
  /\ (forall i m,
        memes !! i = Some m -> image_ref_ok (cdn_url m) ->
        exists v,
          batch_process_images render_and_upload memes template_urls !! i
          = Some (set_cdn_url v m)
          /\ image_ref_ok v).
Proof.
  unfold batch_process_images. apply store_image_results_slots.
  intros [i o] r v Hin Hr. unfold gather in Hin.
  apply in_zip_own_map in Hin as [Hin ->]. cbn in Hr.
  unfold create_image_tasks in Hin. apply in_flat_map in Hin.
  destruct Hin as ([j m] & _ & Hin).
  destruct (template_urls !! um_template_id m) as [url|]; [|contradiction].
  destruct (truthy url); [|contradiction].
  destruct Hin as [[= <- <-]|[]].
  destruct (process_meme_image_result url m) as (v' & Hv' & Hok).
  congruence.
Qed.

End Images.

Lemma update_meme_run (m : uuid_meme) (table : gmap string meme_row) :
  slot_ok m ->
  exists f,
    update_meme m table = (Returned tt, alter f (uuid m) table)
    /\ (forall old, persisted m old (f old)).
Proof.
  intros [Hlen Hok]. unfold update_meme, index.
  destruct (um_text_boxes m)
    as [|t1 [|t2 [|t3 [|t4 [|t5 [|t6 [|t7 [|t8 l]]]]]]]] eqn:Hboxes;
    try discriminate.
  py_unfold. cbn [lookup list_lookup].
  destruct (cdn_url m) as [url|] eqn:Hurl; cbn [truthy_opt].
  - destruct Hok as [Hnone|Htrue]; [discriminate|].
    cbn [truthy_opt] in Htrue. rewrite Htrue.
    eexists. split; [reflexivity|].
    intros old. unfold persisted, row_text_boxes. cbn.
    by rewrite Hboxes, Hurl.
  - eexists. split; [reflexivity|].
    intros old. unfold persisted, row_text_boxes. cbn.
    by rewrite Hboxes, Hurl.
Qed.

(** The update of the database writes every slot to the row of its own
    identifier and leaves the other rows as they were. *)
Lemma for_each_update_meme (memes : list uuid_meme) :
  Forall slot_ok memes ->
  forall table : gmap string meme_row,
  exists table',
    for_each update_meme memes table = (Returned tt, table')
    /\ (forall u, ~ In u (map uuid memes) -> table' !! u = table !! u)
    /\ (List.NoDup (map uuid memes) ->
        forall m old,
          In m memes -> table !! uuid m = Some old ->
          exists new, table' !! uuid m = Some new /\ persisted m old new).
Proof.
  induction 1 as [|m memes Hm Hmemes IH]; intros table.
  - exists table. cbn. repeat split. intros _ m old [].
  - destruct (update_meme_run m table Hm) as (f & Hrun & Hf).
    destruct (IH (alter f (uuid m) table)) as (table' & Hrest & Hother & Hown).
    exists table'. cbn [for_each]. unfold bind. rewrite Hrun, Hrest.
    split; [reflexivity|]. split.
    + intros u Hu. cbn in Hu.
      rewrite Hother by tauto. apply lookup_alter_ne. tauto.
    + intros Hnodup m0 old Hin Hold. cbn in Hnodup.
      apply List.NoDup_cons_iff in Hnodup as [Hfresh Hnodup].
      destruct Hin as [<-|Hin].
      * exists (f old). split; [|apply Hf].
        rewrite Hother by exact Hfresh.
        by rewrite lookup_alter_eq, Hold.
      * apply (Hown Hnodup m0 old Hin).
        rewrite lookup_alter_ne; [exact Hold|].
        intros Heq. apply Hfresh. rewrite Heq. by apply in_map.
Qed.

Section Finish.

Variable render_and_upload : string -> uuid_meme -> outcome (option string).
Variable select_template_urls : list Z -> outcome (list (Z * string)).

(** The slots after [batch_process_images], for slots built by
    [match_uuids]: each is the slot built for its identifier, with an
    image reference that is none or not empty. *)
Lemma processed_slots (pool : list generated_meme) (uuids : list string)
    (slots : list uuid_meme) (template_urls : gmap Z string) :
  length slots = length uuids ->
  (forall k u, uuids !! k = Some u ->
     exists m, pool !! (k mod length pool)%nat = Some m
               /\ slots !! k = Some (slot_of u m)) ->
  let final := batch_process_images render_and_upload slots template_urls in
  length final = length uuids
  /\ (forall k u, uuids !! k = Some u ->
        exists m v,
          pool !! (k mod length pool)%nat = Some m
          /\ final !! k = Some (set_cdn_url v (slot_of u m))
          /\ image_ref_ok v).
Proof.
  intros Hlen Hslots final.
  destruct (batch_process_images_slots render_and_upload slots template_urls)
    as [Hlen' Hfinal].
  split; [unfold final; by rewrite Hlen'|].
  intros k u Hk. destruct (Hslots k u Hk) as (m & Hm & Hslot).
  destruct (Hfinal k (slot_of u m) Hslot) as (v & Hv & Hok); [by left|].
  by exists m, v.
Qed.

Lemma finish_generation_run (pool : list generated_meme)
    (uuids : list string) (table : gmap string meme_row) :
  pool <> [] ->
  Forall seven_boxes pool ->
  (forall ids, exists rows, select_template_urls ids = Returned rows) ->
  exists slots final table',
    match_uuids 0 uuids pool = Returned slots
    /\ finish_generation render_and_upload select_template_urls
         pool uuids table
       = (Returned (map result_of final), table')
    /\ for_each update_meme final table = (Returned tt, table')
    /\ length final = length uuids
    /\ (forall k u, uuids !! k = Some u ->
          exists m v,
            pool !! (k mod length pool)%nat = Some m
            /\ slots !! k = Some (slot_of u m)
            /\ final !! k = Some (set_cdn_url v (slot_of u m))
            /\ image_ref_ok v).
Proof.
  intros Hpool Hboxes Hselect.
  destruct (match_uuids_run pool uuids Hpool 0) as (slots & Hrun & Hlen & Hs).
  cbn [Nat.add] in Hs.
  unfold finish_generation.
  destruct pool as [|m0 pool']; [contradiction|]. cbn [nonempty negb].
  py_unfold. rewrite Hrun.
  destruct (Hselect (elements (list_to_set (map um_template_id slots)
                               : gset Z))) as [rows Hrows].
  rewrite Hrows.
  set (urls := fold_left (fun m '(id, url) => <[id := url]> m) rows
                 (empty : gmap Z string)).
  set (final := batch_process_images render_and_upload slots urls).
  destruct (processed_slots (m0 :: pool') uuids slots urls Hlen Hs)
    as [Hlen' Hfinal].
  fold final in Hlen', Hfinal.
  assert (Hok : Forall slot_ok final).
  { apply Forall_lookup_2. intros k m Hk.
    assert (Hlt : (k < length uuids)%nat)
      by (rewrite <- Hlen'; by apply lookup_lt_Some in Hk).
    destruct (lookup_lt_is_Some_2 uuids k Hlt) as [u Hu].
    destruct (Hfinal k u Hu) as (m' & v & Hm' & Hk' & Hv).
    rewrite Hk in Hk'. injection Hk' as ->.
    split; [|exact Hv]. cbn.
    exact (Forall_lookup_1 _ _ _ _ Hboxes Hm'). }
  destruct (for_each_update_meme final Hok table) as (table' & Hupd & _).
  exists slots, final, table'. rewrite Hupd.
  split; [reflexivity|]. split; [reflexivity|]. split; [reflexivity|].
  split; [exact Hlen'|].
  intros k u Hu. destruct (Hfinal k u Hu) as (m & v & Hm & Hk & Hv).
  destruct (Hs k u Hu) as (m' & Hm' & Hslot).
  exists m, v. repeat split; try assumption. congruence.
Qed.

(** C2. For every non-empty pool of generated memes and every list of
    requested identifiers, the identifier at index [i] is assigned the pool
    entry at index [i mod len(pool)]: its slot carries that entry's
    template and captions. With 3 generated memes and 7 identifiers, the
    slots of identifiers 0 and 3 carry the same template and captions.
    And the list the flow returns (the pool entries having their seven
    captions, and the query of the template images being answered) has one
    entry per requested identifier, in order, with the captions assigned
    to it. *)
Theorem match_uuids_cyclic (pool : list generated_meme)
    (uuids : list string) (table : gmap string meme_row) :
  pool <> [] ->
  exists slots,
    match_uuids 0 uuids pool = Returned slots
    /\ length slots = length uuids
    /\ (forall i u, uuids !! i = Some u ->
          exists m, pool !! (i mod length pool)%nat = Some m
                    /\ slots !! i = Some (slot_of u m))
    /\ (length pool = 3%nat -> length uuids = 7%nat ->
        exists s0 s3,
          slots !! 0%nat = Some s0 /\ slots !! 3%nat = Some s3
          /\ um_template_id s0 = um_template_id s3
          /\ um_text_boxes s0 = um_text_boxes s3)
    /\ (Forall seven_boxes pool ->
        (forall ids, exists rows, select_template_urls ids = Returned rows) ->
        exists results table',
          finish_generation render_and_upload select_template_urls
            pool uuids table
          = (Returned results, table')
          /\ length results = length uuids
          /\ (forall i u, uuids !! i = Some u ->
                exists m c,
                  pool !! (i mod length pool)%nat = Some m
                  /\ results !! i
                     = Some {| res_uuid := u;
                               res_text_boxes := gm_text_boxes m;
                               res_cdn_url := c |})).
Proof.
  intros Hpool.
  destruct (match_uuids_run pool uuids Hpool 0) as (slots & Hrun & Hlen & Hs).
  cbn [Nat.add] in Hs.
  exists slots. split; [exact Hrun|]. split; [exact Hlen|].
  split; [exact Hs|]. split.
  - intros Hp3 Hu7.
    destruct (lookup_lt_is_Some_2 uuids 0) as [u0 Hu0]; [lia|].
    destruct (lookup_lt_is_Some_2 uuids 3) as [u3 Hu3]; [lia|].
    destruct (Hs _ _ Hu0) as (m0 & Hm0 & Hs0).
    destruct (Hs _ _ Hu3) as (m3 & Hm3 & Hs3).
    rewrite Hp3 in Hm0, Hm3. cbn in Hm0, Hm3.
    assert (m3 = m0) as -> by congruence.
    exists (slot_of u0 m0), (slot_of u3 m0). by repeat split.
  - intros Hboxes Hselect.
    destruct (finish_generation_run pool uuids table Hpool Hboxes Hselect)
      as (slots' & final & table' & _ & Hfin & _ & Hlen' & Hfinal).
    exists (map result_of final), table'.
    split; [exact Hfin|]. split; [by rewrite length_map|].
    intros i u Hu. destruct (Hfinal i u Hu) as (m & v & Hm & _ & Hi & _).
    exists m, v. split; [exact Hm|].
    change (map result_of final) with (result_of <$> final).
    by rewrite list_lookup_fmap, Hi.
Qed.

(** C6. In the final update of the database every slot is written to the
    row of its identifier (the identifiers being distinct rows of the
    table): the row gets the template and the seven captions of the slot;
    it gets the image reference of the slot when the slot has one, and
    keeps the one it had when the slot has none; no slot is dropped. *)
Theorem update_persists_every_slot (pool : list generated_meme)
    (uuids : list string) (table : gmap string meme_row) :
  pool <> [] ->
  Forall seven_boxes pool ->
  (forall ids, exists rows, select_template_urls ids = Returned rows) ->
  List.NoDup uuids ->
  (forall u, In u uuids -> is_Some (table !! u)) ->
  exists results table',
    finish_generation render_and_upload select_template_urls
      pool uuids table
    = (Returned results, table')
    /\ (forall i u, uuids !! i = Some u ->
          exists m c old new,
            pool !! (i mod length pool)%nat = Some m
            /\ results !! i
               = Some {| res_uuid := u;
                         res_text_boxes := gm_text_boxes m;
                         res_cdn_url := c |}
            /\ table !! u = Some old
            /\ table' !! u = Some new
            /\ row_template_id new = Some (gm_template_id m)
            /\ row_text_boxes new = gm_text_boxes m
            /\ meme_cdn_url new
               = match c with
                 | Some url => Some url
                 | None => meme_cdn_url old
                 end
            /\ (forall url, c = Some url -> truthy url = true)).
Proof.
  intros Hpool Hboxes Hselect Hnodup Hrows.
  destruct (finish_generation_run pool uuids table Hpool Hboxes Hselect)
    as (slots & final & table' & _ & Hfin & Hupd & Hlen & Hfinal).
  exists (map result_of final), table'. split; [exact Hfin|].
  assert (Huuids : map uuid final = uuids).
  { apply list_eq. intros k.
    change (map uuid final) with (uuid <$> final).
    rewrite list_lookup_fmap.
    destruct (uuids !! k) as [u|] eqn:Hu.
    - destruct (Hfinal k u Hu) as (m & v & _ & _ & Hk & _). by rewrite Hk.
    - apply lookup_ge_None in Hu.
      rewrite (proj2 (lookup_ge_None final k)); [reflexivity|lia]. }
  assert (Hok : Forall slot_ok final).
  { apply Forall_lookup_2. intros k m Hk.
    assert (Hlt : (k < length uuids)%nat)
      by (rewrite <- Hlen; by apply lookup_lt_Some in Hk).
    destruct (lookup_lt_is_Some_2 uuids k Hlt) as [u Hu].
    destruct (Hfinal k u Hu) as (m' & v & Hm' & _ & Hk' & Hv).
    rewrite Hk in Hk'. injection Hk' as ->.
    split; [|exact Hv]. exact (Forall_lookup_1 _ _ _ _ Hboxes Hm'). }
  destruct (for_each_update_meme final Hok table) as (table'' & Hupd' & _ & Hown).
  assert (table'' = table') as -> by congruence.
  rewrite Huuids in Hown. specialize (Hown Hnodup).
  intros i u Hu. destruct (Hfinal i u Hu) as (m & v & Hm & _ & Hi & Hv).
  destruct (Hrows u) as [old Hold].
  { apply list_elem_of_In. by apply list_elem_of_lookup_2 with i. }
  destruct (Hown (set_cdn_url v (slot_of u m)) old) as (new & Hnew & Hp).
  { apply list_elem_of_In. by apply list_elem_of_lookup_2 with i. }
  { exact Hold. }
  destruct Hp as (Ht & Hb & Hc & _).
  exists m, v, old, new. split; [exact Hm|]. split.
  { change (map result_of final) with (result_of <$> final).
    by rewrite list_lookup_fmap, Hi. }
  repeat split; try assumption.
  intros url ->. by destruct Hv as [|Hv].
Qed.

End Finish.

End FinishGenerationProperties.

Section FinishGenerationWitnesses.
Import MemeFlow.

Lemma match_uuids_cyclic_witness :
  exists slots,
    match_uuids 0 example_uuids example_pool = Returned slots
    /\ (exists s0 s3,
          slots !! 0%nat = Some s0 /\ slots !! 3%nat = Some s3
          /\ um_template_id s0 = um_template_id s3
          /\ um_text_boxes s0 = um_text_boxes s3)
    /\ (exists results table',
          finish_generation example_render_and_upload
            example_select_template_urls example_pool example_uuids
            example_table
          = (Returned results, table')
          /\ length results = 7%nat).
Proof.
  destruct (match_uuids_cyclic example_render_and_upload
              example_select_template_urls example_pool example_uuids
              example_table)
    as (slots & Hrun & _ & _ & H37 & Hres).
  - discriminate.
  - exists slots. split; [exact Hrun|]. split.
    + apply H37; reflexivity.
    + destruct Hres as (results & table' & Hfin & Hlen & _).
      * repeat constructor.
      * intros ids. eexists. reflexivity.
      * exists results, table'. split; [exact Hfin|exact Hlen].
Defined.

Lemma update_persists_every_slot_witness :
  exists results table',
    finish_generation example_render_and_upload
      example_select_template_urls example_pool example_uuids example_table
    = (Returned results, table')
    /\ (exists new,
          table' !! "u3" = Some new
          /\ row_template_id new = Some 1%Z
          /\ row_text_boxes new
             = [Some "A"; Some "B"; None; None; None; None; None])
    /\ (exists new c,
          table' !! "u4" = Some new
          /\ row_template_id new = Some 2%Z
          /\ meme_cdn_url new
             = match c with
               | Some url => Some url
               | None => Some "placeholder"
               end).
Proof.
  destruct (update_persists_every_slot example_render_and_upload
              example_select_template_urls example_pool example_uuids
              example_table)
    as (results & table' & Hfin & Hslots).
  - discriminate.
  - repeat constructor.
  - intros ids. eexists. reflexivity.
  - repeat (constructor; [cbn; intuition discriminate|]). constructor.
  - intros u Hu. cbn in Hu.
    destruct Hu as [<-|[<-|[<-|[<-|[<-|[<-|[<-|[]]]]]]]];
      eexists; vm_compute; reflexivity.
  - exists results, table'. split; [exact Hfin|]. split.
    + destruct (Hslots 3%nat "u3" eq_refl)
        as (m & c & old & new & Hm & _ & _ & Hnew & Ht & Hb & _).
      cbn in Hm. injection Hm as <-.
      exists new. by repeat split.
    + destruct (Hslots 4%nat "u4" eq_refl)
        as (m & c & old & new & Hm & _ & Hold & Hnew & Ht & _ & Hc & _).
      cbn in Hm. injection Hm as <-.
      assert (Hrow : example_table !! "u4" = Some example_row)
        by (vm_compute; reflexivity).
      rewrite Hrow in Hold. injection Hold as <-.
      exists new, c. by repeat split.
Defined.

End FinishGenerationWitnesses.

(** ** The text overlay *)

Section TextOverlayProperties.
Import TextOverlay.

Variable textbbox : font -> string -> Z * Z * Z * Z.
Variable self : overlay.

(** *** Wrapping *)

Lemma wrap_step_count (max_width : Z) (f : font)
    (st : list string * list string) (word : string) :
  (line_count st <= line_count (wrap_step textbbox max_width f st word))%nat
  /\ nonempty (snd (wrap_step textbbox max_width f st word)) = true.
Proof.
  destruct st as [lines current]. unfold wrap_step, line_count.
  destruct (textbbox f _) as [[[bl bt] br] bb].
  destruct (br - bl <=? max_width)%Z; cbn [fst snd].
  - split; [destruct current; cbn; lia|by destruct current].
  - split; [|reflexivity].
    destruct current; cbn; rewrite ?length_app; cbn; lia.
Qed.

Lemma wrap_fold_count (max_width : Z) (f : font) (words : list string) :
  forall st,
    (line_count st
     <= line_count (fold_left (wrap_step textbbox max_width f) words st))%nat
    /\ (words <> [] ->
        nonempty (snd (fold_left (wrap_step textbbox max_width f) words st))
        = true).
Proof.
  induction words as [|word words IH]; intros st; cbn [fold_left].
  - split; [lia|congruence].
  - destruct (wrap_step_count max_width f st word) as [Hle Hne].
    destruct (IH (wrap_step textbbox max_width f st word)) as [Hle' Hne'].
    split; [lia|]. intros _.
    destruct words as [|word' words]; [exact Hne|by apply Hne'].
Qed.

Lemma wrap_text_length (text : string) (max_width : Z) (f : font) :
  length (wrap_text textbbox text max_width f)
  = line_count (fold_left (wrap_step textbbox max_width f) (split text)
                  ([], [])).
Proof.
  unfold wrap_text, line_count.
  destruct (fold_left _ _ _) as [lines current]. cbn [fst snd].
  destruct current; cbn; rewrite ?length_app; cbn; lia.
Qed.

(** A caption with a word wraps to at least one line. *)
Lemma wrap_text_nonempty (text : string) (max_width : Z) (f : font) :
  split text <> [] -> wrap_text textbbox text max_width f <> [].
Proof.
  intros Hwords Hnil.
  assert (Hlen : length (wrap_text textbbox text max_width f) = 0%nat)
    by (by rewrite Hnil).
  rewrite wrap_text_length in Hlen.
  destruct (wrap_fold_count max_width f (split text) ([], [])) as [_ Hne].
  specialize (Hne Hwords). unfold line_count in Hlen.
  rewrite Hne in Hlen. lia.
Qed.

(** A caption without a word wraps to no line. *)
Lemma wrap_text_blank (text : string) (max_width : Z) (f : font) :
  split text = [] -> wrap_text textbbox text max_width f = [].
Proof. intros H. unfold wrap_text. by rewrite H. Qed.

(** The prefix of a caption wraps to no more lines than the caption. *)
Lemma wrap_text_prefix (short long : string) (extra : list string)
    (max_width : Z) (f : font) :
  split long = split short ++ extra ->
  (length (wrap_text textbbox short max_width f)
   <= length (wrap_text textbbox long max_width f))%nat.
Proof.
  intros Hwords. rewrite !wrap_text_length, Hwords, fold_left_app.
  apply wrap_fold_count.
Qed.

(** *** The search of the font size *)

Lemma try_font_size_shape (path text : string) (box_width box_height : Z)
    (font_size : Z) (r : font * list string * Q) :
  try_font_size textbbox path text box_width box_height font_size = Some r ->
  fst (fst r) = truetype path font_size
  /\ snd (fst r)
     = wrap_text textbbox text box_width (truetype path font_size).
Proof.
  unfold try_font_size.
  destruct (fold_left _ _ _) as [[total maxw] lh].
  destruct (Qle_bool _ _); [|discriminate].
  intros [= <-]. by split.
Qed.

(** The loop returns at the first size of the list that fits. *)
Lemma search_font_size_first (path text : string) (box_width box_height : Z)
    (sizes : list Z) (r : font * list string * Q) :
  search_font_size textbbox path text box_width box_height sizes = Some r <->
  exists before s after,
    sizes = before ++ s :: after
    /\ try_font_size textbbox path text box_width box_height s = Some r
    /\ (forall s', In s' before ->
          try_font_size textbbox path text box_width box_height s' = None).
Proof.
  induction sizes as [|s0 sizes IH]; cbn [search_font_size].
  - split; [discriminate|]. intros (before & s & after & H & _).
    by destruct before.
  - destruct (try_font_size textbbox path text box_width box_height s0)
      as [r0|] eqn:Htry.
    + split.
      * intros [= <-]. exists [], s0, sizes. repeat split; [exact Htry|].
        intros s' [].
      * intros (before & s & after & Heq & Hs & Hbefore).
        destruct before as [|b before]; cbn in Heq; injection Heq as <- Heq.
        -- congruence.
        -- rewrite (Hbefore s0) in Htry; [discriminate|by left].
    + rewrite IH. split.
      * intros (before & s & after & -> & Hs & Hbefore).
        exists (s0 :: before), s, after. repeat split; [exact Hs|].
        intros s' [<-|Hin]; [exact Htry|by apply Hbefore].
      * intros (before & s & after & Heq & Hs & Hbefore).
        destruct before as [|b before]; cbn in Heq; injection Heq as <- Heq.
        -- congruence.
        -- exists before, s, after. repeat split; [exact Heq|exact Hs|].
           intros s' Hin. apply Hbefore. by right.
Qed.

Lemma search_font_size_none (path text : string) (box_width box_height : Z)
    (sizes : list Z) :
  search_font_size textbbox path text box_width box_height sizes = None <->
  (forall s, In s sizes ->
     try_font_size textbbox path text box_width box_height s = None).
Proof.
  induction sizes as [|s0 sizes IH]; cbn [search_font_size].
  - split; [intros _ s []|reflexivity].
  - destruct (try_font_size textbbox path text box_width box_height s0)
      as [r0|] eqn:Htry.
    + split; [discriminate|]. intros H.
      rewrite (H s0) in Htry; [discriminate|by left].
    + rewrite IH. split.
      * intros H s [<-|Hin]; [exact Htry|by apply H].
      * intros H s Hin. apply H. by right.
Qed.

(** The sizes tried, in order: [start], [start - 1], ..., [stop + 1]. *)
Lemma range_down_cons (start stop : Z) :
  (stop < start)%Z ->
  range_down start stop = start :: range_down (start - 1) stop.
Proof.
  intros Hlt. unfold range_down.
  replace (Z.to_nat (start - stop)) with (S (Z.to_nat (start - 1 - stop)))
    by lia.
  cbn [seq map]. f_equal; [lia|].
  rewrite <- seq_shift, map_map. apply map_ext. intros k. lia.
Qed.

Lemma range_down_nil (start stop : Z) :
  (start <= stop)%Z -> range_down start stop = [].
Proof.
  intros Hle. unfold range_down.
  by replace (Z.to_nat (start - stop)) with 0%nat by lia.
Qed.

Lemma in_range_down (start stop s : Z) :
  In s (range_down start stop) <-> (stop < s <= start)%Z.
Proof.
  unfold range_down. rewrite in_map_iff. split.
  - intros (k & <- & Hk). apply in_seq in Hk. lia.
  - intros Hs. exists (Z.to_nat (start - s)). split; [lia|].
    apply in_seq. lia.
Qed.

(** In a split of the sizes tried, what comes before a size is larger. *)
Lemma range_down_before (start stop : Z) (before after : list Z) (s : Z) :
  range_down start stop = before ++ s :: after ->
  forall s', In s' before -> (s < s' <= start)%Z.
Proof.
  unfold range_down. intros Heq s' Hin.
  assert (Hlen : (length before < Z.to_nat (start - stop))%nat).
  { apply (f_equal length) in Heq.
    rewrite length_map, length_seq, length_app in Heq. cbn in Heq. lia. }
  assert (Hs : s = (start - Z.of_nat (length before))%Z).
  { apply (f_equal (fun l => nth_error l (length before))) in Heq.
    rewrite nth_error_app2, Nat.sub_diag in Heq by lia. cbn in Heq.
    rewrite nth_error_map, nth_error_seq in Heq.
    destruct (Nat.ltb_spec (length before) (Z.to_nat (start - stop)));
      [|lia].
    cbn in Heq. congruence. }
  apply In_nth_error in Hin as [k Hk].
  assert (Hk' : (k < length before)%nat)
    by (apply nth_error_Some; congruence).
  apply (f_equal (fun l => nth_error l k)) in Heq.
  rewrite nth_error_app1, Hk in Heq by lia.
  rewrite nth_error_map, nth_error_seq in Heq.
  destruct (Nat.ltb_spec k (Z.to_nat (start - stop))); [|lia].
  cbn in Heq. injection Heq as <-. lia.
Qed.

Lemma range_down_after (start stop : Z) (before after : list Z) (s : Z) :
  range_down start stop = before ++ s :: after ->
  forall s', In s' after -> (stop < s' < s)%Z.
Proof.
  unfold range_down. intros Heq s' Hin.
  assert (Hlen : (length before + S (length after)
                  = Z.to_nat (start - stop))%nat).
  { apply (f_equal length) in Heq.
    rewrite length_map, length_seq, length_app in Heq. cbn in Heq. lia. }
  assert (Hs : s = (start - Z.of_nat (length before))%Z).
  { apply (f_equal (fun l => nth_error l (length before))) in Heq.
    rewrite nth_error_app2, Nat.sub_diag in Heq by lia. cbn in Heq.
    rewrite nth_error_map, nth_error_seq in Heq.
    destruct (Nat.ltb_spec (length before) (Z.to_nat (start - stop)));
      [|lia].
    cbn in Heq. congruence. }
  apply In_nth_error in Hin as [k Hk].
  assert (Hk' : (k < length after)%nat)
    by (apply nth_error_Some; congruence).
  apply (f_equal (fun l => nth_error l (length before + S k))) in Heq.
  rewrite nth_error_app2 in Heq by lia.
  replace (length before + S k - length before)%nat with (S k) in Heq by lia.
  cbn [nth_error] in Heq. rewrite Hk in Heq.
  rewrite nth_error_map, nth_error_seq in Heq.
  destruct (Nat.ltb_spec (length before + S k) (Z.to_nat (start - stop)));
    [|lia].
  cbn in Heq. injection Heq as <-. lia.
Qed.

(** With a TrueType font, [calculate_optimal_font] returns the largest of
    the sizes from [max_font] down to [MIN_FONT_SIZE] at which the wrapped
    caption fits the height of the box; and when no size fits, it returns
    the font at [MIN_FALLBACK_FONT_SIZE] with the caption wrapped at that
    size. *)
Lemma calculate_optimal_font_largest (path text : string)
    (box_width box_height max_font : Z) :
  font_path self = Some path ->
  truthy path = true ->
  (forall s,
      (MIN_FONT_SIZE <= s <= max_font)%Z ->
      try_font_size textbbox path text box_width box_height s <> None ->
      exists best total,
        calculate_optimal_font textbbox self text box_width box_height
          max_font
        = (truetype path best,
           wrap_text textbbox text box_width (truetype path best), total)
        /\ try_font_size textbbox path text box_width box_height best
           = Some (truetype path best,
                   wrap_text textbbox text box_width (truetype path best),
                   total)
        /\ (MIN_FONT_SIZE <= best <= max_font)%Z
        /\ (s <= best)%Z)
  /\ ((forall s,
         (MIN_FONT_SIZE <= s <= max_font)%Z ->
         try_font_size textbbox path text box_width box_height s = None) ->
      calculate_optimal_font textbbox self text box_width box_height max_font
      = (truetype path MIN_FALLBACK_FONT_SIZE,
         wrap_text textbbox text box_width
           (truetype path MIN_FALLBACK_FONT_SIZE),
         0%Q)).
Proof.
  intros Hpath Htruthy. unfold calculate_optimal_font.
  rewrite Hpath, Htruthy. split.
  - intros s Hs Hfits.
    destruct (search_font_size textbbox path text box_width box_height
                (range_down max_font (MIN_FONT_SIZE - 1))) as [r|] eqn:Hsearch.
    2: { exfalso. apply Hfits.
         apply (proj1 (search_font_size_none _ _ _ _ _) Hsearch).
         apply in_range_down. lia. }
    apply search_font_size_first in Hsearch
      as (before & best & after & Hsplit & Htry & Hbefore).
    destruct (try_font_size_shape _ _ _ _ _ _ Htry) as [Hf Hlines].
    destruct r as [[f lines] total]. cbn in Hf, Hlines. subst f lines.
    exists best, total. split; [reflexivity|]. split; [exact Htry|].
    assert (Hbest : In best (range_down max_font (MIN_FONT_SIZE - 1)))
      by (rewrite Hsplit; apply in_elt).
    apply in_range_down in Hbest. split; [lia|].
    assert (Hin : In s (range_down max_font (MIN_FONT_SIZE - 1)))
      by (apply in_range_down; lia).
    rewrite Hsplit in Hin. apply in_app_or in Hin as [Hin|[<-|Hin]].
    + exfalso. apply Hfits. by apply Hbefore.
    + lia.
    + apply (range_down_after _ _ _ _ _ Hsplit) in Hin. lia.
  - intros Hnone.
    rewrite (proj2 (search_font_size_none path text box_width box_height
                      (range_down max_font (MIN_FONT_SIZE - 1)))).
    + reflexivity.
    + intros s Hs. apply Hnone. apply in_range_down in Hs. lia.
Qed.

(** Whatever the path taken, the lines returned are the caption wrapped
    with the font returned. *)
Lemma calculate_optimal_font_lines (text : string)
    (box_width box_height max_font : Z) :
  exists f total,
    calculate_optimal_font textbbox self text box_width box_height max_font
    = (f, wrap_text textbbox text box_width f, total).
Proof.
  unfold calculate_optimal_font.
  destruct (font_path self) as [path|]; [|by eexists _, _].
  destruct (truthy path); [|by eexists _, _].
  destruct (search_font_size textbbox path text box_width box_height
              (range_down max_font (MIN_FONT_SIZE - 1))) as [r|] eqn:Hsearch;
    [|by eexists _, _].
  apply search_font_size_first in Hsearch as (_ & s & _ & _ & Htry & _).
  destruct (try_font_size_shape _ _ _ _ _ _ Htry) as [Hf Hlines].
  destruct r as [[f lines] total]. cbn in Hf, Hlines. subst f lines.
  by eexists _, _.
Qed.

(** *** Rendering *)

(** The rendering of a caption with at least one word does not raise. *)
Lemma render_outlined_text_returns (text : string) (position box_size : Z * Z)
    (box_id : option nat) (c : list draw_op) :
  split text <> [] ->
  exists c',
    render_outlined_text textbbox self text position box_size box_id c
    = (Returned tt, c').
Proof.
  intros Hwords. unfold render_outlined_text.
  destruct position as [x y], box_size as [box_w box_h].
  destruct (calculate_optimal_font_lines text box_w box_h MAX_FONT_SIZE)
    as (f & total & ->).
  pose proof (wrap_text_nonempty text box_w f Hwords) as Hlines.
  destruct (wrap_text textbbox text box_w f) as [|line lines];
    [contradiction|].
  unfold index. cbn [lookup list_lookup]. py_unfold.
  destruct (textbbox f line) as [[[bl bt] br] bb].
  destruct (debug_boxes self); by eexists.
Qed.



(** *** The entry point *)

Lemma process_box_outcome (i : nat) (text : string) (coord : gmap string Q)
    (c : list draw_op) :
  (exists c', process_box textbbox self i text coord c = (Returned tt, c'))
  \/ (exists e c',
        process_box textbbox self i text coord c = (Raised e, c')
        /\ box_error e).
Proof.
  unfold process_box.
  destruct (truthy text); cbn [negb]; [|left; by eexists].
  unfold try_except.
  match goal with
  | |- context [match ?m c with _ => _ end] =>
      destruct (m c) as [[[]|e] c']
  end.
  - left. by eexists.
  - right. destruct (is_ValueError e); eexists _, c';
      (split; [reflexivity|]); exists (i + 1)%nat, (exn_str e);
      [by left|by right].
Qed.

Lemma process_boxes_outcome (pairs : list (string * gmap string Q)) :
  forall i c,
    (exists c', process_boxes textbbox self i pairs c = (Returned tt, c'))
    \/ (exists e c',
          process_boxes textbbox self i pairs c = (Raised e, c')
          /\ box_error e).
Proof.
  induction pairs as [|[text coord] pairs IH]; intros i c.
  - left. by eexists.
  - cbn [process_boxes]. unfold bind.
    destruct (process_box_outcome i text coord c)
      as [[c' ->]|(e & c' & -> & He)].
    + apply IH.
    + right. by eexists _, _.
Qed.

Lemma process_box_returns (i : nat) (text : string) (coord : gmap string Q)
    (c : list draw_op) :
  well_formed coord -> renderable text ->
  exists c', process_box textbbox self i text coord c = (Returned tt, c').
Proof.
  intros Hcoord Htext. unfold process_box.
  destruct (truthy text) eqn:Htruthy; cbn [negb]; [|by eexists].
  destruct Htext as [Hempty|Hwords]; [congruence|].
  unfold well_formed in Hcoord. rewrite Hcoord.
  cbn in Hcoord. unfold contains in Hcoord.
  unfold try_except. py_unfold. unfold getitem.
  destruct (coord !! "x") as [x|]; [|discriminate].
  destruct (coord !! "y") as [y|]; [|discriminate].
  destruct (coord !! "width") as [w|]; [|discriminate].
  destruct (coord !! "height") as [h|]; [|discriminate].
  match goal with
  | |- context [render_outlined_text textbbox self text ?p ?b ?n c] =>
      destruct (render_outlined_text_returns text p b n c Hwords)
        as [c' ->]
  end.
  by eexists.
Qed.

Lemma process_boxes_returns (texts : list string) :
  forall (coordinates : list (gmap string Q)) i c,
    Forall well_formed coordinates -> Forall renderable texts ->
    exists c',
      process_boxes textbbox self i (zip texts coordinates) c
      = (Returned tt, c').
Proof.
  induction texts as [|text texts IH]; intros coordinates i c Hc Ht.
  - by eexists.
  - destruct coordinates as [|coord coordinates]; [by eexists|].
    apply Forall_cons in Hc as [Hcoord Hc].
    apply Forall_cons in Ht as [Htext Ht].
    cbn [zip zip_with process_boxes]. unfold bind.
    destruct (process_box_returns i text coord c Hcoord Htext) as [c' ->].
    by apply IH.
Qed.

Lemma box_error_not_validation (e : exn) :
  box_error e -> ~ validation_error e.
Proof.
  intros (i & msg & [-> | ->]) [H|[H|(n & m & H)]]; discriminate.
Qed.

(** C3. [add_text_at_coordinates] raises a [ValueError] of the validation
    when the list of boxes is empty, when the list of captions is empty,
    and when the two lists differ in length. When both lists are non-empty
    and of equal length, it raises none of these: it processes the boxes,
    an error it raises names a box, and with boxes that have their four
    coordinates and captions that are empty or hold a word it returns. *)
Theorem add_text_at_coordinates_validates (texts : list string)
    (coordinates : list (gmap string Q)) (c : list draw_op) :
  (coordinates = [] ->
   add_text_at_coordinates textbbox self texts coordinates c
   = (Raised (Exn ValueError "No text box coordinates provided"), c))
  /\ (texts = [] ->
      exists e,
        add_text_at_coordinates textbbox self texts coordinates c
        = (Raised e, c)
        /\ validation_error e)
  /\ (length texts <> length coordinates ->
      exists e,
        add_text_at_coordinates textbbox self texts coordinates c
        = (Raised e, c)
        /\ validation_error e)
  /\ (texts <> [] -> coordinates <> [] ->
      length texts = length coordinates ->
      add_text_at_coordinates textbbox self texts coordinates c
      = process_boxes textbbox self 0 (zip texts coordinates) c
      /\ (forall e c',
            add_text_at_coordinates textbbox self texts coordinates c
            = (Raised e, c') ->
            box_error e /\ ~ validation_error e)
      /\ (Forall well_formed coordinates -> Forall renderable texts ->
          exists c',
            add_text_at_coordinates textbbox self texts coordinates c
            = (Returned tt, c'))).
Proof.
  unfold add_text_at_coordinates. repeat split.
  - by intros ->.
  - intros ->. destruct coordinates; eexists; (split; [reflexivity|]);
      [by left|right; by left].
  - intros Hlen. destruct coordinates as [|coord coordinates];
      [eexists; split; [reflexivity|by left]|].
    destruct texts as [|text texts];
      [eexists; split; [reflexivity|right; by left]|].
    cbn [nonempty negb].
    destruct (Nat.eqb_spec (length (text :: texts))
                (length (coord :: coordinates))); [contradiction|].
    cbn [negb]. eexists. split; [reflexivity|].
    right. right. by eexists _, _.
  - destruct coordinates; [contradiction|]. destruct texts; [contradiction|].
    cbn [nonempty negb]. rewrite H1, Nat.eqb_refl. reflexivity.
  - destruct coordinates; [contradiction|]. destruct texts; [contradiction|].
    cbn [nonempty negb] in H2. rewrite H1, Nat.eqb_refl in H2.
    cbn [negb] in H2.
    destruct (process_boxes_outcome (zip (s :: texts) (g :: coordinates))
                0 c) as [[c'' Hret]|(e' & c'' & Hraise & He)];
      [congruence|].
    assert (e = e') as -> by congruence. exact He.
  - destruct coordinates; [contradiction|]. destruct texts; [contradiction|].
    cbn [nonempty negb] in H2. rewrite H1, Nat.eqb_refl in H2.
    cbn [negb] in H2.
    destruct (process_boxes_outcome (zip (s :: texts) (g :: coordinates))
                0 c) as [[c'' Hret]|(e' & c'' & Hraise & He)];
      [congruence|].
    assert (e = e') as -> by congruence.
    by apply box_error_not_validation.
  - intros Hc Ht.
    destruct coordinates; [contradiction|]. destruct texts; [contradiction|].
    cbn [nonempty negb]. rewrite H1, Nat.eqb_refl. cbn [negb].
    by apply process_boxes_returns.
Qed.

End TextOverlayProperties.

(** ** The font fit *)

Section FontFitProperties.
Import TextOverlay.

Variable textbbox : font -> string -> Z * Z * Z * Z.
Variable self : overlay.

(** The inner loop of [calculate_optimal_font] adds the heights of the
    lines up and keeps the height of the last one. *)
Lemma measure_fold_heights (f : font) (lines : list string) :
  forall total maxw lh,
  exists maxw',
    fold_left (measure_step textbbox f) lines (total, maxw, lh)
    = ((total + lines_height textbbox f lines)%Z, maxw',
       match last lines with
       | Some line => bbox_height (textbbox f line)
       | None => lh
       end).
Proof.
  induction lines as [|line lines IH]; intros total maxw lh.
  - exists maxw. cbn. by rewrite Z.add_0_r.
  - cbn [fold_left]. unfold measure_step at 2.
    cbn [lines_height fold_right]. fold (lines_height textbbox f lines).
    unfold bbox_height at 1.
    destruct (textbbox f line) as [[[bl bt] br] bb] eqn:Hline.
    destruct (IH (total + (bb - bt))%Z (Z.max maxw (br - bl)) (bb - bt)%Z)
      as [maxw' ->].
    exists maxw'. rewrite last_cons. f_equal; [f_equal; lia|].
    destruct (last lines); [reflexivity|].
    unfold bbox_height. by rewrite Hline.
Qed.

(** The test of the loop of [calculate_optimal_font] at a size is the fit
    criterion, and the height it returns is the height of the lines with
    their spacing. *)
Lemma try_font_size_fits (path text : string) (box_width box_height : Z)
    (size : Z) :
  (fits_box textbbox path text box_width box_height size ->
   try_font_size textbbox path text box_width box_height size
   = Some (truetype path size,
           wrap_text textbbox text box_width (truetype path size),
           spaced_height textbbox (truetype path size)
             (wrap_text textbbox text box_width (truetype path size))))
  /\ (~ fits_box textbbox path text box_width box_height size ->
      try_font_size textbbox path text box_width box_height size = None).
Proof.
  unfold try_font_size, fits_box, spaced_height, last_line_height.
  set (f := truetype path size).
  set (lines := wrap_text textbbox text box_width f).
  destruct (measure_fold_heights f lines 0%Z 0%Z 0%Z) as [maxw' ->].
  rewrite Z.add_0_l.
  destruct (Nat.ltb_spec 1 (length lines)) as [Hlt|Hge].
  - split.
    + intros Hfits. apply Qle_bool_iff in Hfits. by rewrite Hfits.
    + intros Hnot. destruct (Qle_bool _ _) eqn:Hle; [|reflexivity].
      exfalso. apply Hnot. by apply Qle_bool_iff.
  - split.
    + intros Hfits. apply Qle_bool_iff in Hfits. by rewrite Hfits.
    + intros Hnot. destruct (Qle_bool _ _) eqn:Hle; [|reflexivity].
      exfalso. apply Hnot. by apply Qle_bool_iff.
Qed.

Lemma try_font_size_fits_iff (path text : string) (box_width box_height : Z)
    (size : Z) :
  try_font_size textbbox path text box_width box_height size <> None
  <-> fits_box textbbox path text box_width box_height size.
Proof.
  destruct (try_font_size_fits path text box_width box_height size)
    as [Hfits Hnot].
  split.
  - intros Htry.
    destruct (Qlt_le_dec (inject_Z box_height)
                (spaced_height textbbox (truetype path size)
                   (wrap_text textbbox text box_width (truetype path size))
                 * (12 # 10))) as [Hlt|Hle]; [|exact Hle].
    exfalso. apply Htry, Hnot. intros Hle.
    apply (Qlt_not_le _ _ Hlt Hle).
  - intros H. by rewrite (Hfits H).
Qed.


(** *** Longer captions *)

Lemma lines_height_app (f : font) (a b : list string) :
  lines_height textbbox f (a ++ b)
  = (lines_height textbbox f a + lines_height textbbox f b)%Z.
Proof.
  unfold lines_height. induction a as [|x a IH]; cbn; [reflexivity|].
  rewrite IH. lia.
Qed.

Lemma lines_height_nonneg (f : font) (lines : list string) :
  no_negative_height textbbox f -> (0 <= lines_height textbbox f lines)%Z.
Proof.
  intros Hpos. unfold lines_height.
  induction lines as [|x lines IH]; cbn; [lia|].
  specialize (Hpos x). lia.
Qed.

Lemma last_line_height_nonneg (f : font) (lines : list string) :
  no_negative_height textbbox f ->
  (0 <= last_line_height textbbox f lines)%Z.
Proof.
  intros Hpos. unfold last_line_height.
  destruct (last lines); [apply Hpos|lia].
Qed.

(** Lines are at least as high, added up, as the last of them. *)
Lemma lines_height_last (f : font) (lines : list string) :
  no_negative_height textbbox f ->
  (last_line_height textbbox f lines <= lines_height textbbox f lines)%Z.
Proof.
  intros Hpos. unfold last_line_height.
  destruct (last lines) as [line|] eqn:Hlast;
    [|by apply lines_height_nonneg].
  apply last_Some in Hlast as [before ->].
  rewrite lines_height_app.
  pose proof (lines_height_nonneg f before Hpos).
  unfold lines_height at 2. cbn. lia.
Qed.

(** The loop of [wrap_text] only adds to the lines it has closed, and has
    a current line from the first word on. *)
Lemma wrap_fold_closed (max_width : Z) (f : font) (words : list string) :
  forall st,
    exists closed,
      fst (fold_left (wrap_step textbbox max_width f) words st)
      = fst st ++ closed.
Proof.
  induction words as [|word words IH]; intros st; cbn [fold_left].
  - exists []. by rewrite app_nil_r.
  - destruct (IH (wrap_step textbbox max_width f st word)) as [closed ->].
    destruct st as [lines current]. unfold wrap_step.
    destruct (textbbox f _) as [[[bl bt] br] bb].
    destruct (br - bl <=? max_width)%Z; cbn [fst].
    + by exists closed.
    + destruct (nonempty current).
      * exists (join " " current :: closed). by rewrite <- app_assoc.
      * by exists closed.
Qed.

Lemma wrap_fold_current (max_width : Z) (f : font) (words : list string) :
  forall st,
    nonempty (snd st) = true ->
    nonempty (snd (fold_left (wrap_step textbbox max_width f) words st))
    = true.
Proof.
  induction words as [|word words IH]; intros st Hst; cbn [fold_left];
    [exact Hst|].
  apply IH. destruct st as [lines current]. unfold wrap_step.
  destruct (textbbox f _) as [[[bl bt] br] bb].
  destruct (br - bl <=? max_width)%Z; cbn [snd]; [|reflexivity].
  by destruct current.
Qed.

Lemma wrap_text_finish (text : string) (max_width : Z) (f : font) :
  wrap_text textbbox text max_width f
  = let st :=
      fold_left (wrap_step textbbox max_width f) (split text) ([], []) in
    if nonempty (snd st) then fst st ++ [join " " (snd st)] else fst st.
Proof. unfold wrap_text. by destruct (fold_left _ _ _). Qed.

(** When no line has a negative height and the caption does not end on a
    lower line than its prefix, its lines are not lower, added up, than
    the lines of the prefix. *)
Lemma wrap_text_height_prefix (short long : string) (extra : list string)
    (max_width : Z) (f : font) :
  no_negative_height textbbox f ->
  split long = split short ++ extra ->
  (last_line_height textbbox f (wrap_text textbbox short max_width f)
   <= last_line_height textbbox f (wrap_text textbbox long max_width f))%Z ->
  (lines_height textbbox f (wrap_text textbbox short max_width f)
   <= lines_height textbbox f (wrap_text textbbox long max_width f))%Z.
Proof.
  intros Hpos Hwords. rewrite !wrap_text_finish. cbv zeta.
  rewrite Hwords, fold_left_app.
  set (st := fold_left (wrap_step textbbox max_width f) (split short)
               ([], [])).
  destruct (wrap_fold_closed max_width f extra st) as [closed Hclosed].
  pose proof (wrap_fold_current max_width f extra st) as Hcurrent.
  destruct (fold_left (wrap_step textbbox max_width f) extra st)
    as [lines' current'].
  destruct st as [lines current]. cbn [fst snd] in *. subst lines'.
  destruct (nonempty current).
  - rewrite (Hcurrent eq_refl). intros Hlast.
    rewrite <- app_assoc.
    rewrite (lines_height_app f lines (closed ++ [join " " current'])).
    pose proof (lines_height_last f (closed ++ [join " " current']) Hpos)
      as Hsum.
    unfold last_line_height in Hlast, Hsum.
    rewrite !last_snoc in Hlast. rewrite last_snoc in Hsum.
    rewrite lines_height_app. unfold lines_height at 2. cbn. lia.
  - intros _.
    assert (Hrest :
              (0 <= lines_height textbbox f
                      (closed
                       ++ (if nonempty current'
                           then [join " " current'] else [])))%Z)
      by (by apply lines_height_nonneg).
    destruct (nonempty current').
    + rewrite <- app_assoc, lines_height_app. lia.
    + rewrite app_nil_r in Hrest. rewrite lines_height_app. lia.
Qed.

Lemma spaced_height_prefix (short long : string) (extra : list string)
    (max_width : Z) (f : font) :
  no_negative_height textbbox f ->
  split long = split short ++ extra ->
  (last_line_height textbbox f (wrap_text textbbox short max_width f)
   <= last_line_height textbbox f (wrap_text textbbox long max_width f))%Z ->
  (spaced_height textbbox f (wrap_text textbbox short max_width f)
   <= spaced_height textbbox f (wrap_text textbbox long max_width f))%Q.
Proof.
  intros Hpos0 Hwords Hlast.
  pose proof (wrap_text_height_prefix short long extra max_width f Hpos0
                Hwords Hlast) as Hsum.
  pose proof (wrap_text_prefix textbbox short long extra max_width f Hwords)
    as Hlen.
  pose proof (last_line_height_nonneg f
                (wrap_text textbbox short max_width f) Hpos0) as Hpos.
  unfold spaced_height.
  set (ls := wrap_text textbbox short max_width f) in *.
  set (ll := wrap_text textbbox long max_width f) in *.
  set (hs := last_line_height textbbox f ls) in *.
  set (hl := last_line_height textbbox f ll) in *.
  set (ts := lines_height textbbox f ls) in *.
  set (tl := lines_height textbbox f ll) in *.
  destruct (Nat.ltb_spec 1 (length ls)), (Nat.ltb_spec 1 (length ll));
    try lia.
  - unfold Qle, Qplus, Qmult, inject_Z. cbn. nia.
  - unfold Qle, Qplus, Qmult, inject_Z. cbn. nia.
  - unfold Qle, inject_Z. cbn. lia.
Qed.

(** When no line has a negative height, a size at which a caption fits is
    a size at which a prefix of it fits, provided the caption does not end
    on a lower line than the prefix. *)
Lemma fits_box_prefix (path short long : string) (extra : list string)
    (box_width box_height size : Z) :
  no_negative_height textbbox (truetype path size) ->
  split long = split short ++ extra ->
  ends_no_lower textbbox path short long box_width size ->
  fits_box textbbox path long box_width box_height size ->
  fits_box textbbox path short box_width box_height size.
Proof.
  intros Hpos0 Hwords Hends Hlong. unfold fits_box in *.
  eapply Qle_trans; [|exact Hlong].
  apply Qmult_le_compat_r; [|discriminate].
  by apply spaced_height_prefix with extra.
Qed.

(** C9 (amended). For a fixed box, a TrueType font whose metric gives no
    line a negative height, and two captions of which the longer holds the
    words of the shorter and more, without ending on a lower line at the
    sizes tried: when the longer caption fits at a size tried, the size
    chosen for it is not larger than the size chosen for the shorter
    caption; when it fits at no size tried, it gets the size
    [MIN_FALLBACK_FONT_SIZE], which is larger than the size of the shorter
    caption exactly when the shorter caption was fitted at a size below
    it. *)
Theorem longer_caption_font_size (path short long : string)
    (extra : list string) (box_width box_height : Z) :
  font_path self = Some path ->
  truthy path = true ->
  split long = split short ++ extra ->
  (forall size,
      tried size -> no_negative_height textbbox (truetype path size)) ->
  (forall size,
      tried size -> ends_no_lower textbbox path short long box_width size) ->
  ((exists size,
       tried size
       /\ fits_box textbbox path long box_width box_height size) ->
   (font_size (chosen_font textbbox self long box_width box_height)
    <= font_size (chosen_font textbbox self short box_width box_height))%Z)
  /\ ((forall size,
         tried size ->
         ~ fits_box textbbox path long box_width box_height size) ->
      chosen_font textbbox self long box_width box_height
      = truetype path MIN_FALLBACK_FONT_SIZE
      /\ ((font_size (chosen_font textbbox self short box_width box_height)
           < font_size (chosen_font textbbox self long box_width box_height))%Z
          <-> exists best,
                (best < MIN_FALLBACK_FONT_SIZE)%Z
                /\ tried best
                /\ fits_box textbbox path short box_width box_height best
                /\ chosen_font textbbox self short box_width box_height
                   = truetype path best)).
Proof.
  intros Hpath Htruthy Hwords Hpos0 Hends.
  destruct (calculate_optimal_font_largest textbbox self path long box_width
              box_height MAX_FONT_SIZE Hpath Htruthy) as [Hfound_l Hnone_l].
  destruct (calculate_optimal_font_largest textbbox self path short
              box_width box_height MAX_FONT_SIZE Hpath Htruthy)
    as [Hfound_s Hnone_s].
  split.
  - intros (size & Hsize & Hfits).
    destruct (Hfound_l size Hsize)
      as (best_l & total_l & Hl & Htry_l & Hrange_l & _).
    { by apply try_font_size_fits_iff. }
    assert (Hfits_s :
              try_font_size textbbox path short box_width box_height best_l
              <> None).
    { apply try_font_size_fits_iff.
      apply (fits_box_prefix path short long extra);
        [by apply Hpos0|exact Hwords|by apply Hends|].
      apply try_font_size_fits_iff. by rewrite Htry_l. }
    destruct (Hfound_s best_l Hrange_l Hfits_s)
      as (best_s & total_s & Hs & _ & _ & Hle).
    unfold chosen_font. rewrite Hl, Hs. exact Hle.
  - intros Hnofit.
    assert (Hl : chosen_font textbbox self long box_width box_height
                 = truetype path MIN_FALLBACK_FONT_SIZE).
    { unfold chosen_font. rewrite Hnone_l; [reflexivity|].
      intros s Hs.
      by apply (proj2 (try_font_size_fits path long box_width box_height
                         s)), Hnofit. }
    split; [exact Hl|]. rewrite Hl. cbn [font_size]. split.
    + intros Hlt.
      destruct (search_font_size textbbox path short box_width box_height
                  (range_down MAX_FONT_SIZE (MIN_FONT_SIZE - 1)))
        as [r|] eqn:Hsearch.
      * apply search_font_size_first in Hsearch
          as (before & best & after & Hsplit & Htry & _).
        assert (Hin : In best (range_down MAX_FONT_SIZE (MIN_FONT_SIZE - 1)))
          by (rewrite Hsplit; apply in_elt).
        apply in_range_down in Hin.
        assert (Hbest : tried best) by (unfold tried; lia).
        destruct (Hfound_s best Hbest)
          as (best' & total & Hs & Htry' & Hrange & Hle);
          [congruence|].
        assert (Hfits : fits_box textbbox path short box_width box_height
                          best')
          by (apply try_font_size_fits_iff; by rewrite Htry').
        exists best'. unfold chosen_font in Hlt |- *. rewrite Hs in Hlt |- *.
        cbn in Hlt.
        split; [exact Hlt|split; [exact Hrange|split; [exact Hfits|reflexivity]]].
      * exfalso. unfold chosen_font in Hlt. rewrite Hnone_s in Hlt.
        -- cbn in Hlt. lia.
        -- intros s Hs.
           apply (proj1 (search_font_size_none textbbox path short box_width
                           box_height _) Hsearch).
           apply in_range_down. lia.
    + intros (best & Hlt & _ & _ & ->). exact Hlt.
Qed.

End FontFitProperties.

Section TextOverlayExamples.
Import TextOverlay.

Lemma add_text_at_coordinates_validates_witness :
  (exists c',
      add_text_at_coordinates mono_textbbox
        (example_overlay (Some "fonts/impact.ttf"))
        ["HELLO WORLD"] [example_coord] []
      = (Returned tt, c'))
  /\ add_text_at_coordinates mono_textbbox
       (example_overlay (Some "fonts/impact.ttf"))
       ["HELLO WORLD"] [] []
     = (Raised (Exn ValueError "No text box coordinates provided"), [])
  /\ (exists e,
        add_text_at_coordinates mono_textbbox
          (example_overlay (Some "fonts/impact.ttf"))
          ["HELLO"; "WORLD"] [example_coord] []
        = (Raised e, [])
        /\ validation_error e).
Proof.
  split; [|split].
  - destruct (add_text_at_coordinates_validates mono_textbbox
                (example_overlay (Some "fonts/impact.ttf"))
                ["HELLO WORLD"] [example_coord] [])
      as (_ & _ & _ & H).
    destruct H as (_ & _ & Hret); try discriminate; try reflexivity.
    apply Hret.
    + constructor; [vm_compute; reflexivity|constructor].
    + constructor; [|constructor]. right. vm_compute. discriminate.
  - apply (add_text_at_coordinates_validates mono_textbbox
             (example_overlay (Some "fonts/impact.ttf"))
             ["HELLO WORLD"] [] []).
    reflexivity.
  - apply (add_text_at_coordinates_validates mono_textbbox
             (example_overlay (Some "fonts/impact.ttf"))
             ["HELLO"; "WORLD"] [example_coord] []).
    cbn. lia.
Defined.

Lemma mono_no_negative_height (path : string) (size : Z) :
  tried size -> no_negative_height mono_textbbox (truetype path size).
Proof.
  unfold tried, MIN_FONT_SIZE. intros Hsize line.
  unfold bbox_height, mono_textbbox, font_size. lia.
Qed.

Lemma mono_ends_no_lower (path short long : string) (extra : list string)
    (box_width size : Z) :
  tried size ->
  split long = split short ++ extra ->
  ends_no_lower mono_textbbox path short long box_width size.
Proof.
  unfold tried, MIN_FONT_SIZE. intros Hsize Hwords.
  unfold ends_no_lower, last_line_height.
  destruct (split short) as [|w ws] eqn:Hshort.
  - rewrite (wrap_text_blank mono_textbbox short box_width _ Hshort).
    cbn [last].
    destruct (last _); unfold bbox_height, mono_textbbox, font_size; lia.
  - assert (Hlong : split long <> []) by (rewrite Hwords; discriminate).
    pose proof (wrap_text_nonempty mono_textbbox long box_width
                  (truetype path size) Hlong) as Hne.
    destruct (last (wrap_text mono_textbbox long box_width _)) eqn:Hlast.
    + destruct (last (wrap_text mono_textbbox short box_width _));
        unfold bbox_height, mono_textbbox, font_size; lia.
    + apply last_None in Hlast. contradiction.
Qed.

Lemma ink_no_negative_height (path : string) (size : Z) :
  tried size -> no_negative_height ink_textbbox (truetype path size).
Proof.
  unfold tried, MIN_FONT_SIZE. intros Hsize line.
  unfold bbox_height, ink_textbbox, font_size.
  destruct (String.eqb line "."); lia.
Qed.

Lemma sunk_ends_no_lower (size : Z) :
  tried size ->
  ends_no_lower sunk_textbbox "fonts/impact.ttf" "x y" "x y z" 25 size.
Proof.
  intros Hsize. unfold ends_no_lower.
  assert (Hall :
            forallb
              (fun size =>
                 (last_line_height sunk_textbbox
                    (truetype "fonts/impact.ttf" size)
                    (wrap_text sunk_textbbox "x y" 25
                       (truetype "fonts/impact.ttf" size))
                  <=? last_line_height sunk_textbbox
                        (truetype "fonts/impact.ttf" size)
                        (wrap_text sunk_textbbox "x y z" 25
                           (truetype "fonts/impact.ttf" size)))%Z)
              (range_down MAX_FONT_SIZE (MIN_FONT_SIZE - 1))
            = true) by (vm_compute; reflexivity).
  rewrite forallb_forall in Hall. apply Z.leb_le, Hall.
  apply in_range_down. unfold tried in Hsize. lia.
Qed.



(** C9 as stated fails, in two ways. In a box 100 wide and 15 high, with
    a monospace font, the caption of one letter is fitted at size 12, and
    the longer caption of six letters fits at no size from 200 down to 10
    and gets the fallback size 40. And between two captions that are both
    fitted: the spacing is taken from the height of the last line, so a
    longer caption that ends on a lower line can fit at a larger size. In
    a box 40 wide and 50 high, with a metric that measures the ink and
    gives no line a negative height, the caption ["aa Tg"] is fitted at
    size 18 and the longer ["aa Tg ."], whose last line is a full stop, at
    size 20. The heights must not be negative either: in a box 25 wide and
    24 high, with a metric that gives lines a negative height, the caption
    ["x y"] is fitted at size 32 and the longer ["x y z"], which ends on a
    line of the same height, at size 44. *)
Lemma longer_caption_larger_font :
  (split "a b c d e f" = split "a" ++ ["b"; "c"; "d"; "e"; "f"]
   /\ chosen_font mono_textbbox (example_overlay (Some "fonts/impact.ttf"))
        "a" 100 15
      = truetype "fonts/impact.ttf" 12
   /\ chosen_font mono_textbbox (example_overlay (Some "fonts/impact.ttf"))
        "a b c d e f" 100 15
      = truetype "fonts/impact.ttf" 40
   /\ (12 < 40)%Z)
  /\ (split "aa Tg ." = split "aa Tg" ++ ["."]
      /\ (forall size,
            tried size ->
            no_negative_height ink_textbbox
              (truetype "fonts/impact.ttf" size))
      /\ chosen_font ink_textbbox (example_overlay (Some "fonts/impact.ttf"))
           "aa Tg" 40 50
         = truetype "fonts/impact.ttf" 18
      /\ fits_box ink_textbbox "fonts/impact.ttf" "aa Tg" 40 50 18
      /\ chosen_font ink_textbbox (example_overlay (Some "fonts/impact.ttf"))
           "aa Tg ." 40 50
         = truetype "fonts/impact.ttf" 20
      /\ fits_box ink_textbbox "fonts/impact.ttf" "aa Tg ." 40 50 20
      /\ ~ ends_no_lower ink_textbbox "fonts/impact.ttf" "aa Tg" "aa Tg ."
             40 20
      /\ (18 < 20)%Z)
  /\ (split "x y z" = split "x y" ++ ["z"]
      /\ (forall size,
            tried size ->
            ends_no_lower sunk_textbbox "fonts/impact.ttf" "x y" "x y z"
              25 size)
      /\ chosen_font sunk_textbbox
           (example_overlay (Some "fonts/impact.ttf")) "x y" 25 24
         = truetype "fonts/impact.ttf" 32
      /\ chosen_font sunk_textbbox
           (example_overlay (Some "fonts/impact.ttf")) "x y z" 25 24
         = truetype "fonts/impact.ttf" 44
      /\ (32 < 44)%Z).
Proof.
  split; [|split].
  - split; [reflexivity|]. split; [vm_compute; reflexivity|].
    split; [vm_compute; reflexivity|lia].
  - split; [reflexivity|].
    split; [intros size; apply ink_no_negative_height|].
    split; [vm_compute; reflexivity|].
    split; [unfold fits_box; vm_compute; discriminate|].
    split; [vm_compute; reflexivity|].
    split; [unfold fits_box; vm_compute; discriminate|].
    split; [|lia].
    unfold ends_no_lower. vm_compute. intros H. by apply H.
  - split; [reflexivity|].
    split; [|split; [vm_compute; reflexivity|]];
      [|split; [vm_compute; reflexivity|lia]].
    intros size Hsize. by apply sunk_ends_no_lower.
Qed.

Lemma longer_caption_font_size_witness :
  (font_size
     (chosen_font mono_textbbox (example_overlay (Some "fonts/impact.ttf"))
        "a b" 100 15)
   <= font_size
        (chosen_font mono_textbbox
           (example_overlay (Some "fonts/impact.ttf")) "a" 100 15))%Z
  /\ chosen_font mono_textbbox (example_overlay (Some "fonts/impact.ttf"))
       "a b c d e f" 100 15
     = truetype "fonts/impact.ttf" MIN_FALLBACK_FONT_SIZE.
Proof.
  split.
  - apply (proj1 (longer_caption_font_size mono_textbbox
                    (example_overlay (Some "fonts/impact.ttf"))
                    "fonts/impact.ttf" "a" "a b" ["b"] 100 15
                    eq_refl eq_refl eq_refl
                    (mono_no_negative_height "fonts/impact.ttf")
                    (fun size Hsize =>
                       mono_ends_no_lower "fonts/impact.ttf" "a" "a b" ["b"]
                         100 size Hsize eq_refl))).
    exists 12%Z. split; [unfold tried, MIN_FONT_SIZE, MAX_FONT_SIZE; lia|].
    unfold fits_box. vm_compute. discriminate.
  - apply (proj2 (longer_caption_font_size mono_textbbox
                    (example_overlay (Some "fonts/impact.ttf"))
                    "fonts/impact.ttf" "a" "a b c d e f"
                    ["b"; "c"; "d"; "e"; "f"] 100 15
                    eq_refl eq_refl eq_refl
                    (mono_no_negative_height "fonts/impact.ttf")
                    (fun size Hsize =>
                       mono_ends_no_lower "fonts/impact.ttf" "a"
                         "a b c d e f" ["b"; "c"; "d"; "e"; "f"]
                         100 size Hsize eq_refl))).
    intros s Hs Hfits.
    apply try_font_size_fits_iff in Hfits. apply Hfits.
    apply (proj1 (search_font_size_none mono_textbbox "fonts/impact.ttf"
                    "a b c d e f" 100 15
                    (range_down MAX_FONT_SIZE (MIN_FONT_SIZE - 1)))).
    + vm_compute. reflexivity.
    + apply in_range_down. unfold tried in Hs. lia.
Defined.

End TextOverlayExamples.

(** * Further properties *)

(** ** Wrapping: the words and the widths of the lines *)

Section SplitProperties.

Lemma rev_app_no_space (a b : string) :
  no_space (String.rev_app a b) = no_space a && no_space b.
Proof.
  revert b. induction a as [|c a IH]; intros b; cbn; [reflexivity|].
  rewrite IH. cbn. destruct (isspace c), (no_space a), (no_space b); reflexivity.
Qed.

Lemma rev_app_truthy (a b : string) :
  truthy (String.rev_app a b) = truthy a || truthy b.
Proof.
  revert b. induction a as [|c a IH]; intros b; cbn; [reflexivity|].
  rewrite IH. cbn. by rewrite orb_true_r.
Qed.

Lemma rev_app_rev_app (a b c : string) :
  String.rev_app (String.rev_app a b) c = String.rev_app b (a +:+ c).
Proof.
  revert b c. induction a as [|x a IH]; intros b c; cbn; [reflexivity|].
  by rewrite IH.
Qed.

Lemma app_cons (c : ascii) (s t : string) :
  String c s +:+ t = String c (s +:+ t).
Proof. reflexivity. Qed.

Lemma app_empty_r (s : string) : s +:+ EmptyString = s.
Proof.
  induction s as [|c s IH]; [reflexivity|]. by rewrite app_cons, IH.
Qed.

Lemma rev_rev (s : string) : String.rev (String.rev s) = s.
Proof.
  unfold String.rev. rewrite rev_app_rev_app. cbn [String.rev_app].
  apply app_empty_r.
Qed.

Lemma app_assoc_string (a b c : string) : (a +:+ b) +:+ c = a +:+ (b +:+ c).
Proof.
  induction a as [|x a IH]; [reflexivity|]. by rewrite !app_cons, IH.
Qed.

(** Reading a run of characters that are not whitespace. *)
Lemma split_go_word (w cur s : string) :
  no_space w = true ->
  split_go cur (w +:+ s) = split_go (String.rev_app w cur) s.
Proof.
  revert cur. induction w as [|c w IH]; intros cur Hw; [reflexivity|].
  cbn in Hw. apply andb_prop in Hw as [Hc Hw].
  apply negb_true_iff in Hc.
  rewrite app_cons. cbn [split_go String.rev_app]. rewrite Hc. by apply IH.
Qed.

Lemma split_word (w : string) : is_word w = true -> split w = [w].
Proof.
  unfold is_word. intros Hw. apply andb_prop in Hw as [Ht Hs].
  unfold split. rewrite <- (app_empty_r w) at 1.
  rewrite split_go_word by exact Hs. cbn.
  rewrite rev_app_truthy, Ht. cbn.
  change (String.rev_app w EmptyString) with (String.rev w).
  by rewrite rev_rev.
Qed.

Lemma split_word_space (w rest : string) :
  is_word w = true -> split (w +:+ " " +:+ rest) = w :: split rest.
Proof.
  unfold is_word. intros Hw. apply andb_prop in Hw as [Ht Hs].
  unfold split. rewrite split_go_word by exact Hs.
  change (" " +:+ rest) with (String " " rest).
  cbn [split_go]. change (isspace " ") with true. cbn iota.
  rewrite rev_app_truthy, Ht. cbn [orb].
  change (String.rev_app w EmptyString) with (String.rev w).
  by rewrite rev_rev.
Qed.

(** Splitting the join of words gives the words back. *)
Lemma split_join (ws : list string) :
  Forall (fun w => is_word w = true) ws -> split (join " " ws) = ws.
Proof.
  induction 1 as [|w ws Hw Hws IH]; [reflexivity|].
  destruct ws as [|w' ws].
  - cbn. by apply split_word.
  - change (join " " (w :: w' :: ws))
      with (w +:+ " " +:+ join " " (w' :: ws)).
    rewrite split_word_space by exact Hw. by rewrite IH.
Qed.

Lemma split_go_words (s cur : string) :
  no_space cur = true ->
  Forall (fun w => is_word w = true) (split_go cur s).
Proof.
  revert cur. induction s as [|c s IH]; intros cur Hcur; cbn.
  - destruct (truthy cur) eqn:Ht; [|constructor].
    constructor; [|constructor]. unfold is_word, String.rev.
    by rewrite rev_app_truthy, rev_app_no_space, Ht, Hcur.
  - destruct (isspace c) eqn:Hc.
    + destruct (truthy cur) eqn:Ht; [|by apply IH].
      constructor; [|by apply IH]. unfold is_word, String.rev.
      by rewrite rev_app_truthy, rev_app_no_space, Ht, Hcur.
    + apply IH. cbn. by rewrite Hc, Hcur.
Qed.

(** [str.split] returns words. *)
Lemma split_words (s : string) :
  Forall (fun w => is_word w = true) (split s).
Proof. by apply split_go_words. Qed.

Lemma join_snoc (g : list string) (w : string) :
  g <> [] -> join " " (g ++ [w]) = join " " g +:+ " " +:+ w.
Proof.
  induction g as [|a g IH]; [congruence|]. intros _.
  destruct g as [|b g]; [reflexivity|].
  change (join " " ((a :: b :: g) ++ [w]))
    with (a +:+ " " +:+ join " " ((b :: g) ++ [w])).
  rewrite IH by discriminate.
  change (join " " (a :: b :: g)) with (a +:+ " " +:+ join " " (b :: g)).
  by rewrite !app_assoc_string.
Qed.

End SplitProperties.

Section WrapProperties.
Import TextOverlay.

Variable textbbox : font -> string -> Z * Z * Z * Z.

(** The line that [wrap_step] measures is the current line with the word
    added. *)
Lemma wrap_step_groups (max_width : Z) (f : font) (lines cur : list string)
    (word : string) :
  wrap_step textbbox max_width f (lines, cur) word
  = if (line_width textbbox f (join " " (cur ++ [word])) <=? max_width)%Z
    then (lines, cur ++ [word])
    else ((if nonempty cur then lines ++ [join " " cur] else lines), [word]).
Proof.
  unfold wrap_step, line_width.
  assert (Htest : (if nonempty cur then join " " (cur ++ [word]) else word)
                  = join " " (cur ++ [word])) by (by destruct cur).
  rewrite Htest.
  by destruct (textbbox f (join " " (cur ++ [word]))) as [[[bl bt] br] bb].
Qed.

Lemma wrap_inv_step (max_width : Z) (f : font) (done : list string)
    (st : list string * list string) (word : string) :
  wrap_inv textbbox max_width f done st ->
  wrap_inv textbbox max_width f (done ++ [word])
    (wrap_step textbbox max_width f st word).
Proof.
  destruct st as [lines cur].
  intros (groups & Hlines & Hdone & Hne & Hcur & Hfit & Hbreak).
  cbn [fst snd] in *. rewrite wrap_step_groups.
  destruct (Z.leb_spec (line_width textbbox f (join " " (cur ++ [word])))
              max_width) as [Hle|Hgt].
  - exists groups. cbn [fst snd]. split; [exact Hlines|].
    split; [by rewrite app_assoc, Hdone|]. split; [exact Hne|].
    split; [by destruct cur|]. split.
    + assert (Hn : nonempty (cur ++ [word]) = true) by (by destruct cur).
      rewrite Hn. apply Forall_app. split.
      * apply Forall_app in Hfit. tauto.
      * constructor; [by left|constructor].
    + intros i g g' w Hg Hg' Hw.
      apply lookup_snoc_Some in Hg as [[Hi Hg]|[Hi Hg]];
        apply lookup_snoc_Some in Hg' as [[Hi' Hg']|[Hi' Hg']]; try lia.
      * apply (Hbreak i g g' w); [| |exact Hw];
          apply lookup_snoc_Some; left; by split.
      * destruct cur as [|c cur].
        { rewrite (Hcur eq_refl) in Hi. cbn in Hi. lia. }
        subst g'. cbn in Hw. injection Hw as <-.
        apply (Hbreak i g (c :: cur) c).
        -- apply lookup_snoc_Some. left. by split.
        -- apply lookup_snoc_Some. right. by split.
        -- reflexivity.
  - set (groups' := if nonempty cur then groups ++ [cur] else groups).
    exists groups'. cbn [fst snd].
    assert (Hfit' : groups ++ (if nonempty cur then [cur] else []) = groups').
    { unfold groups'. destruct cur; cbn; [by rewrite app_nil_r|reflexivity]. }
    split; [|split; [|split; [|split; [|split]]]].
    + unfold groups'. destruct cur; cbn; [exact Hlines|].
      by rewrite map_app, Hlines.
    + f_equal. rewrite <- Hdone. unfold groups'.
      destruct cur; cbn; [by rewrite app_nil_r|].
      by rewrite concat_app; cbn; rewrite app_nil_r.
    + unfold groups'. destruct cur; cbn; [exact Hne|].
      apply Forall_app. split; [exact Hne|]. by constructor.
    + discriminate.
    + cbn. apply Forall_app. split; [by rewrite <- Hfit'|].
      constructor; [by right|constructor].
    + intros i g g' w Hg Hg' Hw.
      destruct cur as [|c cur].
      { unfold groups' in *. cbn in *. rewrite (Hcur eq_refl) in Hg'.
        by destruct i. }
      unfold groups' in *. cbn [nonempty] in *.
      apply lookup_snoc_Some in Hg as [[Hi Hg]|[Hi Hg]];
        apply lookup_snoc_Some in Hg' as [[Hi' Hg']|[Hi' Hg']]; try lia.
      * by apply (Hbreak i g g' w).
      * subst g'. cbn in Hw. injection Hw as <-.
        rewrite length_app in Hi'. cbn in Hi'.
        rewrite lookup_app_r in Hg by lia.
        replace (i - length groups)%nat with 0%nat in Hg by lia.
        cbn in Hg. injection Hg as <-. exact Hgt.
Qed.

Lemma wrap_inv_fold (max_width : Z) (f : font) (words : list string) :
  forall done st,
    wrap_inv textbbox max_width f done st ->
    wrap_inv textbbox max_width f (done ++ words)
      (fold_left (wrap_step textbbox max_width f) words st).
Proof.
  induction words as [|word words IH]; intros done st Hinv; cbn [fold_left].
  - by rewrite app_nil_r.
  - replace (done ++ word :: words) with ((done ++ [word]) ++ words)
      by (by rewrite <- app_assoc).
    apply IH. by apply wrap_inv_step.
Qed.

(** [wrap_text] as a grouping of the words of the caption. *)
Lemma wrap_text_groups (text : string) (max_width : Z) (f : font) :
  exists groups,
    wrap_text textbbox text max_width f = map (join " ") groups
    /\ concat groups = split text
    /\ Forall (fun g => g <> []) groups
    /\ Forall (fun g =>
                 (line_width textbbox f (join " " g) <= max_width)%Z
                 \/ length g = 1%nat) groups
    /\ (forall i g g' w,
          groups !! i = Some g -> groups !! S i = Some g' ->
          head g' = Some w ->
          (max_width < line_width textbbox f (join " " (g ++ [w])))%Z).
Proof.
  assert (Hinit : wrap_inv textbbox max_width f [] ([], [])).
  { exists []. cbn. repeat split; try constructor.
    intros i g g' w Hg Hg'. by destruct i. }
  pose proof (wrap_inv_fold max_width f (split text) [] ([], []) Hinit)
    as Hinv.
  cbn [app] in Hinv. unfold wrap_text.
  destruct (fold_left (wrap_step textbbox max_width f) (split text) ([], []))
    as [lines cur].
  destruct Hinv as (groups & Hlines & Hdone & Hne & Hcur & Hfit & Hbreak).
  cbn [fst snd] in *.
  destruct cur as [|c cur]; cbn [nonempty] in *.
  - exists groups. rewrite app_nil_r in Hdone, Hfit.
    repeat split; try assumption.
    intros i g g' w Hg Hg'. rewrite (Hcur eq_refl) in Hg. by destruct i.
  - exists (groups ++ [c :: cur]).
    split; [by rewrite map_app, Hlines|].
    split; [by rewrite concat_app; cbn; rewrite app_nil_r|].
    split; [apply Forall_app; split; [exact Hne|by constructor]|].
    split; [exact Hfit|exact Hbreak].
Qed.

End WrapProperties.

Section WrapTheorems.
Import TextOverlay.

Variable textbbox : font -> string -> Z * Z * Z * Z.

Lemma concat_words (groups : list (list string)) :
  Forall (fun w => is_word w = true) (concat groups) ->
  flat_map split (map (join " ") groups) = concat groups.
Proof.
  induction groups as [|g groups IH]; cbn; [reflexivity|].
  intros Hw. apply Forall_app in Hw as [Hg Hgs].
  by rewrite split_join, IH.
Qed.

(** X1. The words of a caption are the words of its wrapped lines, in order:
    wrapping loses no word, adds none, and splits none. *)
Theorem wrap_text_keeps_words (text : string) (max_width : Z) (f : font) :
  words_of_lines (wrap_text textbbox text max_width f) = split text.
Proof.
  destruct (wrap_text_groups textbbox text max_width f)
    as (groups & -> & Hwords & _).
  unfold words_of_lines. rewrite concat_words; [exact Hwords|].
  rewrite Hwords. apply split_words.
Qed.

(** X2. Every line of a wrapped caption fits the width, unless it holds a
    single word. *)
Theorem wrap_text_lines_fit (text : string) (max_width : Z) (f : font) :
  Forall (fun line =>
            (line_width textbbox f line <= max_width)%Z
            \/ length (split line) = 1%nat)
    (wrap_text textbbox text max_width f).
Proof.
  destruct (wrap_text_groups textbbox text max_width f)
    as (groups & -> & Hwords & _ & Hfit & _).
  assert (Hw : Forall (fun w => is_word w = true) (concat groups))
    by (rewrite Hwords; apply split_words).
  clear Hwords. induction groups as [|g groups IH]; [constructor|].
  cbn in Hw. apply Forall_app in Hw as [Hg Hgs].
  apply Forall_cons in Hfit as [Hfit Hfits].
  cbn [map]. constructor; [|by apply IH].
  destruct Hfit as [Hfit|Hone]; [by left|right].
  by rewrite split_join.
Qed.

(** X3. A line is closed only when the next word does not fit on it: the line
    with the first word of the next line added is wider than the box. *)
Theorem wrap_text_breaks_late (text : string) (max_width : Z) (f : font)
    (i : nat) (line next word : string) :
  wrap_text textbbox text max_width f !! i = Some line ->
  wrap_text textbbox text max_width f !! S i = Some next ->
  head (split next) = Some word ->
  (max_width < line_width textbbox f (line +:+ " " +:+ word))%Z.
Proof.
  destruct (wrap_text_groups textbbox text max_width f)
    as (groups & -> & Hwords & Hne & _ & Hbreak).
  assert (Hw : Forall (fun w => is_word w = true) (concat groups))
    by (rewrite Hwords; apply split_words).
  intros Hline Hnext Hword.
  change (map (join " ") groups) with (join " " <$> groups) in Hline, Hnext.
  rewrite list_lookup_fmap in Hline, Hnext.
  destruct (groups !! i) as [g|] eqn:Hg; [|discriminate].
  destruct (groups !! S i) as [g'|] eqn:Hg'; [|discriminate].
  cbn in Hline, Hnext. injection Hline as <-. injection Hnext as <-.
  assert (Hg'w : Forall (fun w => is_word w = true) g').
  { apply Forall_forall. intros w Hin.
    apply (proj1 (Forall_forall _ _) Hw).
    apply list_elem_of_In, in_concat. exists g'.
    split; apply list_elem_of_In; [|exact Hin].
    by apply list_elem_of_lookup_2 with (S i). }
  rewrite split_join in Hword by exact Hg'w.
  rewrite <- join_snoc.
  - by apply (Hbreak i g g' word).
  - apply (proj1 (Forall_forall _ _) Hne).
    by apply list_elem_of_lookup_2 with i.
Qed.

End WrapTheorems.

Section WrapWitness.
Import TextOverlay.

Lemma wrap_text_breaks_late_witness :
  (50 < line_width mono_textbbox (truetype "impact.ttf" 10)
          ("aa bb" +:+ " " +:+ "cc"))%Z.
Proof.
  apply (wrap_text_breaks_late mono_textbbox "aa bb cc" 50
           (truetype "impact.ttf" 10) 0 "aa bb" "cc" "cc");
    reflexivity.
Defined.

End WrapWitness.

(** ** Requests, snapshots and repairs *)

Section RequestProperties.
Import RateLimiter.

Variable py_int : string -> outcome Z.
Variable fromisoformat : string -> outcome datetime.

(** X4. The sleep of a call: [make_anthropic_request] sleeps at most once,
    when the snapshot it finds asks for a wait, and then for the wait that
    the snapshot asks for at that moment, which is not negative; it does
    not sleep when there is no snapshot or the snapshot asks for no wait.
    This is so whether the request then returns or raises. *)
Theorem make_anthropic_request_sleeps
    (client : api_request -> world -> outcome raw_response)
    (system_prompt user_prompt : string) (max_tokens : Z) (temperature : Q)
    (messages : option (list (string * string))) (w : world) :
  let run :=
    make_anthropic_request py_int fromisoformat client
      system_prompt user_prompt max_tokens temperature messages w in
  sleeps (snd run)
  = sleeps w
    ++ (if fst (should_wait_global w) then [snd (should_wait_global w)]
        else [])
  /\ (0 <= snd (should_wait_global w))%Q
  /\ (most_recent_rate_limit_info w = None -> sleeps (snd run) = sleeps w).
Proof.
  cbv zeta.
  assert (Hnonneg : (0 <= snd (should_wait_global w))%Q).
  { unfold should_wait_global.
    destruct (most_recent_rate_limit_info w);
      [apply should_wait_nonneg|apply Qle_refl]. }
  assert (Hsleeps :
            sleeps
              (snd (make_anthropic_request py_int fromisoformat client
                      system_prompt user_prompt max_tokens temperature
                      messages w))
            = sleeps w
              ++ (if fst (should_wait_global w)
                  then [snd (should_wait_global w)] else [])).
  { unfold make_anthropic_request.
    destruct (should_wait_global w) as [must t]. cbn [fst snd].
    destruct must; py_unfold; cbn [fst snd];
      match goal with
      | |- context [client ?r ?w1] => destruct (client r w1) as [raw|e]
      end; cbn [fst snd sleeps log_api_call];
      rewrite ?app_nil_r; try reflexivity;
      match goal with
      | |- context [from_headers ?a ?b ?c ?d] =>
          destruct (from_headers a b c d) as [info|e]
      end; cbn [fst snd sleeps log_api_call set_rate_limit_info];
      rewrite ?app_nil_r; reflexivity. }
  split; [exact Hsleeps|]. split; [exact Hnonneg|].
  intros Hnone. rewrite Hsleeps. unfold should_wait_global.
  rewrite Hnone. cbn [fst]. by rewrite app_nil_r.
Qed.

(** X5. When the completion API fails, the caller gets its exception, one
    request was made, and the snapshot of the rate limits is left as it
    was. *)
Theorem make_anthropic_request_failure (e : exn)
    (system_prompt user_prompt : string) (max_tokens : Z) (temperature : Q)
    (messages : option (list (string * string))) (w : world) :
  let run :=
    make_anthropic_request py_int fromisoformat (failing_client e)
      system_prompt user_prompt max_tokens temperature messages w in
  fst run = Raised e
  /\ length (api_calls (snd run)) = S (length (api_calls w))
  /\ most_recent_rate_limit_info (snd run) = most_recent_rate_limit_info w
  /\ timestamp_rate_limit_info (snd run) = timestamp_rate_limit_info w.
Proof.
  cbv zeta. unfold make_anthropic_request, failing_client.
  destruct (should_wait_global w) as [must t].
  destruct must; py_unfold; cbn; rewrite length_app; cbn;
    repeat split; lia.
Qed.

Lemma from_headers_missing (h : headers) (now : datetime) :
  Forall (fun k => h !! k = None) rate_limit_headers ->
  from_headers py_int fromisoformat h now
  = Returned {| requests_remaining := 0;
                requests_reset := (now + seconds 60)%Z;
                tokens_remaining := 0;
                tokens_reset := (now + seconds 60)%Z;
                input_tokens_remaining := 0;
                input_tokens_reset := (now + seconds 60)%Z;
                output_tokens_remaining := 0;
                output_tokens_reset := (now + seconds 60)%Z;
                retry_after := 0;
                timestamp := now |}.
Proof.
  intros H. unfold rate_limit_headers, remaining_headers in H. cbn in H.
  repeat match goal with
         | H : Forall _ (_ :: _) |- _ => apply Forall_cons in H as [? H]
         end.
  unfold from_headers, int_header, parse_date.
  repeat match goal with
         | H : h !! _ = None |- _ => rewrite H; clear H
         end.
  reflexivity.
Qed.

(** X6. A response without rate-limit headers is read as four exhausted quotas
    that are reset in 60 seconds: after it is recorded, the pre-call check
    asks for a wait of 60 seconds. *)
Theorem update_without_headers_waits (h : headers) (w : world) :
  Forall (fun k => h !! k = None) rate_limit_headers ->
  exists w',
    update_anthropic_response py_int fromisoformat h w = (Returned tt, w')
    /\ fst (should_wait_global w') = true
    /\ (snd (should_wait_global w') == 60)%Q.
Proof.
  intros H. unfold update_anthropic_response. py_unfold.
  rewrite (from_headers_missing h (clock w) H).
  eexists. split; [reflexivity|].
  unfold should_wait_global, set_rate_limit_info.
  cbn [most_recent_rate_limit_info clock].
  set (info := {| requests_remaining := 0 |}).
  destruct (should_wait_exhausted info (clock w))
    as (t & Heq & _ & Hub & Hshape).
  { exists (requests_remaining info, requests_reset info).
    split; [by left|]. cbn. lia. }
  rewrite Heq. cbn [fst snd]. split; [reflexivity|].
  assert (Hwait : forall d, In d (dimensions info) ->
                    (total_seconds (snd d - clock w)%Z == 60)%Q).
  { intros d Hd. cbn in Hd.
    destruct Hd as [<-|[<-|[<-|[<-|[]]]]]; cbn [snd];
      unfold total_seconds, seconds, Qeq; cbn; lia. }
  destruct Hshape as [->|(d & Hd & _ & ->)]; [|by apply Hwait].
  exfalso.
  specialize (Hub (requests_remaining info, requests_reset info)).
  cbn in Hub. unfold total_seconds, seconds, Qle in Hub. cbn in Hub.
  assert (Hle : (0 <= 0)%Z) by lia.
  specialize (Hub (or_introl eq_refl) Hle). lia.
Qed.

(** X7. When the four remaining quotas of a response are positive, the
    snapshot recorded from it asks for no wait, at any time. *)
Theorem update_with_quota_left (h : headers) (w w' : world) :
  Forall (fun k => exists s n,
            h !! k = Some s /\ py_int s = Returned n /\ (0 < n)%Z)
    remaining_headers ->
  update_anthropic_response py_int fromisoformat h w = (Returned tt, w') ->
  exists info,
    most_recent_rate_limit_info w' = Some info
    /\ (forall now, should_wait info now = (false, 0%Q))
    /\ should_wait_global w' = (false, 0%Q).
Proof.
  intros H. unfold remaining_headers in H.
  repeat match goal with
         | H : Forall _ (_ :: _) |- _ => apply Forall_cons in H as [? H]
         end.
  repeat match goal with
         | H : exists _ _, _ |- _ =>
             let s := fresh "s" in
             let n := fresh "n" in
             let Hk := fresh "Hk" in
             let Hs := fresh "Hs" in
             let Hn := fresh "Hn" in
             destruct H as (s & n & Hk & Hs & Hn)
         end.
  unfold update_anthropic_response. py_unfold.
  unfold from_headers, int_header.
  rewrite Hk, Hs, Hk0, Hs0, Hk1, Hs1, Hk2, Hs2. unfold obind.
  repeat match goal with
         | |- context [parse_date ?f ?g ?d] => destruct (parse_date f g d)
         end; try discriminate.
  destruct (match h !! "retry-after" with
            | Some s => py_int s
            | None => Returned 0%Z
            end) as [ra|e]; [|discriminate].
  intros [= <-].
  eexists. split; [reflexivity|].
  match goal with
  | |- (forall now, should_wait ?i now = _) /\ _ =>
      assert (Hnone : forall now, should_wait i now = (false, 0%Q))
  end.
  { intros now. apply should_wait_not_exhausted.
    intros d Hd. cbn in Hd.
    destruct Hd as [<-|[<-|[<-|[<-|[]]]]]; cbn; assumption. }
  split; [exact Hnone|].
  unfold should_wait_global, set_rate_limit_info.
  cbn [most_recent_rate_limit_info clock]. apply Hnone.
Qed.

End RequestProperties.

Section RepairRequests.
Import RateLimiter JsonRepairer.

Variable json : Type.
Variable json_loads : string -> outcome json.
Variable py_int : string -> outcome Z.
Variable fromisoformat : string -> outcome datetime.
Variable anthropic : string -> api_request -> world -> outcome raw_response.

(** The requests of [repair_json], and the environment after it. *)
Lemma repair_json_api_calls (system_prompt broken_json : string)
    (w : world) :
  let run :=
    repair_json json json_loads py_int fromisoformat anthropic
      system_prompt broken_json w in
  length (api_calls (snd run))
  = (length (api_calls w)
     + if truthy_opt (environ w !! "ANTHROPIC_API_KEY") then 1 else 0)%nat
  /\ environ (snd run) = environ w.
Proof.
  cbv zeta. unfold repair_json. py_unfold.
  destruct (environ w !! "ANTHROPIC_API_KEY") as [key|] eqn:Hkey;
    cbn [truthy_opt negb default from_option id];
    [destruct (truthy key) eqn:Htruthy; cbn [negb]|].
  2,3: cbn [fst snd]; split; [lia|reflexivity].
  pose proof (make_anthropic_request_one_call py_int fromisoformat
                (anthropic key) system_prompt
                (repair_user_prompt broken_json) 1000 (1 # 10) None w)
    as [Hlen Henv].
  cbv zeta in Hlen, Henv.
  destruct (make_anthropic_request py_int fromisoformat (anthropic key)
              system_prompt (repair_user_prompt broken_json) 1000 (1 # 10)
              None w) as [[response|e] w1];
    cbn [fst snd] in *.
  2: { split; [lia|exact Henv]. }
  unfold index.
  destruct (content response) as [|first rest];
    cbn [lookup list_lookup fst snd]; [split; [lia|exact Henv]|].
  unfold _is_valid_json.
  destruct (json_loads (strip first)) as [v|e]; cbn [fst snd];
    [split; [lia|exact Henv]|].
  destruct (is_JSONDecodeError e); cbn [fst snd]; split; (lia || exact Henv).
Qed.

(** X8. [repair_json] makes one request when the API key is set, whatever the
    request and the validation end with, and none when the key is not set
    or empty. *)
Theorem repair_json_requests (system_prompt broken_json : string)
    (w : world) :
  let run :=
    repair_json json json_loads py_int fromisoformat anthropic
      system_prompt broken_json w in
  length (api_calls (snd run))
  = (length (api_calls w)
     + if truthy_opt (environ w !! "ANTHROPIC_API_KEY") then 1 else 0)%nat
  /\ environ (snd run) = environ w.
Proof. apply repair_json_api_calls. Qed.

End RepairRequests.

Section RequestWitnesses.
Import RateLimiter.

Lemma update_without_headers_waits_witness :
  exists w',
    update_anthropic_response example_py_int example_fromisoformat empty
      (example_world None) = (Returned tt, w')
    /\ fst (should_wait_global w') = true
    /\ (snd (should_wait_global w') == 60)%Q.
Proof.
  apply (update_without_headers_waits example_py_int example_fromisoformat
           empty (example_world None)).
  unfold rate_limit_headers, remaining_headers.
  repeat constructor.
Defined.

Lemma update_with_quota_left_witness :
  exists info,
    most_recent_rate_limit_info
      (snd (update_anthropic_response example_py_int_100
              example_fromisoformat example_headers (example_world None)))
    = Some info
    /\ (forall now, should_wait info now = (false, 0%Q))
    /\ should_wait_global
         (snd (update_anthropic_response example_py_int_100
                 example_fromisoformat example_headers (example_world None)))
       = (false, 0%Q).
Proof.
  apply (update_with_quota_left example_py_int_100 example_fromisoformat
           example_headers (example_world None)).
  - unfold remaining_headers.
    repeat constructor; exists "100", 100%Z; repeat split; lia.
  - reflexivity.
Defined.

End RequestWitnesses.

(** ** The images and the rows of the table *)

Section ImagesProperties.
Import MemeFlow.

Variable render_and_upload : string -> uuid_meme -> outcome (option string).
Variable select_template_urls : list Z -> outcome (list (Z * string)).

Lemma zip_own_map_app {A B} (f : A -> B) (l1 l2 : list A) :
  zip (l1 ++ l2) (map f (l1 ++ l2))
  = zip l1 (map f l1) ++ zip l2 (map f l2).
Proof.
  induction l1 as [|a l1 IH]; cbn; [reflexivity|]. by rewrite <- IH.
Qed.

(** The two loops of [batch_process_images] on the slots from position
    [length done] on, the slots before being [done]. *)
Lemma store_image_results_from (template_urls : gmap Z string)
    (memes : list uuid_meme) :
  forall done : list uuid_meme,
    let tasks :=
      flat_map
        (fun '(i, meme) =>
           match template_urls !! um_template_id meme with
           | Some template_image_url =>
               if truthy template_image_url
               then [(i, process_meme_image render_and_upload
                           template_image_url meme)]
               else []
           | None => []
           end)
        (imap (fun i => pair (length done + i)%nat) memes) in
    store_image_results (zip tasks (gather (map snd tasks))) (done ++ memes)
    = done ++ map (processed_slot render_and_upload template_urls) memes.
Proof.
  induction memes as [|m memes IH]; intros done; cbv zeta.
  - reflexivity.
  - rewrite imap_cons. cbn [flat_map]. unfold gather in *.
    rewrite zip_own_map_app. unfold store_image_results in *.
    rewrite fold_left_app.
    assert (Hfirst :
              fold_left
                (fun memes0 '(i, _, result) =>
                   match result with
                   | Returned v => alter (set_cdn_url v) i memes0
                   | Raised _ => alter (set_cdn_url None) i memes0
                   end)
                (zip
                   (match template_urls !! um_template_id m with
                    | Some template_image_url =>
                        if truthy template_image_url
                        then [((length done + 0)%nat,
                               process_meme_image render_and_upload
                                 template_image_url m)]
                        else []
                    | None => []
                    end)
                   (map snd
                      (match template_urls !! um_template_id m with
                       | Some template_image_url =>
                           if truthy template_image_url
                           then [((length done + 0)%nat,
                                  process_meme_image render_and_upload
                                    template_image_url m)]
                           else []
                       | None => []
                       end)))
                (done ++ m :: memes)
              = (done ++ [processed_slot render_and_upload template_urls m])
                  ++ memes).
    { unfold processed_slot.
      destruct (template_urls !! um_template_id m) as [url|];
        [|by rewrite <- app_assoc].
      destruct (truthy url); [|by rewrite <- app_assoc].
      cbn [map snd zip zip_with fold_left].
      destruct (process_meme_image render_and_upload url m) as [v|e];
        rewrite alter_app_r; cbn; by rewrite <- app_assoc. }
    cbn [Nat.add] in Hfirst |- *.
    rewrite Hfirst.
    specialize (IH (done ++ [processed_slot render_and_upload template_urls m])).
    cbv zeta in IH.
    assert (Himap :
              imap ((fun i => pair (length done + i)%nat) ∘ S) memes
              = imap (fun i =>
                        pair (length (done ++
                                [processed_slot render_and_upload
                                   template_urls m]) + i)%nat) memes).
    { apply imap_ext. intros i x _. cbn. rewrite length_app. cbn.
      f_equal. lia. }
    rewrite Himap, IH. by rewrite <- app_assoc.
Qed.

(** X9. [batch_process_images] works slot by slot: the list it returns is the
    list it was given, in order, each slot of a template with an image
    holding the result of its own task, and each other slot left as it
    was. *)
Theorem batch_process_images_pointwise (uuid_memes : list uuid_meme)
    (template_urls : gmap Z string) :
  batch_process_images render_and_upload uuid_memes template_urls
  = map (processed_slot render_and_upload template_urls) uuid_memes.
Proof.
  pose proof (store_image_results_from template_urls uuid_memes []) as H.
  cbv zeta in H. cbn [app length Nat.add] in H.
  unfold batch_process_images, create_image_tasks.
  assert (Himap : imap pair uuid_memes
                  = imap (fun i => pair (0 + i)%nat) uuid_memes)
    by (by apply imap_ext).
  rewrite Himap. exact H.
Qed.

Lemma processed_slot_uuid (template_urls : gmap Z string) (m : uuid_meme) :
  uuid (processed_slot render_and_upload template_urls m) = uuid m.
Proof.
  unfold processed_slot.
  destruct (template_urls !! um_template_id m) as [url|]; [|reflexivity].
  destruct (truthy url); [|reflexivity].
  by destruct (process_meme_image render_and_upload url m).
Qed.

(** [batch_process_images] keeps the identifiers of the slots. *)
Lemma batch_process_images_uuids (uuid_memes : list uuid_meme)
    (template_urls : gmap Z string) :
  map uuid (batch_process_images render_and_upload uuid_memes template_urls)
  = map uuid uuid_memes.
Proof.
  assert (Hslots :
            batch_process_images render_and_upload uuid_memes template_urls
            = map (processed_slot render_and_upload template_urls)
                uuid_memes).
  { pose proof (store_image_results_from template_urls uuid_memes []) as H.
    cbv zeta in H. cbn [app length Nat.add] in H.
    unfold batch_process_images, create_image_tasks.
    assert (Himap : imap pair uuid_memes
                    = imap (fun i => pair (0 + i)%nat) uuid_memes)
      by (by apply imap_ext).
    rewrite Himap. exact H. }
  rewrite Hslots, map_map.
  apply map_ext. intros m. apply processed_slot_uuid.
Qed.

Lemma match_uuids_uuids (pool : list generated_meme) (uuids : list string) :
  forall i slots,
    match_uuids i uuids pool = Returned slots -> map uuid slots = uuids.
Proof.
  induction uuids as [|u uuids IH]; intros i slots; cbn [match_uuids].
  - by intros [= <-].
  - unfold obind at 1. destruct (py_mod i (length pool)); [|discriminate].
    unfold obind at 1. destruct (index pool a); [|discriminate].
    unfold obind.
    destruct (match_uuids (S i) uuids pool) as [rest|] eqn:Hrest;
      [|discriminate].
    intros [= <-]. cbn. f_equal. by apply (IH (S i)).
Qed.

Lemma rows_kept_refl (ids : list string) (table : memes_table) :
  rows_kept ids table table.
Proof.
  repeat split; try tauto.
  all: intros; congruence.
Qed.

Lemma rows_kept_alter (f : meme_row -> meme_row) (u : string)
    (ids : list string) (table : memes_table) :
  (forall r, kept_columns r (f r)) ->
  rows_kept (u :: ids) table (alter f u table).
Proof.
  intros Hf. split; [|split].
  - intros u'. destruct (decide (u = u')) as [->|Hne].
    + rewrite lookup_alter_eq. by rewrite fmap_is_Some.
    + by rewrite lookup_alter_ne.
  - intros u' Hu'. apply lookup_alter_ne. intros ->. apply Hu'. by left.
  - intros u' old new Hold Hnew. destruct (decide (u = u')) as [->|Hne].
    + rewrite lookup_alter_eq, Hold in Hnew. cbn in Hnew.
      injection Hnew as <-. apply Hf.
    + rewrite lookup_alter_ne in Hnew by exact Hne.
      assert (new = old) as -> by congruence. by repeat split.
Qed.

Lemma rows_kept_trans (u : string) (ids : list string)
    (t1 t2 t3 : memes_table) :
  rows_kept [u] t1 t2 -> rows_kept ids t2 t3 -> rows_kept (u :: ids) t1 t3.
Proof.
  intros (Hdom & Hout & Hcols) (Hdom' & Hout' & Hcols').
  split; [|split].
  - intros u'. by rewrite Hdom', Hdom.
  - intros u' Hu'. rewrite Hout', Hout; [reflexivity| |]; cbn in *; tauto.
  - intros u' old new Hold Hnew.
    assert (Hmid : is_Some (t2 !! u')) by (apply Hdom; eauto).
    destruct Hmid as [mid Hmid].
    destruct (Hcols u' old mid Hold Hmid) as (? & ? & ?).
    destruct (Hcols' u' mid new Hmid Hnew) as (? & ? & ?).
    repeat split; congruence.
Qed.

Lemma update_meme_rows_kept (m : uuid_meme) (table : memes_table) :
  rows_kept [uuid m] table (snd (update_meme m table)).
Proof.
  unfold update_meme, index. py_unfold.
  repeat match goal with
         | |- context [um_text_boxes m !! ?k] =>
             destruct (um_text_boxes m !! k);
             [|apply rows_kept_refl]
         end.
  destruct (truthy_opt (cdn_url m)); cbn [snd];
    apply rows_kept_alter; intros r; by repeat split.
Qed.

Lemma for_each_update_meme_rows_kept (memes : list uuid_meme) :
  forall table,
    rows_kept (map uuid memes) table
      (snd (for_each update_meme memes table)).
Proof.
  induction memes as [|m memes IH]; intros table; cbn [for_each map].
  - apply rows_kept_refl.
  - unfold bind.
    pose proof (update_meme_rows_kept m table) as Hm.
    destruct (update_meme m table) as [[[]|e] table1]; cbn [snd] in *.
    + eapply rows_kept_trans; [exact Hm|apply IH].
    + eapply rows_kept_trans; [exact Hm|apply rows_kept_refl].
Qed.

(** X10. Whatever the pool, the identifiers and the table, and whether the flow
    returns or raises: the update of the database adds no row and removes
    none, and leaves the context and the votes of every row as they were.
    When every requested identifier is spelled as the [id] of a row of the
    table, so that [CAST(%s AS UUID)] names the row of that spelling, the
    rows of the identifiers that were not requested are left as they
    were. *)
Theorem finish_generation_keeps_rows (generated_memes : list generated_meme)
    (uuids : list string) (table : memes_table) :
  let table' :=
    snd (finish_generation render_and_upload select_template_urls
           generated_memes uuids table) in
  (forall u, is_Some (table' !! u) <-> is_Some (table !! u))
  /\ (Forall (fun u => is_Some (table !! u)) uuids ->
      forall u, ~ In u uuids -> table' !! u = table !! u)
  /\ (forall u old new,
        table !! u = Some old -> table' !! u = Some new ->
        row_context new = row_context old
        /\ thumbs_up new = thumbs_up old
        /\ thumbs_down new = thumbs_down old).
Proof.
  cbv zeta.
  enough (Hkept : rows_kept uuids table
                    (snd (finish_generation render_and_upload
                            select_template_urls generated_memes uuids
                            table))).
  { destruct Hkept as (Hrows & Hothers & Hcolumns).
    split; [exact Hrows|]. split; [intros _; exact Hothers|exact Hcolumns]. }
  unfold finish_generation.
  destruct (nonempty generated_memes); cbn [negb];
    [|apply rows_kept_refl].
  py_unfold.
  destruct (match_uuids 0 uuids generated_memes) as [slots|e] eqn:Hslots;
    [|apply rows_kept_refl].
  destruct (select_template_urls _) as [rows|e]; [|apply rows_kept_refl].
  match goal with
  | |- context [for_each update_meme ?final table] =>
      pose proof (for_each_update_meme_rows_kept final table) as Hkept;
      assert (Hids : map uuid final = uuids)
  end.
  { rewrite batch_process_images_uuids.
    apply (match_uuids_uuids _ _ _ _ Hslots). }
  rewrite Hids in Hkept.
  match goal with
  | |- context [for_each update_meme ?final table] =>
      destruct (for_each update_meme final table) as [[[]|e] table']
  end; exact Hkept.
Qed.

End ImagesProperties.

Section ImagesWitnesses.
Import MemeFlow.

Lemma finish_generation_keeps_rows_witness :
  snd (finish_generation example_render_and_upload
         example_select_template_urls example_pool ["u0"; "u1"]
         example_table) !! "u5"
  = example_table !! "u5".
Proof.
  apply (proj1 (proj2 (finish_generation_keeps_rows
                         example_render_and_upload
                         example_select_template_urls example_pool
                         ["u0"; "u1"] example_table))).
  - repeat constructor; eexists; vm_compute; reflexivity.
  - cbn. intros [H|[H|[]]]; discriminate.
Defined.

End ImagesWitnesses.

(** ** The layout of a rendered caption *)

Section RenderProperties.
Import TextOverlay.

Variable textbbox : font -> string -> Z * Z * Z * Z.
Variable self : overlay.

Lemma texts_drawn_app (fill : string) (c1 c2 : list draw_op) :
  texts_drawn fill (c1 ++ c2) = texts_drawn fill c1 ++ texts_drawn fill c2.
Proof. unfold texts_drawn. apply flat_map_app. Qed.

Lemma draw_line_white (x : Z) (y : Q) (line : string) (f : font) :
  texts_drawn "white" (draw_line x y line f) = [(inject_Z x, y, line, f)].
Proof.
  unfold draw_line. rewrite texts_drawn_app.
  assert (Hblack :
            forall offsets,
              texts_drawn "white"
                (map (fun '(dx, dy) =>
                        draw_text (inject_Z (x + dx)%Z) (y + inject_Z dy)%Q
                          line f "black") offsets) = []).
  { induction offsets as [|[dx dy] offsets IH]; [reflexivity|]. exact IH. }
  by rewrite Hblack.
Qed.

Lemma fills_app (c1 c2 : list draw_op) :
  fills (c1 ++ c2) = fills c1 ++ fills c2.
Proof. unfold fills. apply flat_map_app. Qed.

Lemma draw_line_fills (x : Z) (y : Q) (line : string) (f : font) :
  fills (draw_line x y line f) = replicate 49 "black" ++ ["white"].
Proof. reflexivity. Qed.

Lemma draw_lines_white (x : Z) (line_height : Z) (line_spacing : Q)
    (f : font) (text_lines : list string) :
  forall (y : Q) (k : nat),
    Forall2
      (placed_at (inject_Z x)
         (y - inject_Z (Z.of_nat k) * (inject_Z line_height + line_spacing))
         (inject_Z line_height + line_spacing) f)
      (texts_drawn "white"
         (draw_lines x y line_height line_spacing f text_lines))
      (imap (fun i => pair (k + i)%nat) text_lines).
Proof.
  induction text_lines as [|line text_lines IH]; intros y k;
    cbn [draw_lines].
  - constructor.
  - rewrite texts_drawn_app, draw_line_white, imap_cons. cbn [app].
    constructor.
    + unfold placed_at. cbn [fst snd]. rewrite Nat.add_0_r.
      split; [reflexivity|]. split; [ring|by split].
    + specialize (IH (y + (inject_Z line_height + line_spacing))%Q (S k)).
      assert (Himap :
                imap ((fun i => pair (k + i)%nat) ∘ S) text_lines
                = imap (fun i => pair (S k + i)%nat) text_lines).
      { apply imap_ext. intros i s _. cbn. f_equal. lia. }
      rewrite Himap.
      eapply Forall2_impl; [exact IH|].
      intros [[[dx dy] s] f'] [i l]. unfold placed_at. cbn [fst snd].
      intros (Hx & Hy & Hs & Hf). repeat split; try assumption.
      rewrite Hy. rewrite Nat2Z.inj_succ. unfold Z.succ.
      rewrite inject_Z_plus. ring.
Qed.

Lemma draw_lines_fills (x : Z) (line_height : Z) (line_spacing : Q)
    (f : font) (text_lines : list string) :
  forall y : Q,
    fills (draw_lines x y line_height line_spacing f text_lines)
    = flat_map (fun _ => replicate 49 "black" ++ ["white"]) text_lines.
Proof.
  induction text_lines as [|line text_lines IH]; intros y;
    cbn [draw_lines flat_map]; [reflexivity|].
  by rewrite fills_app, draw_line_fills, IH.
Qed.

(** X11. The layout of a rendered caption. When [render_outlined_text] returns,
    it has drawn the lines of the wrapped caption in white, in order, each
    once, with the chosen font: line [k] at the left edge of the box and
    [k] times 1.2 times the height of the first line below its top edge.
    Each line is drawn 49 times in black before it is drawn in white; the
    only other text is the red label of the box in debug mode. *)
Theorem render_outlined_text_layout (text : string) (x y box_w box_h : Z)
    (box_id : option nat) (c c' : list draw_op) :
  render_outlined_text textbbox self text (x, y) (box_w, box_h) box_id c
  = (Returned tt, c') ->
  exists f first rest total drawn,
    calculate_optimal_font textbbox self text box_w box_h MAX_FONT_SIZE
    = (f, first :: rest, total)
    /\ c' = c ++ drawn
    /\ Forall2
         (placed_at (inject_Z x) (inject_Z y)
            ((12 # 10) * inject_Z (bbox_height (textbbox f first))) f)
         (texts_drawn "white" drawn)
         (imap pair (first :: rest))
    /\ fills drawn
       = (if debug_boxes self && bool_decide (is_Some box_id)
          then ["red"] else [])
         ++ flat_map (fun _ => replicate 49 "black" ++ ["white"])
              (first :: rest).
Proof.
  unfold render_outlined_text.
  destruct (calculate_optimal_font textbbox self text box_w box_h
              MAX_FONT_SIZE) as [[f text_lines] total].
  destruct text_lines as [|first rest]; [discriminate|].
  change (index (first :: rest) 0) with (Returned first : outcome string).
  remember (first :: rest) as lines eqn:Hl.
  py_unfold.
  destruct (textbbox f first) as [[[bl bt] br] bb] eqn:Hbox.
  set (lh := (bb - bt)%Z).
  set (sp := (inject_Z lh * (2 # 10))%Q).
  assert (Hlines :
            Forall2
              (placed_at (inject_Z x) (inject_Z y)
                 ((12 # 10) * inject_Z (bbox_height (bl, bt, br, bb))) f)
              (texts_drawn "white" (draw_lines x (inject_Z y) lh sp f lines))
              (imap pair lines)).
  { pose proof (draw_lines_white x lh sp f lines (inject_Z y) 0) as H.
    assert (Himap : imap (fun i => pair (0 + i)%nat) lines
                    = imap pair lines) by (by apply imap_ext).
    rewrite Himap in H.
    eapply Forall2_impl; [exact H|].
    intros [[[dx dy] s] f'] [i l]. unfold placed_at. cbn [fst snd].
    intros (Hx & Hy & Hs & Hf). repeat split; try assumption.
    rewrite Hy. unfold sp, bbox_height. fold lh. cbn [Z.of_nat]. ring. }
  pose proof (draw_lines_fills x lh sp f lines (inject_Z y)) as Hfills.
  destruct (debug_boxes self); intros [= <-]; cbn [andb].
  - destruct box_id as [n|].
    + exists f, first, rest, total. eexists.
      split; [by rewrite Hl|]. split; [by rewrite <- !app_assoc|].
      rewrite !texts_drawn_app, !fills_app, Hfills, <- Hl, Hbox.
      rewrite bool_decide_eq_true_2 by eauto. by split.
    + exists f, first, rest, total. eexists.
      split; [by rewrite Hl|]. split; [by rewrite <- !app_assoc|].
      rewrite !texts_drawn_app, !fills_app, Hfills, <- Hl, Hbox.
      rewrite bool_decide_eq_false_2 by (by intros [? ?]). by split.
  - exists f, first, rest, total. eexists.
    split; [by rewrite Hl|]. split; [reflexivity|].
    rewrite Hfills, <- Hl, Hbox. by split.
Qed.

End RenderProperties.

Section RenderWitness.
Import TextOverlay.

Lemma render_outlined_text_layout_witness :
  exists f first rest total drawn,
    calculate_optimal_font mono_textbbox (example_overlay (Some "impact.ttf"))
      "a b c d e f" 100 15 MAX_FONT_SIZE
    = (f, first :: rest, total)
    /\ snd (render_outlined_text mono_textbbox
              (example_overlay (Some "impact.ttf")) "a b c d e f"
              (7%Z, 9%Z) (100%Z, 15%Z) None [])
       = [] ++ drawn
    /\ Forall2
         (placed_at (inject_Z 7) (inject_Z 9)
            ((12 # 10) * inject_Z (bbox_height (mono_textbbox f first))) f)
         (texts_drawn "white" drawn)
         (imap pair (first :: rest))
    /\ fills drawn
       = (if debug_boxes (example_overlay (Some "impact.ttf"))
             && bool_decide (is_Some (None : option nat))
          then ["red"] else [])
         ++ flat_map (fun _ => replicate 49 "black" ++ ["white"])
              (first :: rest).
Proof.
  apply (render_outlined_text_layout mono_textbbox
           (example_overlay (Some "impact.ttf")) "a b c d e f" 7 9 100 15
           None []).
  vm_compute. reflexivity.
Defined.

End RenderWitness.

(** ** Timing statistics *)

Section TimingProperties.
Import TimingStats.

Lemma min2_le_l (a b : Q) : (min2 a b <= a)%Q.
Proof.
  unfold min2. destruct (Qlt_bool b a) eqn:E.
  - apply Qlt_le_weak. by apply Qlt_bool_true.
  - apply Qle_refl.
Qed.

Lemma min2_le_r (a b : Q) : (min2 a b <= b)%Q.
Proof.
  unfold min2. destruct (Qlt_bool b a) eqn:E.
  - apply Qle_refl.
  - by apply Qlt_bool_false.
Qed.

Lemma min_list_le_init (l : list Q) (x : Q) : (min_list x l <= x)%Q.
Proof.
  unfold min_list. revert x.
  induction l as [|y l IH]; intros x; cbn [fold_left].
  - apply Qle_refl.
  - eapply Qle_trans; [apply IH|apply min2_le_l].
Qed.

Lemma min_list_le_elem (l : list Q) (x y : Q) :
  In y l -> (min_list x l <= y)%Q.
Proof.
  unfold min_list. revert x.
  induction l as [|z l IH]; intros x Hin; cbn in *; [contradiction|].
  destruct Hin as [->|Hin].
  - eapply Qle_trans; [apply (min_list_le_init l (min2 x y))|].
    apply min2_le_r.
  - by apply IH.
Qed.

Lemma min_list_in (l : list Q) (x : Q) : In (min_list x l) (x :: l).
Proof.
  unfold min_list. revert x.
  induction l as [|y l IH]; intros x; cbn [fold_left]; [by left|].
  destruct (IH (min2 x y)) as [H|H]; [|by right; right].
  rewrite <- H. unfold min2. destruct (Qlt_bool y x); [right|]; by left.
Qed.

(** The entry [summarize] builds from durations of which there is at least
    one. *)
Lemma summarize_nonempty (times : list Q) :
  times <> [] ->
  exists entry, summarize times = Returned entry /\ summarizes times entry.
Proof.
  intros Hne. unfold summarize.
  destruct times as [|x xs]; [contradiction|].
  cbn [length Nat.eqb]. eexists. split; [reflexivity|].
  unfold summarizes. cbn [count total average minimum maximum length].
  split; [reflexivity|]. split; [lia|]. split; [reflexivity|].
  split; [reflexivity|].
  split; [apply min_list_in|]. split; [apply max_list_in|].
  apply List.Forall_forall. intros d [<-|Hin].
  - split; [apply min_list_le_init|apply max_list_ge_init].
  - split; [by apply min_list_le_elem|by apply max_list_ge_elem].
Qed.

(** The loop of [get_summary] over items with distinct keys, each with at
    least one duration. *)
Lemma summarize_items_returns (items : list (string * list Q)) :
  Forall (fun item => snd item <> []) items ->
  NoDup items.*1 ->
  forall summary,
    exists summary',
      summarize_items items summary = Returned summary'
      /\ (forall op,
            match (list_to_map items : gmap string (list Q)) !! op with
            | Some times =>
                exists entry,
                  summary' !! op = Some entry /\ summarizes times entry
            | None => summary' !! op = summary !! op
            end).
Proof.
  induction items as [|[op0 times0] items IH]; intros Hne Hdup summary.
  - exists summary. split; [reflexivity|]. intros op.
    by rewrite list_to_map_nil, lookup_empty.
  - apply Forall_cons in Hne as [Hne0 Hne].
    cbn [fmap list_fmap fst] in Hdup. apply NoDup_cons in Hdup as [Hnotin Hdup].
    destruct (summarize_nonempty times0 Hne0) as (entry0 & Hentry0 & Hsum0).
    destruct (IH Hne Hdup (<[op0 := entry0]> summary)) as (summary' & Hrun & Hall).
    exists summary'. cbn [summarize_items]. rewrite Hentry0. cbn [obind].
    split; [exact Hrun|].
    intros op. specialize (Hall op). rewrite list_to_map_cons.
    destruct (decide (op0 = op)) as [<-|Hneq].
    + rewrite lookup_insert_eq.
      rewrite (not_elem_of_list_to_map_1 _ _ Hnotin) in Hall.
      rewrite lookup_insert_eq in Hall. eauto.
    + rewrite lookup_insert_ne by exact Hneq.
      destruct (list_to_map items !! op); [exact Hall|].
      by rewrite lookup_insert_ne in Hall.
Qed.

(** The state of the object after the calls: what each operation was last
    started at, and the durations recorded for it. *)
Lemma run_calls_from (calls : list timing_call) :
  forall (self : t) (operation_name : string),
    let self' := fold_left run_call calls self in
    match timings self' !! operation_name with
    | Some times =>
        times
        = default [] (timings self !! operation_name)
          ++ durations_from (start_times self !! operation_name)
               operation_name calls
        /\ (timings self !! operation_name = None ->
            durations_from (start_times self !! operation_name)
              operation_name calls <> [])
    | None =>
        timings self !! operation_name = None
        /\ durations_from (start_times self !! operation_name)
             operation_name calls = []
    end.
Proof.
  induction calls as [|c calls IH]; intros self name; cbv zeta.
  - cbn [fold_left durations_from].
    destruct (timings self !! name) as [times|] eqn:E; cbn.
    + split; [by rewrite app_nil_r|]. discriminate.
    + by split.
  - cbn [fold_left].
    specialize (IH (run_call self c) name). cbv zeta in IH.
    remember (timings (fold_left run_call calls (run_call self c)) !! name)
      as final eqn:Hfinal in *.
    clear Hfinal.
    destruct c as [op now|op now]; cbn [run_call durations_from] in IH |- *.
    + unfold start in IH. cbn [timings start_times] in IH.
      destruct (String.eqb_spec op name) as [->|Hneq].
      * by rewrite lookup_insert_eq in IH.
      * by rewrite lookup_insert_ne in IH.
    + unfold end_ in IH.
      destruct (start_times self !! op) as [started|] eqn:Hstarted;
        cbn [snd timings start_times] in IH.
      * destruct (String.eqb_spec op name) as [->|Hneq].
        -- rewrite Hstarted.
           unfold contains in IH.
           destruct (timings self !! name) as [times0|] eqn:Htimes;
             cbn [negb] in IH.
           ++ rewrite lookup_alter_eq, Htimes in IH. cbn in IH.
              destruct final.
              ** destruct IH as [-> _]. split; [|discriminate].
                 by rewrite Hstarted, <- app_assoc.
              ** by destruct IH.
           ++ rewrite lookup_alter_eq, lookup_insert_eq in IH. cbn in IH.
              destruct final.
              ** destruct IH as [-> _]. rewrite Hstarted.
                 split; [reflexivity|]. discriminate.
              ** by destruct IH.
        -- assert (Hsame :
                     alter (fun times => times ++ [(now - started)%Q]) op
                       (if negb (contains (timings self) op)
                        then <[op := []]> (timings self)
                        else timings self) !! name
                     = timings self !! name).
           { rewrite lookup_alter_ne by exact Hneq.
             destruct (negb (contains (timings self) op)); [|reflexivity].
             by rewrite lookup_insert_ne. }
           rewrite Hsame in IH. exact IH.
      * destruct (String.eqb_spec op name) as [->|Hneq].
        -- rewrite Hstarted in IH |- *. exact IH.
        -- exact IH.
Qed.

Lemma start_times_from (operation_name : string)
    (calls : list timing_call) :
  forall self : t,
    start_times (fold_left run_call calls self) !! operation_name
    = fold_left
        (fun acc c =>
           match c with
           | call_start op now =>
               if String.eqb op operation_name then Some now else acc
           | call_end _ _ => acc
           end)
        calls (start_times self !! operation_name).
Proof.
  induction calls as [|c calls IH]; intros self; cbn [fold_left];
    [reflexivity|].
  rewrite IH. f_equal.
  destruct c as [op now|op now]; cbn [run_call].
  - unfold start. cbn [start_times].
    destruct (String.eqb_spec op operation_name) as [->|Hneq].
    + by rewrite lookup_insert_eq.
    + by rewrite lookup_insert_ne.
  - unfold end_. by destruct (start_times self !! op).
Qed.

(** X12. [get_summary] on an object that was only used through [start] and
    [end] never divides by zero: it returns a summary that has an entry
    exactly for the operations with a recorded duration, and the entry of
    an operation counts its durations (at least one), adds them up, and
    gives as minimum and maximum two of them that bound all of them. *)
Theorem get_summary_of_calls (calls : list timing_call) :
  exists summary,
    get_summary (run_calls calls) = Returned summary
    /\ (forall operation_name,
          match durations operation_name calls with
          | [] => summary !! operation_name = None
          | times =>
              exists entry,
                summary !! operation_name = Some entry
                /\ summarizes times entry
          end).
Proof.
  assert (Hstate :
            forall op,
              match timings (run_calls calls) !! op with
              | Some times =>
                  times = durations op calls /\ durations op calls <> []
              | None => durations op calls = []
              end).
  { intros op. pose proof (run_calls_from calls __init__ op) as H.
    cbv zeta in H. fold (run_calls calls) in H.
    cbn [__init__ timings start_times] in H. rewrite !lookup_empty in H.
    fold (durations op calls) in H.
    destruct (timings (run_calls calls) !! op).
    - destruct H as [-> Hne]. split; [reflexivity|]. by apply Hne.
    - by destruct H. }
  unfold get_summary.
  destruct (summarize_items_returns (map_to_list (timings (run_calls calls))))
    with (summary := (∅ : gmap string stats))
    as (summary & Hrun & Hall).
  - apply Forall_forall. intros [op times] Hin Hnil. cbn [snd] in Hnil.
    subst times. apply elem_of_map_to_list in Hin.
    specialize (Hstate op). rewrite Hin in Hstate.
    destruct Hstate as [Hd Hne]. by rewrite <- Hd in Hne.
  - apply NoDup_fst_map_to_list.
  - exists summary. split; [exact Hrun|]. intros op.
    specialize (Hall op). specialize (Hstate op).
    rewrite list_to_map_to_list in Hall.
    destruct (timings (run_calls calls) !! op) as [times|].
    + destruct Hstate as [<- Hne]. by destruct times.
    + rewrite Hstate. by rewrite Hall.
Qed.

(** X13. [end] measures from the last [start] of the operation: on an object
    that went through the calls, it returns the time since the last
    [start] of that name (also when an earlier [end] has recorded it
    already), and [None] when the operation was never started. *)
Theorem end_measures_from_last_start (operation_name : string) (now : Q)
    (calls : list timing_call) :
  fst (end_ operation_name now (run_calls calls))
  = (fun started => (now - started)%Q) <$> last_start operation_name calls.
Proof.
  unfold end_, run_calls, last_start.
  rewrite (start_times_from operation_name calls __init__).
  cbn [__init__ start_times]. rewrite lookup_empty.
  by destruct (fold_left _ calls None).
Qed.

End TimingProperties.

(** ** The uploader *)

Section UploadProperties.
Import S3Uploader.

Variable image : Type.
Variable image_save : image -> list event -> outcome bytes.
Variable resource_put :
  string -> string -> bytes -> list event -> outcome unit.
Variable client_put :
  string -> string -> bytes -> list event -> outcome unit.

Lemma slept_seconds_app (a b : list event) : slept_seconds (a ++ b) = slept_seconds a ++ slept_seconds b.
Proof. unfold slept_seconds. apply flat_map_app. Qed.

Lemma puts_app (a b : list event) : puts (a ++ b) = puts a ++ puts b.
Proof. unfold puts. apply flat_map_app. Qed.

Lemma puts_returned_app (a b : list event) :
  puts_returned (a ++ b) = puts_returned a ++ puts_returned b.
Proof. unfold puts_returned. apply List.filter_app. Qed.

(** What one attempt does. *)
Lemma upload_attempt_events (self : uploader) (img : image)
    (key : string) (attempt : Z) (w : list event) :
  (0 <= retry_delay self)%Z ->
  (0 <= attempt)%Z ->
  exists o new,
    upload_attempt image image_save resource_put client_put self img key
      attempt w
    = (o, w ++ new)
    /\ Forall (fun p => p = (bucket_name self, key)) (puts new)
    /\ (length (puts new) <= 2)%nat
    /\ match o with
       | Returned (Some (Some url)) =>
           url = cdn_base_url self +:+ "/" +:+ key
           /\ slept_seconds new = []
           /\ exists before put,
                new = before ++ [put]
                /\ put_returned put = true
                /\ puts_returned before = []
       | Returned (Some None) =>
           puts_returned new = [] /\ slept_seconds new = []
           /\ (max_retries self - 1 <= attempt)%Z
       | Returned None =>
           puts_returned new = []
           /\ slept_seconds new = [(retry_delay self * 2 ^ attempt)%Z]
           /\ (attempt < max_retries self - 1)%Z
       | Raised e =>
           puts_returned new = [] /\ slept_seconds new = []
           /\ (attempt < max_retries self - 1)%Z
           /\ (sleep_max_seconds < retry_delay self * 2 ^ attempt)%Z
       end.
Proof.
  intros Hdelay Hattempt.
  assert (Hlength : (0 <= retry_delay self * 2 ^ attempt)%Z).
  { apply Z.mul_nonneg_nonneg; [exact Hdelay|]. apply Z.pow_nonneg. lia. }
  assert (Hsleep : forall w',
            sleep (retry_delay self * 2 ^ attempt) w'
            = (Returned tt, w' ++ [time_sleep (retry_delay self * 2 ^ attempt)])
              /\ (retry_delay self * 2 ^ attempt <= sleep_max_seconds)%Z
            \/ (exists e,
                  sleep (retry_delay self * 2 ^ attempt) w' = (Raised e, w'))
               /\ (sleep_max_seconds < retry_delay self * 2 ^ attempt)%Z).
  { intros w'. unfold sleep.
    assert (Hmax : (0 <= sleep_max_seconds)%Z) by (vm_compute; discriminate).
    destruct (Z.ltb_spec (retry_delay self * 2 ^ attempt)
                (- sleep_max_seconds)); [lia|].
    destruct (Z.ltb_spec sleep_max_seconds
                (retry_delay self * 2 ^ attempt)); cbn [orb].
    - right. split; [by eexists|lia].
    - left. destruct (Z.ltb_spec (retry_delay self * 2 ^ attempt) 0);
        [lia|]. by split. }
  unfold upload_attempt, put_object. py_unfold.
  destruct (image_save img w) as [img_bytes|e].
  - destruct (resource_put (bucket_name self) key img_bytes w) as [[]|e].
    + eexists _, [_]. split; [reflexivity|]. cbn.
      split; [by repeat constructor|]. split; [lia|].
      split; [reflexivity|]. split; [reflexivity|].
      by exists [], (resource_put_object (bucket_name self) key img_bytes
                       true).
    + destruct (client_put _ _ _ _) as [[]|e2].
      * eexists _, [_; _]. split; [by rewrite <- app_assoc|]. cbn.
        split; [by repeat constructor|]. split; [lia|].
        split; [reflexivity|]. split; [reflexivity|].
        by exists [resource_put_object (bucket_name self) key img_bytes
                     false],
             (client_put_object (bucket_name self) key img_bytes true).
      * destruct (Z.ltb_spec attempt (max_retries self - 1)).
        -- match goal with
           | |- context [sleep _ ?w'] =>
               destruct (Hsleep w') as [[-> Hfits]|[[e' ->] Hover]]
           end.
           ++ eexists (Returned None), [_; _; _].
              split; [by rewrite <- !app_assoc|].
              cbn. split; [by repeat constructor|].
              by repeat split; try lia.
           ++ eexists (Raised e'), [_; _].
              split; [by rewrite <- !app_assoc|].
              cbn. split; [by repeat constructor|].
              by repeat split; try lia.
        -- eexists (Returned (Some None)), [_; _].
           split; [by rewrite <- !app_assoc|].
           cbn. split; [by repeat constructor|]. by repeat split; try lia.
  - destruct (Z.ltb_spec attempt (max_retries self - 1)).
    + destruct (Hsleep w) as [[-> Hfits]|[[e' ->] Hover]].
      * eexists (Returned None), [_]. split; [reflexivity|].
        cbn. split; [by repeat constructor|]. by repeat split; try lia.
      * eexists (Raised e'), []. split; [by rewrite app_nil_r|].
        cbn. split; [by repeat constructor|]. by repeat split; try lia.
    + eexists (Returned (Some None)), []. split; [by rewrite app_nil_r|].
      cbn. split; [by repeat constructor|]. by repeat split; try lia.
Qed.

(** What the attempts from the attempt [first] on do. *)
Lemma upload_attempts_events (self : uploader) (img : image)
    (key : string) :
  (0 <= retry_delay self)%Z ->
  forall (count first : nat) (w : list event),
    (first + count)%nat = Z.to_nat (max_retries self) ->
    exists o new slept,
      upload_attempts image image_save resource_put client_put self img key
        (map Z.of_nat (seq first count)) w
      = (o, w ++ new)
      /\ Forall (fun p => p = (bucket_name self, key)) (puts new)
      /\ (length (puts new) <= 2 * count)%nat
      /\ slept_seconds new = backoff (retry_delay self) first slept
      /\ (slept <= Nat.pred count)%nat
      /\ match o with
         | Returned (Some url) =>
             url = cdn_base_url self +:+ "/" +:+ key
             /\ exists before put,
                  new = before ++ [put]
                  /\ put_returned put = true
                  /\ puts_returned before = []
         | Returned None => puts_returned new = [] /\ slept = Nat.pred count
         | Raised e =>
             exists attempt,
               (0 <= attempt < max_retries self - 1)%Z
               /\ (sleep_max_seconds < retry_delay self * 2 ^ attempt)%Z
         end.
Proof.
  intros Hdelay.
  induction count as [|count IH]; intros first w Hcount.
  - exists (Returned None), [], 0%nat. cbn. rewrite app_nil_r.
    repeat split; try constructor.
  - cbn [seq map upload_attempts].
    destruct (upload_attempt_events self img key (Z.of_nat first) w Hdelay)
      as (o & new & Hrun & Htarget & Hputs & Ho); [lia|].
    unfold bind at 1. rewrite Hrun.
    destruct o as [[[url|]|]|e].
    + destruct Ho as (-> & Hsleeps & Hlast).
      exists (Returned (Some (cdn_base_url self +:+ "/" +:+ key))), new,
        0%nat.
      split; [reflexivity|]. split; [exact Htarget|]. split; [lia|].
      split; [exact Hsleeps|]. split; [lia|]. by split.
    + destruct Ho as (Hnone & Hsleeps & Hlast).
      exists (Returned None), new, 0%nat.
      split; [reflexivity|]. split; [exact Htarget|]. split; [lia|].
      split; [exact Hsleeps|]. split; [lia|]. split; [exact Hnone|]. lia.
    + destruct Ho as (Hnone & Hsleeps & Hmore).
      destruct (IH (S first) (w ++ new)) as
        (o' & new' & slept' & Hrun' & Htarget' & Hputs' & Hsleeps' & Hslept'
         & Ho'); [lia|].
      exists o', (new ++ new'), (S slept').
      split; [by rewrite Hrun', <- app_assoc|].
      rewrite puts_app, slept_seconds_app, length_app, Hsleeps, Hsleeps'.
      split; [by apply Forall_app|]. split; [lia|].
      split; [reflexivity|]. split; [lia|].
      destruct o' as [[url|]|e]; [| |exact Ho'].
      * destruct Ho' as (-> & before & put & -> & Hput & Hbefore).
        split; [reflexivity|]. exists (new ++ before), put.
        split; [by rewrite app_assoc|]. split; [exact Hput|].
        by rewrite puts_returned_app, Hnone, Hbefore.
      * destruct Ho' as (Hnone' & ->).
        split; [by rewrite puts_returned_app, Hnone, Hnone'|]. lia.
    + destruct Ho as (Hnone & Hsleeps & Hmore & Hover).
      exists (Raised e), new, 0%nat.
      split; [reflexivity|]. split; [exact Htarget|]. split; [lia|].
      split; [exact Hsleeps|]. split; [lia|].
      exists (Z.of_nat first). split; [lia|exact Hover].
Qed.



(** X15. The retries of [upload_image]: it makes at most [max_retries]
    attempts, of at most two puts each, and sleeps between two attempts
    only, the delay the first time and twice as long each time after; when
    it returns [None] it has made all the attempts. *)
Theorem upload_image_backoff (self : uploader) (img : image)
    (uuid_str : string) (w : list event) :
  (0 <= retry_delay self)%Z ->
  let run :=
    upload_image image image_save resource_put client_put self img uuid_str
      w in
  exists new slept,
    snd run = w ++ new
    /\ slept_seconds new = backoff (retry_delay self) 0 slept
    /\ (slept <= Nat.pred (Z.to_nat (max_retries self)))%nat
    /\ (length (puts new) <= 2 * Z.to_nat (max_retries self))%nat
    /\ (fst run = Returned None ->
        slept = Nat.pred (Z.to_nat (max_retries self))).
Proof.
  intros Hdelay. cbv zeta. unfold upload_image, range.
  destruct (upload_attempts_events self img ("meme_instances/" +:+ uuid_str
                                              +:+ ".jpg") Hdelay
              (Z.to_nat (max_retries self)) 0 w eq_refl)
    as (o & new & slept & Hrun & _ & Hputs & Hsleeps & Hslept & Ho).
  rewrite Hrun. exists new, slept. cbn [fst snd].
  split; [reflexivity|]. split; [exact Hsleeps|]. split; [exact Hslept|].
  split; [exact Hputs|]. intros ->. by destruct Ho.
Qed.

Section Init.

Variable boto3_resource : string -> string -> string -> outcome unit.
Variable boto3_client : string -> string -> string -> outcome unit.

(** X16. An uploader made by [__init__] serves the images from the address of
    the bucket named by [DO_SPACES_BUCKET] ([memulacra] when it is not
    set), whatever [CDN_BASE_URL] says; its [upload_image] makes at most
    six puts and sleeps at most one second and then two, both when it
    returns [None]. *)
Theorem upload_image_after_init (environ : gmap string string)
    (self : uploader) (img : image) (uuid_str : string) (w : list event) :
  __init__ boto3_resource boto3_client environ = Returned self ->
  exists r new,
    upload_image image image_save resource_put client_put self img uuid_str w
    = (Returned r, w ++ new)
    /\ (r = None
        \/ r = Some
                 (object_url
                    ("https://"
                     +:+ default "memulacra" (environ !! "DO_SPACES_BUCKET")
                     +:+ ".nyc3.digitaloceanspaces.com")
                    uuid_str))
    /\ (slept_seconds new = [] \/ slept_seconds new = [1%Z] \/ slept_seconds new = [1%Z; 2%Z])
    /\ (r = None -> slept_seconds new = [1%Z; 2%Z])
    /\ (length (puts new) <= 6)%nat.
Proof.
  intros Hinit.
  assert (Hself :
            cdn_base_url self
            = "https://"
              +:+ default "memulacra" (environ !! "DO_SPACES_BUCKET")
              +:+ ".nyc3.digitaloceanspaces.com"
            /\ max_retries self = 3%Z /\ retry_delay self = 1%Z).
  { unfold __init__ in Hinit.
    destruct (environ !! "DO_SPACES_KEY") as [access|]; [|discriminate].
    destruct (environ !! "DO_SPACES_SECRET") as [secret|]; [|discriminate].
    destruct (truthy access && truthy secret); [|discriminate].
    destruct (boto3_resource _ _ _); [|discriminate].
    destruct (boto3_client _ _ _); [|discriminate].
    cbn in Hinit. by injection Hinit as <-. }
  destruct Hself as (Hbase & Hretries & Hdelay).
  unfold upload_image, range.
  destruct (upload_attempts_events self img ("meme_instances/" +:+ uuid_str
                                              +:+ ".jpg")
              ltac:(lia) (Z.to_nat (max_retries self)) 0 w eq_refl)
    as (o & new & slept & Hrun & _ & Hputs & Hsleeps & Hslept & Ho).
  rewrite Hretries, Hdelay in *.
  change (Z.to_nat 3) with 3%nat in *. cbn [Nat.pred] in *.
  destruct o as [r|e]; cycle 1.
  { exfalso. destruct Ho as (attempt & Hattempt & Hover).
    assert (Hcases : attempt = 0%Z \/ attempt = 1%Z) by lia.
    destruct Hcases as [->| ->]; vm_compute in Hover; discriminate. }
  rename Ho into Hr.
  exists r, new. split; [exact Hrun|].
  split.
  { destruct r as [url|]; [right|by left].
    destruct Hr as [-> _]. by rewrite Hbase. }
  assert (Hcases : slept = 0%nat \/ slept = 1%nat \/ slept = 2%nat) by lia.
  split; [|split; [|lia]].
  - destruct Hcases as [->| [->| ->]]; rewrite Hsleeps; cbn; tauto.
  - intros ->. destruct Hr as [_ ->]. by rewrite Hsleeps.
Qed.

End Init.

End UploadProperties.

Section UploadWitnesses.
Import S3Uploader.


Lemma upload_image_backoff_witness :
  exists new slept,
    snd (upload_image unit example_image_save example_resource_put
           example_client_put example_uploader tt "u1" [])
    = [] ++ new
    /\ slept_seconds new = backoff (retry_delay example_uploader) 0 slept
    /\ (slept <= Nat.pred (Z.to_nat (max_retries example_uploader)))%nat
    /\ (length (puts new)
        <= 2 * Z.to_nat (max_retries example_uploader))%nat
    /\ (fst (upload_image unit example_image_save example_resource_put
               example_client_put example_uploader tt "u1" [])
        = Returned None ->
        slept = Nat.pred (Z.to_nat (max_retries example_uploader))).
Proof.
  apply (upload_image_backoff unit example_image_save example_resource_put
           example_client_put example_uploader tt "u1" []).
  cbn. lia.
Defined.

Lemma upload_image_after_init_witness :
  exists r new,
    upload_image unit example_image_save example_resource_put
      example_client_put example_uploader tt "u1" []
    = (Returned r, [] ++ new)
    /\ (r = None
        \/ r = Some
                 (object_url
                    ("https://"
                     +:+ default "memulacra"
                           (example_environ !! "DO_SPACES_BUCKET")
                     +:+ ".nyc3.digitaloceanspaces.com")
                    "u1"))
    /\ (slept_seconds new = [] \/ slept_seconds new = [1%Z] \/ slept_seconds new = [1%Z; 2%Z])
    /\ (r = None -> slept_seconds new = [1%Z; 2%Z])
    /\ (length (puts new) <= 6)%nat.
Proof.
  apply (upload_image_after_init unit example_image_save
           example_resource_put example_client_put example_boto3
           example_boto3 example_environ example_uploader tt "u1" []).
  vm_compute. reflexivity.
Defined.

End UploadWitnesses.

(** ** The generation of the goals *)

Section GoalProperties.
Import RateLimiter JsonRepairer GoalGeneration.

Variable json : Type.
Variable json_loads : string -> outcome json.
Variable py_int : string -> outcome Z.
Variable fromisoformat : string -> outcome datetime.
Variable anthropic : string -> api_request -> world -> outcome raw_response.
Variable GOAL_GEN_SYSTEM_PROMPT : string.
Variable format_goal_gen_user_prompt : string -> Z -> string.
Variable repairer_system_prompt : string.
Variable len_meme_goals : json -> outcome Z.

(** X17. [generate_meme_goals] sends no request without an API key, and with one
    it sends one request, or two: the second is the repair request. *)
Theorem generate_meme_goals_requests (context : string) (s : state) :
  let run :=
    generate_meme_goals json json_loads py_int fromisoformat anthropic
      GOAL_GEN_SYSTEM_PROMPT format_goal_gen_user_prompt
      repairer_system_prompt len_meme_goals context s in
  if truthy_opt (environ (the_world s) !! "ANTHROPIC_API_KEY")
  then requests_sent (snd run) = S (requests_sent s)
       \/ requests_sent (snd run) = S (S (requests_sent s))
  else fst run
       = Raised
           (Exn ValueError
              "ANTHROPIC_API_KEY environment variable is not set")
       /\ snd run = s.
Proof.
  cbv zeta. unfold generate_meme_goals, requests_sent.
  unfold in_world, timing_start, timing_end. py_unfold.
  destruct s as [w t]. cbn [the_world GoalGeneration.timing].
  destruct (environ w !! "ANTHROPIC_API_KEY") as [key|] eqn:Hkey;
    cbn [truthy_opt negb default from_option id];
    [destruct (truthy key) eqn:Htruthy; cbn [negb]|].
  2,3: by split.
  cbn [the_world GoalGeneration.timing].
  pose proof (make_anthropic_request_one_call py_int fromisoformat
                (anthropic key) GOAL_GEN_SYSTEM_PROMPT
                (format_goal_gen_user_prompt context 2) 700 (7 # 10) None w)
    as [Hlen Henv].
  cbv zeta in Hlen, Henv.
  destruct (make_anthropic_request py_int fromisoformat (anthropic key)
              GOAL_GEN_SYSTEM_PROMPT (format_goal_gen_user_prompt context 2)
              700 (7 # 10) None w) as [[response|e] w1];
    cbn [fst snd the_world] in *; [|by left].
  destruct (content response) as [|content0 rest];
    cbn [nonempty negb fst snd the_world]; [by left|].
  unfold index. cbn [lookup list_lookup].
  destruct (json_loads content0) as [goals|e].
  - destruct (len_meme_goals goals) as [n|e];
      cbn [fst snd the_world]; [by left|].
    destruct (is_JSONDecodeError e); cbn [fst snd the_world]; [|by left].
    right.
    rewrite <- Hlen.
    pose proof (repair_json_api_calls json json_loads py_int fromisoformat
                  anthropic repairer_system_prompt content0 w1)
      as [Hlen' _].
    cbv zeta in Hlen'. rewrite Henv, Hkey in Hlen'. cbn [truthy_opt] in Hlen'.
    rewrite Htruthy in Hlen'.
    destruct (repair_json _ _ _ _ _ _ _ w1) as [[fixed|e'] w2];
      cbn [fst snd the_world] in *; [|lia].
    destruct (json_loads fixed) as [parsed|e']; cbn [fst snd the_world];
      [|lia].
    destruct (len_meme_goals parsed); cbn [fst snd the_world]; lia.
  - destruct (is_JSONDecodeError e); cbn [fst snd the_world]; [|by left].
    right.
    rewrite <- Hlen.
    pose proof (repair_json_api_calls json json_loads py_int fromisoformat
                  anthropic repairer_system_prompt content0 w1)
      as [Hlen' _].
    cbv zeta in Hlen'. rewrite Henv, Hkey in Hlen'. cbn [truthy_opt] in Hlen'.
    rewrite Htruthy in Hlen'.
    destruct (repair_json _ _ _ _ _ _ _ w1) as [[fixed|e'] w2];
      cbn [fst snd the_world] in *; [|lia].
    destruct (json_loads fixed) as [parsed|e']; cbn [fst snd the_world];
      [|lia].
    destruct (len_meme_goals parsed); cbn [fst snd the_world]; lia.
Qed.

(** A [start] followed by an [end] of the same operation records one
    duration for it, and nothing for the others. *)
Lemma start_end_records (operation_name : string) (now1 now2 : Q)
    (t : TimingStats.t) :
  let t' :=
    snd (TimingStats.end_ operation_name now2
           (TimingStats.start operation_name now1 t)) in
  default [] (TimingStats.timings t' !! operation_name)
  = default [] (TimingStats.timings t !! operation_name)
    ++ [(now2 - now1)%Q]
  /\ (forall op, op <> operation_name ->
        TimingStats.timings t' !! op = TimingStats.timings t !! op).
Proof.
  cbv zeta. unfold TimingStats.end_, TimingStats.start.
  cbn [TimingStats.start_times TimingStats.timings].
  rewrite lookup_insert_eq. cbn [snd TimingStats.timings].
  unfold contains.
  destruct (TimingStats.timings t !! operation_name) as [times|] eqn:Htimes;
    cbn [negb].
  - rewrite lookup_alter_eq, Htimes. split; [reflexivity|].
    intros op Hop. by rewrite lookup_alter_ne.
  - rewrite lookup_alter_eq, lookup_insert_eq. split; [reflexivity|].
    intros op Hop. rewrite lookup_alter_ne by done.
    by rewrite lookup_insert_ne.
Qed.

(** X18. What [generate_meme_goals] returns is a value that [json.loads] gave
    for some text; and when it returns, the [TimingStats] object it was
    given has one more duration for the goal generation, and the
    durations of the other operations as before. *)
Theorem generate_meme_goals_returned (context : string) (s s' : state)
    (goals : json) :
  generate_meme_goals json json_loads py_int fromisoformat anthropic
    GOAL_GEN_SYSTEM_PROMPT format_goal_gen_user_prompt
    repairer_system_prompt len_meme_goals context s
  = (Returned goals, s') ->
  (exists text, json_loads text = Returned goals)
  /\ match timing s with
     | Some _ =>
         exists d,
           recorded "llm_goal_generation" s'
           = recorded "llm_goal_generation" s ++ [d]
     | None => timing s' = None
     end
  /\ (forall op, op <> "llm_goal_generation" ->
        recorded op s' = recorded op s).
Proof.
  unfold generate_meme_goals.
  unfold in_world, timing_start, timing_end. py_unfold.
  destruct s as [w t]. cbn [the_world GoalGeneration.timing].
  destruct (negb (truthy_opt (environ w !! "ANTHROPIC_API_KEY")));
    [discriminate|].
  cbv beta iota. cbn [the_world GoalGeneration.timing].
  match goal with
  | |- context [make_anthropic_request ?a ?b ?c ?d ?e ?f ?g ?h w] =>
      destruct (make_anthropic_request a b c d e f g h w)
        as [[response|e0] w1]; [|discriminate]
  end.
  destruct (content response) as [|content0 rest];
    cbn [nonempty negb]; [discriminate|].
  unfold index. cbn [lookup list_lookup the_world GoalGeneration.timing].
  assert (Hrecorded :
            forall now w2,
              let s2 :=
                {| the_world := w2;
                   timing :=
                     (fun t0 =>
                        snd (TimingStats.end_ "llm_goal_generation" now t0))
                       <$> (TimingStats.start "llm_goal_generation"
                              (time_time w) <$> t) |} in
              match t with
              | Some _ =>
                  exists d,
                    recorded "llm_goal_generation" s2
                    = recorded "llm_goal_generation"
                        {| the_world := w; timing := t |} ++ [d]
              | None => timing s2 = None
              end
              /\ (forall op, op <> "llm_goal_generation" ->
                    recorded op s2
                    = recorded op {| the_world := w; timing := t |})).
  { intros now w2. cbv zeta. unfold recorded.
    cbn [GoalGeneration.timing].
    destruct t as [t|]; cbn [fmap option_fmap option_map]; [|by split].
    destruct (start_end_records "llm_goal_generation" (time_time w) now t)
      as [Hname Hother].
    cbv zeta in Hname, Hother. split.
    - eexists. exact Hname.
    - intros op Hop. by rewrite Hother. }
  destruct (json_loads content0) as [goals0|e] eqn:Hloads.
  - destruct (len_meme_goals goals0) as [n|e].
    + intros [= <- <-]. split; [by eexists|]. apply Hrecorded.
    + destruct (is_JSONDecodeError e); [|discriminate].
      cbv beta iota. cbn [the_world GoalGeneration.timing].
      destruct (repair_json json json_loads py_int fromisoformat anthropic
                  repairer_system_prompt content0 w1) as [[fixed|e'] w2];
        cbv beta iota; [|discriminate].
      cbn [the_world GoalGeneration.timing].
      destruct (json_loads fixed) as [parsed|e'] eqn:Hfixed; [|discriminate].
      destruct (len_meme_goals parsed); [|discriminate].
      intros [= <- <-]. split; [by eexists|]. apply Hrecorded.
  - destruct (is_JSONDecodeError e); [|discriminate].
      cbv beta iota. cbn [the_world GoalGeneration.timing].
    destruct (repair_json json json_loads py_int fromisoformat anthropic
                  repairer_system_prompt content0 w1) as [[fixed|e'] w2];
      cbv beta iota; [|discriminate].
    cbn [the_world GoalGeneration.timing].
    destruct (json_loads fixed) as [parsed|e'] eqn:Hfixed; [|discriminate].
    destruct (len_meme_goals parsed); [|discriminate].
    intros [= <- <-]. split; [by eexists|]. apply Hrecorded.
Qed.

End GoalProperties.

Section GoalWitness.
Import RateLimiter GoalGeneration.

Lemma generate_meme_goals_returned_witness :
  (exists text, example_json_loads text = Returned tt)
  /\ (exists d,
        recorded "llm_goal_generation"
          (snd (generate_meme_goals unit example_json_loads example_py_int
                  example_fromisoformat (example_anthropic " {} ")
                  "system" example_format_prompt "repair"
                  example_len_meme_goals "context" example_goal_state))
        = recorded "llm_goal_generation" example_goal_state ++ [d])
  /\ (forall op, op <> "llm_goal_generation" ->
        recorded op
          (snd (generate_meme_goals unit example_json_loads example_py_int
                  example_fromisoformat (example_anthropic " {} ")
                  "system" example_format_prompt "repair"
                  example_len_meme_goals "context" example_goal_state))
        = recorded op example_goal_state).
Proof.
  apply (generate_meme_goals_returned unit example_json_loads example_py_int
           example_fromisoformat (example_anthropic " {} ") "system"
           example_format_prompt "repair" example_len_meme_goals "context"
           example_goal_state).
  vm_compute. reflexivity.
Defined.

End GoalWitness.

(** ** The verification of the identifiers *)

Section VerificationProperties.
Import MemeFlow Verification.

Variable cast_uuid : string -> outcome string.
Variable format_set : gset string -> string.

Lemma found_length (table : memes_table) (ids : list string) :
  length (List.filter (fun id => bool_decide (id ∈ ids))
            (map fst (map_to_list table)))
  = length ids
  <-> NoDup ids /\ Forall (fun id => is_Some (table !! id)) ids.
Proof.
  set (found := List.filter _ _).
  assert (Hfound : forall id, id ∈ found <-> is_Some (table !! id) /\ id ∈ ids).
  { intros id. unfold found.
    rewrite list_elem_of_In, List.filter_In, <- list_elem_of_In.
    rewrite bool_decide_eq_true.
    change (map fst (map_to_list table)) with (map_to_list table).*1.
    rewrite list_elem_of_fmap. split.
    - intros [([k v] & -> & Hin) Hids]. split; [|exact Hids].
      apply elem_of_map_to_list in Hin. by eexists.
    - intros [[v Hv] Hids]. split; [|exact Hids].
      exists (id, v). split; [reflexivity|]. by apply elem_of_map_to_list. }
  assert (Hnodup : NoDup found).
  { unfold found. apply NoDup_ListNoDup, List.NoDup_filter, NoDup_ListNoDup.
    apply NoDup_fst_map_to_list. }
  split.
  - intros Hlen.
    assert (Hperm : found ≡ₚ ids).
    { apply submseteq_length_Permutation; [|lia].
      apply NoDup_submseteq; [exact Hnodup|].
      intros id Hid. by apply Hfound in Hid as [_ ?]. }
    split; [by rewrite <- Hperm|].
    apply Forall_forall. intros id Hid.
    rewrite <- Hperm in Hid. by apply Hfound in Hid as [? _].
  - intros [Hids Hall].
    apply Permutation_length, NoDup_Permutation; [exact Hnodup|exact Hids|].
    intros id. rewrite Hfound. split; [tauto|].
    intros Hid. split; [|exact Hid].
    by apply (proj1 (Forall_forall _ _) Hall).
Qed.

(** X19. The verification lets a request through exactly when the database
    takes every text as an identifier, no identifier is named twice, and
    every identifier has a row in the table. *)
Theorem verify_uuids_returns (table : memes_table) (uuids : list string) :
  verify_uuids cast_uuid format_set table uuids = Returned tt
  <-> exists ids,
        cast_uuids cast_uuid uuids = Returned ids
        /\ NoDup ids
        /\ Forall (fun id => is_Some (table !! id)) ids.
Proof.
  unfold verify_uuids, select_found_uuids, obind.
  assert (Hlen : forall ids, cast_uuids cast_uuid uuids = Returned ids ->
                   length ids = length uuids).
  { clear. induction uuids as [|u uuids IH]; intros ids; cbn [cast_uuids].
    - by intros [= <-].
    - unfold obind. destruct (cast_uuid u); [|discriminate].
      destruct (cast_uuids cast_uuid uuids); [|discriminate].
      intros [= <-]. cbn. f_equal. by apply IH. }
  destruct (cast_uuids cast_uuid uuids) as [ids|e].
  - rewrite <- (Hlen ids eq_refl).
    pose proof (found_length table ids) as Hfound.
    destruct (Nat.eqb_spec
                (length (List.filter (fun id => bool_decide (id ∈ ids))
                           (map fst (map_to_list table))))
                (length ids)) as [Heq|Hne]; cbn [negb].
    + split; [|reflexivity]. intros _. exists ids.
      split; [reflexivity|]. by apply Hfound.
    + split; [discriminate|]. intros (ids' & [= <-] & Hids).
      exfalso. apply Hne. by apply Hfound.
  - split; [discriminate|]. by intros (ids & [=] & _).
Qed.

(** X20. A request that names an identifier twice is refused, also when every
    identifier has its row: the error then says that the identifiers of
    the empty set were not found. *)
Theorem verify_uuids_refuses_duplicates (table : memes_table)
    (uuids : list string) :
  cast_uuids cast_uuid uuids = Returned uuids ->
  Forall (fun id => is_Some (table !! id)) uuids ->
  ~ NoDup uuids ->
  verify_uuids cast_uuid format_set table uuids
  = Raised
      (Exn ValueError ("UUIDs not found in database: " +:+ format_set ∅)).
Proof.
  intros Hcast Hall Hdup.
  unfold verify_uuids, select_found_uuids, obind. rewrite Hcast.
  pose proof (found_length table uuids) as Hfound.
  set (found := List.filter _ _) in *.
  destruct (Nat.eqb_spec (length found) (length uuids)) as [Heq|Hne];
    cbn [negb].
  - exfalso. apply Hdup. by apply Hfound.
  - do 4 f_equal. apply set_eq. intros id.
    rewrite elem_of_difference, !elem_of_list_to_set.
    split; [|by intros ?%elem_of_empty].
    intros [Hid Hnot]. exfalso. apply Hnot. unfold found.
    rewrite list_elem_of_In, List.filter_In, <- list_elem_of_In.
    rewrite bool_decide_eq_true. split; [|exact Hid].
    change (map fst (map_to_list table)) with (map_to_list table).*1.
    apply list_elem_of_fmap.
    destruct (proj1 (Forall_forall _ _) Hall id Hid) as [v Hv].
    exists (id, v). split; [reflexivity|]. by apply elem_of_map_to_list.
Qed.

End VerificationProperties.

Section VerificationWitness.
Import MemeFlow Verification.

Lemma verify_uuids_refuses_duplicates_witness :
  verify_uuids example_cast_uuid example_format_set example_table
    ["u0"; "u1"; "u0"]
  = Raised
      (Exn ValueError
         ("UUIDs not found in database: " +:+ example_format_set ∅)).
Proof.
  apply (verify_uuids_refuses_duplicates example_cast_uuid
           example_format_set example_table ["u0"; "u1"; "u0"]).
  - reflexivity.
  - repeat constructor; by vm_compute; eexists.
  - intros Hdup. apply NoDup_cons in Hdup as [Hnotin _].
    apply Hnotin. by repeat constructor.
Defined.

End VerificationWitness.

(** ** The making of an overlay *)

Section InitProperties.
Import TextOverlay TextOverlayInit.

Variable environ : gmap string string.
Variable fetch : string -> Z * Z -> fetch_result.
Variable image_draw : string -> Z * Z -> outcome unit.
Variable path_exists : string -> bool.
Variable bundled_font_path : string.

Lemma fetch_image_returned (url : string) (ts : list (Z * Z)) :
  forall (last : option string) (timeout size : Z * Z),
    fetch_image fetch url ts last = Returned (timeout, size) ->
    exists before after,
      ts = before ++ timeout :: after
      /\ Forall (fun t => request_failed (fetch url t)) before
      /\ fetch url timeout = fetched (fst size) (snd size).
Proof.
  induction ts as [|t ts IH]; intros last timeout size; cbn [fetch_image].
  - by destruct last.
  - destruct (fetch url t) as [w h|message|e] eqn:Hfetch.
    + intros [= <- <-]. exists [], ts. by repeat split.
    + intros Hrest.
      destruct (IH _ _ _ Hrest) as (before & after & -> & Hb & Hf).
      exists (t :: before), after.
      split; [reflexivity|]. split; [|exact Hf].
      constructor; [by exists message|exact Hb].
    + discriminate.
Qed.


Lemma find_font_path_first :
  match find_font_path path_exists bundled_font_path with
  | Some path =>
      exists earlier later,
        font_candidates bundled_font_path = earlier ++ path :: later
        /\ Forall (fun p => path_exists p = false) earlier
        /\ path_exists path = true
  | None =>
      Forall (fun p => path_exists p = false)
        (font_candidates bundled_font_path)
  end.
Proof.
  unfold find_font_path, font_candidates, alt_paths. cbn [List.find].
  destruct (path_exists bundled_font_path) eqn:Hb.
  { exists [], (system_font_path :: alt_paths). by repeat split. }
  destruct (path_exists system_font_path) eqn:Hs.
  { exists [bundled_font_path], alt_paths.
    split; [reflexivity|]. split; [by repeat constructor|exact Hs]. }
  destruct (path_exists "/usr/share/fonts/truetype/msttcorefonts/Impact.ttf")
    eqn:H1.
  { exists [bundled_font_path; system_font_path],
      ["C:\Windows\Fonts\Impact.ttf"].
    split; [reflexivity|]. split; [by repeat constructor|exact H1]. }
  destruct (path_exists "C:\Windows\Fonts\Impact.ttf") eqn:H2.
  { exists [bundled_font_path; system_font_path;
            "/usr/share/fonts/truetype/msttcorefonts/Impact.ttf"], [].
    split; [reflexivity|]. split; [by repeat constructor|exact H2]. }
  by repeat constructor.
Qed.

Lemma fetch_image_raised (url : string) (ts : list (Z * Z)) :
  forall (last : option string) (e : exn),
    fetch_image fetch url ts last = Raised e ->
    (exists before timeout after,
       ts = before ++ timeout :: after
       /\ Forall (fun t => request_failed (fetch url t)) before
       /\ fetch url timeout = other_exception e)
    \/ (Forall (fun t => request_failed (fetch url t)) ts
        /\ fetch_image fetch url [] 
             (fold_left
                (fun acc t =>
                   match fetch url t with
                   | request_exception message => Some message
                   | _ => acc
                   end)
                ts last)
           = Raised e).
Proof.
  induction ts as [|t ts IH]; intros last e; cbn [fetch_image fold_left].
  - intros H. right. by split.
  - destruct (fetch url t) as [w h|message|e'] eqn:Hfetch.
    + discriminate.
    + intros Hrest. destruct (IH _ _ Hrest) as
        [(before & timeout & after & -> & Hb & Hf)|[Hall He]].
      * left. exists (t :: before), timeout, after.
        split; [reflexivity|]. split; [|exact Hf].
        constructor; [by exists message|exact Hb].
      * right. split; [|exact He].
        constructor; [by exists message|exact Hall].
    + intros [= ->]. left. exists [], t, ts. by repeat split.
Qed.

(** X21. When [__init__] returns, the image was fetched with one of the three
    timeouts, after a request failure with each shorter one; and the font
    path of the overlay is the first of the candidate paths that exists,
    or [None] when none of them exists. *)
Theorem overlay_init_returns (image_url : string) (debug : bool)
    (self : overlay) :
  __init__ environ fetch image_draw path_exists bundled_font_path image_url
    debug
  = Returned self ->
  (exists before timeout after,
     timeouts = before ++ timeout :: after
     /\ Forall
          (fun t => request_failed (fetch (full_url environ image_url) t))
          before
     /\ fetch (full_url environ image_url) timeout
        = fetched (width self) (height self))
  /\ debug_boxes self = debug
  /\ match font_path self with
     | Some path =>
         exists earlier later,
           font_candidates bundled_font_path = earlier ++ path :: later
           /\ Forall (fun p => path_exists p = false) earlier
           /\ path_exists path = true
     | None =>
         Forall (fun p => path_exists p = false)
           (font_candidates bundled_font_path)
     end.
Proof.
  unfold __init__, obind.
  destruct (fetch_image fetch (full_url environ image_url) timeouts None)
    as [[timeout size]|e] eqn:Hfetch; [|discriminate].
  destruct (image_draw _ timeout); [|discriminate].
  intros [= <-]. cbn [width height debug_boxes font_path].
  split.
  { destruct (fetch_image_returned _ _ _ _ _ Hfetch)
      as (before & after & Hsplit & Hfailed & Hfetched).
    by exists before, timeout, after. }
  split; [reflexivity|]. apply find_font_path_first.
Qed.

(** X22. When [__init__] raises, one of three things happened. The three
    fetches ended with a request failure, and it raises a [ValueError] that
    reports the last one; or a fetch ended with another exception, after
    request failures only, and it raises that exception at once; or the
    image was fetched, after request failures only, and
    [ImageDraw.Draw] raised on it. *)
Theorem overlay_init_raises (image_url : string) (debug : bool) (e : exn) :
  __init__ environ fetch image_draw path_exists bundled_font_path image_url
    debug
  = Raised e ->
  (Forall (fun t => request_failed (fetch (full_url environ image_url) t))
     timeouts
   /\ exists message,
        fetch (full_url environ image_url) (30, 60)%Z
        = request_exception message
        /\ e = Exn ValueError
                 ("Failed to fetch image from "
                  +:+ full_url environ image_url +:+ ": " +:+ message))
  \/ (exists before timeout after,
        timeouts = before ++ timeout :: after
        /\ Forall
             (fun t => request_failed (fetch (full_url environ image_url) t))
             before
        /\ fetch (full_url environ image_url) timeout = other_exception e)
  \/ (exists before timeout after image_width image_height,
        timeouts = before ++ timeout :: after
        /\ Forall
             (fun t => request_failed (fetch (full_url environ image_url) t))
             before
        /\ fetch (full_url environ image_url) timeout
           = fetched image_width image_height
        /\ image_draw (full_url environ image_url) timeout = Raised e).
Proof.
  unfold __init__, obind.
  destruct (fetch_image fetch (full_url environ image_url) timeouts None)
    as [[timeout size]|e'] eqn:Hfetch.
  - destruct (image_draw _ timeout) as [[]|e'] eqn:Hdraw; [discriminate|].
    intros [= ->]. right. right.
    destruct (fetch_image_returned _ _ _ _ _ Hfetch)
      as (before & after & Hsplit & Hfailed & Hfetched).
    by exists before, timeout, after, (fst size), (snd size).
  - intros [= ->].
    destruct (fetch_image_raised _ _ _ _ Hfetch) as [Hother|[Hall He]];
      [by right; left|left].
    split; [exact Hall|].
    unfold timeouts in Hall, He.
    apply Forall_cons in Hall as [_ Hall].
    apply Forall_cons in Hall as [_ Hall].
    apply Forall_cons in Hall as [[message Hlast] _].
    exists message. split; [exact Hlast|].
    cbn [fold_left] in He. rewrite Hlast in He. cbn in He. congruence.
Qed.

End InitProperties.

Section InitWitnesses.
Import TextOverlay TextOverlayInit.

Lemma overlay_init_returns_witness :
  exists self,
    __init__ empty example_fetch example_image_draw example_path_exists
      "/app/fonts/impact.ttf" "memes/drake.jpg" false
    = Returned self
    /\ (exists before timeout after,
          timeouts = before ++ timeout :: after
          /\ Forall
               (fun t =>
                  request_failed
                    (example_fetch (full_url empty "memes/drake.jpg") t))
               before
          /\ example_fetch (full_url empty "memes/drake.jpg") timeout
             = fetched (width self) (height self))
    /\ debug_boxes self = false
    /\ match font_path self with
       | Some path =>
           exists earlier later,
             font_candidates "/app/fonts/impact.ttf"
             = earlier ++ path :: later
             /\ Forall (fun p => example_path_exists p = false) earlier
             /\ example_path_exists path = true
       | None =>
           Forall (fun p => example_path_exists p = false)
             (font_candidates "/app/fonts/impact.ttf")
       end.
Proof.
  eexists. split; [reflexivity|].
  apply (overlay_init_returns empty example_fetch example_image_draw
           example_path_exists "/app/fonts/impact.ttf" "memes/drake.jpg"
           false).
  reflexivity.
Defined.

Lemma overlay_init_raises_witness :
  (Forall
     (fun t =>
        request_failed
          (example_fetch_down (full_url empty "/memes/drake.jpg") t))
     timeouts
   /\ exists message,
        example_fetch_down (full_url empty "/memes/drake.jpg") (30, 60)%Z
        = request_exception message
        /\ Exn ValueError
             "Failed to fetch image from https://memulacra.nyc3.digitaloceanspaces.com/memes/drake.jpg: Connection refused"
           = Exn ValueError
               ("Failed to fetch image from "
                +:+ full_url empty "/memes/drake.jpg" +:+ ": " +:+ message))
  \/ (exists before timeout after,
        timeouts = before ++ timeout :: after
        /\ Forall
             (fun t =>
                request_failed
                  (example_fetch_down (full_url empty "/memes/drake.jpg") t))
             before
        /\ example_fetch_down (full_url empty "/memes/drake.jpg") timeout
           = other_exception
               (Exn ValueError
                  "Failed to fetch image from https://memulacra.nyc3.digitaloceanspaces.com/memes/drake.jpg: Connection refused"))
  \/ (exists before timeout after image_width image_height,
        timeouts = before ++ timeout :: after
        /\ Forall
             (fun t =>
                request_failed
                  (example_fetch_down (full_url empty "/memes/drake.jpg") t))
             before
        /\ example_fetch_down (full_url empty "/memes/drake.jpg") timeout
           = fetched image_width image_height
        /\ example_image_draw (full_url empty "/memes/drake.jpg") timeout
           = Raised
               (Exn ValueError
                  "Failed to fetch image from https://memulacra.nyc3.digitaloceanspaces.com/memes/drake.jpg: Connection refused")).
Proof.
  apply (overlay_init_raises empty example_fetch_down example_image_draw
           example_path_exists "/app/fonts/impact.ttf" "/memes/drake.jpg"
           false).
  reflexivity.
Defined.

(** An image that is fetched with the third timeout and is cut short:
    [__init__] raises what [ImageDraw.Draw] raises. *)
Lemma overlay_init_truncated_image :
  __init__ empty example_fetch example_image_draw_truncated
    example_path_exists "/app/fonts/impact.ttf" "memes/drake.jpg" false
  = Raised (Exn OtherError "image file is truncated").
Proof. reflexivity. Qed.

End InitWitnesses.

(** ** The text boxes of a template *)

Section TextBoxesProperties.
Import TextOverlay TextBoxes.

Variable float_of_str : string -> outcome Q.
Variable int_of_str : string -> outcome Z.
Variable json_loads : string -> outcome json.
Variable text_boxes : list (option string).

Lemma caption_or_empty_cases (k : nat) :
  caption_or_empty (text_boxes !! k) = EmptyString
  \/ In (Some (caption_or_empty (text_boxes !! k))) text_boxes.
Proof.
  destruct (text_boxes !! k) as [[t|]|] eqn:Hk; cbn; [right|by left..].
  apply list_elem_of_In. by apply list_elem_of_lookup_2 with k.
Qed.

(** What a box appends is a caption of the meme, or the empty string. *)
Lemma match_box_caption (i : nat) (box : json) (text : string)
    (box_coords : gmap string Q) :
  match_box float_of_str int_of_str text_boxes i box
  = Returned (Some (text, box_coords)) ->
  text = EmptyString \/ In (Some text) text_boxes.
Proof.
  unfold match_box, obind, by_position.
  destruct (standard_box float_of_str box) as [standard|e]; [|discriminate].
  destruct (match box with
            | JDict d =>
                if is_not_None (fst standard) then Returned standard
                else flexible_box float_of_str d
            | _ => Returned standard
            end) as [[box_id coords]|e]; [|discriminate].
  destruct (is_not_None box_id).
  - destruct (py_int int_of_str box_id) as [n|ve].
    + destruct (_ && _); [|discriminate].
      intros [= <- _]. apply caption_or_empty_cases.
    + destruct (is_ValueError ve); [|discriminate].
      destruct (i <? length text_boxes)%nat; [|discriminate].
      intros [= <- _]. apply caption_or_empty_cases.
  - destruct (i <? length text_boxes)%nat; [|discriminate].
    intros [= <- _]. apply caption_or_empty_cases.
Qed.

Lemma match_boxes_invariant (boxes : list json) :
  forall (i : nat) (texts : list string)
         (coordinates : list (gmap string Q)),
    let r :=
      match_boxes float_of_str int_of_str text_boxes i boxes texts
        coordinates in
    exists new_texts new_coordinates,
      fst r = texts ++ new_texts
      /\ snd r = coordinates ++ new_coordinates
      /\ length new_texts = length new_coordinates
      /\ (length new_texts <= length boxes)%nat
      /\ Forall (fun t => t = EmptyString \/ In (Some t) text_boxes)
           new_texts.
Proof.
  induction boxes as [|box boxes IH]; intros i texts coordinates;
    cbv zeta; cbn [match_boxes].
  - exists [], []. rewrite !app_nil_r. by repeat split.
  - destruct (match_box float_of_str int_of_str text_boxes i box)
      as [[[text box_coords]|]|e] eqn:Hbox.
    + destruct (IH (S i) (texts ++ [text]) (coordinates ++ [box_coords]))
        as (new_texts & new_coordinates & Ht & Hc & Hlen & Hle & Hall).
      exists (text :: new_texts), (box_coords :: new_coordinates).
      rewrite Ht, Hc, <- !app_assoc. cbn.
      split; [reflexivity|]. split; [reflexivity|].
      split; [lia|]. split; [lia|].
      constructor; [|exact Hall]. by apply match_box_caption in Hbox.
    + destruct (IH (S i) texts coordinates)
        as (new_texts & new_coordinates & Ht & Hc & Hlen & Hle & Hall).
      exists new_texts, new_coordinates. cbn. repeat split; try done. lia.
    + destruct (IH (S i) texts coordinates)
        as (new_texts & new_coordinates & Ht & Hc & Hlen & Hle & Hall).
      exists new_texts, new_coordinates. cbn. repeat split; try done. lia.
Qed.

(** X23. A box given as an object with an integer [id] gets the caption of
    that number, whatever its position in the list, with its [x], [y],
    [width] and [height], which are 0, 0, 20 and 10 when the object does
    not have them; a box whose [id] is not the number of a caption is
    dropped. *)
Theorem match_box_by_id (i : nat) (d : list (string * json)) (k : Z)
    (x y width height : Q) :
  get d "id" = Some (JInt k) ->
  field_or d "x" 0 x ->
  field_or d "y" 0 y ->
  field_or d "width" 20 width ->
  field_or d "height" 10 height ->
  match_box float_of_str int_of_str text_boxes i (JDict d)
  = Returned (caption_of_id text_boxes k (box_coords_of x y width height)).
Proof.
  intros Hid Hx Hy Hw Hh.
  assert (Hfloat : forall key dflt q,
            field_or d key (inject_Z dflt) q ->
            py_float float_of_str (default (JInt dflt) (get d key))
            = Returned q).
  { intros key dflt q. unfold field_or.
    destruct (get d key) as [v|]; cbn.
    - destruct v; cbn; try (by intros []); by intros ->.
    - by intros ->. }
  unfold match_box, standard_box. rewrite Hid. cbn [default from_option id is_not_None].
  rewrite (Hfloat "x" 0%Z x Hx), (Hfloat "y" 0%Z y Hy),
    (Hfloat "width" 20%Z width Hw), (Hfloat "height" 10%Z height Hh).
  cbn [obind fst is_not_None py_int]. unfold caption_of_id.
  replace ((0 <=? k - 1)%Z && (k - 1 <? Z.of_nat (length text_boxes))%Z)
    with ((1 <=? k)%Z && (k <=? Z.of_nat (length text_boxes))%Z);
    [by destruct (_ && _)|].
  destruct (Z.leb_spec 1 k), (Z.leb_spec k (Z.of_nat (length text_boxes))),
    (Z.leb_spec 0 (k - 1)),
    (Z.ltb_spec (k - 1) (Z.of_nat (length text_boxes)));
    cbn; (reflexivity || lia).
Qed.

Lemma flexible_box_width (x y width height : Z) :
  flexible_box float_of_str
    [("x", JInt x); ("y", JInt y); ("width", JInt width);
     ("height", JInt height)]
  = Returned
      (JInt width,
       box_coords_of (inject_Z x) (inject_Z y) (inject_Z width)
         (inject_Z height)).
Proof. vm_compute. reflexivity. Qed.

(** X24. A box given as an object with [x], [y], [width] and [height] and no
    [id] is not matched by its position: its width is taken as its
    identifier, [width] being the first key that holds the letters
    [id]. *)
Theorem match_box_width_as_id (i : nat) (x y width height : Z) :
  match_box float_of_str int_of_str text_boxes i
    (JDict [("x", JInt x); ("y", JInt y); ("width", JInt width);
            ("height", JInt height)])
  = Returned
      (caption_of_id text_boxes width
         (box_coords_of (inject_Z x) (inject_Z y) (inject_Z width)
            (inject_Z height))).
Proof.
  unfold match_box.
  change (standard_box float_of_str
            (JDict [("x", JInt x); ("y", JInt y); ("width", JInt width);
                    ("height", JInt height)]))
    with (Returned (JNone, ∅ : gmap string Q)).
  cbn [obind fst is_not_None]. rewrite flexible_box_width.
  cbn [obind is_not_None py_int]. unfold caption_of_id.
  replace ((0 <=? width - 1)%Z
           && (width - 1 <? Z.of_nat (length text_boxes))%Z)
    with ((1 <=? width)%Z && (width <=? Z.of_nat (length text_boxes))%Z);
    [by destruct (_ && _)|].
  destruct (Z.leb_spec 1 width),
    (Z.leb_spec width (Z.of_nat (length text_boxes))),
    (Z.leb_spec 0 (width - 1)),
    (Z.ltb_spec (width - 1) (Z.of_nat (length text_boxes)));
    cbn; (reflexivity || lia).
Qed.

Lemma match_box_scalar (i : nat) (box : json) :
  is_scalar box = true ->
  match_box float_of_str int_of_str text_boxes i box
  = Returned (by_position text_boxes i ∅).
Proof. by destruct box. Qed.

Lemma match_boxes_scalars (boxes : list json) :
  Forall (fun v => is_scalar v = true) boxes ->
  forall (i : nat) (texts : list string)
         (coordinates : list (gmap string Q)),
    match_boxes float_of_str int_of_str text_boxes i boxes texts coordinates
    = (texts
       ++ map (fun k => caption_or_empty (text_boxes !! k))
            (seq i (Nat.min (length boxes) (length text_boxes - i))),
       coordinates
       ++ replicate (Nat.min (length boxes) (length text_boxes - i)) ∅).
Proof.
  induction 1 as [|box boxes Hbox Hboxes IH]; intros i texts coordinates.
  - cbn. by rewrite !app_nil_r.
  - cbn [match_boxes length]. rewrite (match_box_scalar i box Hbox).
    unfold by_position. destruct (Nat.ltb_spec i (length text_boxes)).
    + rewrite IH, <- !app_assoc.
      replace (Nat.min (S (length boxes)) (length text_boxes - i))
        with (S (Nat.min (length boxes) (length text_boxes - S i))) by lia.
      reflexivity.
    + rewrite IH.
      replace (Nat.min (length boxes) (length text_boxes - S i))
        with 0%nat by lia.
      replace (Nat.min (S (length boxes)) (length text_boxes - i))
        with 0%nat by lia.
      reflexivity.
Qed.

(** X25. A value that is a list of one list is unwrapped: when the inner list
    is one box given by its fields, the fields are taken for the boxes,
    and each gets the caption of its position, without coordinates. *)
Theorem texts_and_coordinates_unwraps (fields : list json) :
  Forall (fun v => is_scalar v = true) fields ->
  fields <> [] ->
  text_boxes <> [] ->
  texts_and_coordinates float_of_str int_of_str json_loads text_boxes
    (JList [JList fields])
  = Returned
      (first_captions text_boxes
         (Nat.min (length fields) (length text_boxes)),
       replicate (Nat.min (length fields) (length text_boxes)) ∅).
Proof.
  intros Hscalar Hfields Hboxes.
  unfold texts_and_coordinates, parse_text_box_coordinates, boxes_of.
  cbn [obind]. rewrite (match_boxes_scalars fields Hscalar 0 [] []).
  rewrite Nat.sub_0_r. cbn [app].
  destruct fields as [|v fields]; [done|].
  destruct text_boxes as [|t ts] eqn:Ht; [done|].
  reflexivity.
Qed.

Section Validation.

Variable textbbox : font -> string -> Z * Z * Z * Z.
Variable self : overlay.

(** X26. What [process_meme_image] hands to [add_text_at_coordinates] passes
    its validation: there is at least one caption, there are as many
    captions as boxes, and every caption is a caption of the meme or the
    empty string. *)
Theorem texts_and_coordinates_valid (text_box_coordinates : json)
    (texts : list string) (coordinates : list (gmap string Q)) :
  texts_and_coordinates float_of_str int_of_str json_loads text_boxes
    text_box_coordinates
  = Returned (texts, coordinates) ->
  length texts = length coordinates
  /\ (0 < length texts)%nat
  /\ Forall (fun t => t = EmptyString \/ In (Some t) text_boxes) texts
  /\ add_text_at_coordinates textbbox self texts coordinates
     = process_boxes textbbox self 0 (zip texts coordinates).
Proof.
  unfold texts_and_coordinates, obind.
  destruct (parse_text_box_coordinates json_loads text_box_coordinates)
    as [parsed|e]; [|discriminate].
  destruct (boxes_of parsed) as [boxes|e]; [|discriminate].
  destruct (match_boxes_invariant boxes 0 [] [])
    as (new_texts & new_coordinates & Ht & Hc & Hlen & _ & Hall).
  cbv zeta in Ht, Hc.
  destruct (match_boxes float_of_str int_of_str text_boxes 0 boxes [] [])
    as [texts' coordinates'].
  cbn [fst snd app] in Ht, Hc. subst texts' coordinates'.
  destruct new_coordinates as [|c cs]; cbn [nonempty negb]; [discriminate|].
  intros [= <- <-].
  destruct new_texts as [|t ts]; [discriminate|].
  split; [exact Hlen|]. split; [cbn; lia|]. split; [exact Hall|].
  unfold add_text_at_coordinates. cbn [nonempty negb].
  by rewrite Hlen, Nat.eqb_refl.
Qed.

End Validation.

End TextBoxesProperties.

Section TextBoxesWitnesses.
Import TextOverlay TextBoxes.

Lemma texts_and_coordinates_valid_witness :
  length ["bottom"] = length [box_coords_of 10 (11 # 2) 80 10]
  /\ (0 < length ["bottom"])%nat
  /\ Forall (fun t => t = EmptyString \/ In (Some t) example_text_boxes)
       ["bottom"]
  /\ add_text_at_coordinates mono_textbbox
       (example_overlay (Some "impact.ttf")) ["bottom"]
       [box_coords_of 10 (11 # 2) 80 10]
     = process_boxes mono_textbbox (example_overlay (Some "impact.ttf")) 0
         (zip ["bottom"] [box_coords_of 10 (11 # 2) 80 10]).
Proof.
  apply (texts_and_coordinates_valid example_float_of_str example_int_of_str
           example_loads example_text_boxes mono_textbbox
           (example_overlay (Some "impact.ttf"))
           (JList [JDict example_box])).
  vm_compute. reflexivity.
Defined.

Lemma match_box_by_id_witness :
  match_box example_float_of_str example_int_of_str example_text_boxes 5
    (JDict example_box)
  = Returned
      (caption_of_id example_text_boxes 2
         (box_coords_of 10 (11 # 2) 80 10)).
Proof.
  apply (match_box_by_id example_float_of_str example_int_of_str
           example_text_boxes 5 example_box 2 10 (11 # 2) 80 10);
    vm_compute; reflexivity.
Defined.

Lemma texts_and_coordinates_unwraps_witness :
  texts_and_coordinates example_float_of_str example_int_of_str
    example_loads example_text_boxes
    (JList [JList [JInt 1; JStr "top"; JInt 10; JInt 10; JInt 80; JInt 20]])
  = Returned
      (first_captions example_text_boxes
         (Nat.min
            (length [JInt 1; JStr "top"; JInt 10; JInt 10; JInt 80; JInt 20])
            (length example_text_boxes)),
       replicate
         (Nat.min
            (length [JInt 1; JStr "top"; JInt 10; JInt 10; JInt 80; JInt 20])
            (length example_text_boxes)) ∅).
Proof.
  apply (texts_and_coordinates_unwraps example_float_of_str
           example_int_of_str example_loads example_text_boxes
           [JInt 1; JStr "top"; JInt 10; JInt 10; JInt 80; JInt 20]).
  - repeat constructor.
  - discriminate.
  - discriminate.
Defined.

End TextBoxesWitnesses.
